(** * Image-based furniture search: retrieval and ranking pipeline

    A shallow embedding of the backend services

      - [services/aiProvider.ts]      (provider factory, embedding capability,
                                       image analysis),
      - [services/embeddingCache.ts]  (process-wide cache, batching, cosine),
      - [services/searchService.ts]   (provider resolution, scoring, ranking),
      - [routes/search.ts] and [middleware/errorHandler.ts]
                                      (key checks, validation, responses),

    and of the client's [api/searchApi.ts] and
    [state/SearchHistoryContext.tsx], followed by the properties the
    specification states about them and by further properties of the code.

    Conventions of the embedding.

      - A JavaScript [number] is an IEEE 754 binary64 value: Rocq's primitive
        [float], whose [+ - * / sqrt] and comparisons are the ones of the
        hardware.  Integer-valued configuration fields used as array bounds
        ([maxCandidates], [topK]) are [Z].
      - A JavaScript string is a [string] of 8-bit characters, read as
        ASCII text.  [toLowerCase], the [i] flag, and the white space of
        [trim] and of the regular expression escape [\s] are defined as
        JavaScript defines them on ASCII text; a property that reads case
        or white space off a text it does not fix takes that text to be
        ASCII (the hypothesis [asciiText]).
      - [Map<string, number[]>] is a [gmap string (list float)].
      - An [async] function that may throw returns a sum: [inl message] for a
        thrown [Error], [inr value] for a fulfilled promise.  The remote
        embedding service is an oracle that sees the log of earlier calls, so
        that it may answer or fail differently from one call to the next. *)

From Stdlib Require Import ZArith List Bool Ascii String Lia Floats.
From Stdlib Require Import Sorted Permutation.
From stdpp Require Import gmap strings list fin_maps.
Import ListNotations.

Set Warnings "-inexact-float,-register-all".
Local Open Scope string_scope.

(** ** JavaScript built-ins used by the services *)

Module JS.

Abbreviation number := float.

(** *** Strings *)

Definition isUpper (c : ascii) : bool :=
  (65 <=? nat_of_ascii c)%nat && (nat_of_ascii c <=? 90)%nat.

Definition lowerChar (c : ascii) : ascii :=
  if isUpper c then ascii_of_nat (nat_of_ascii c + 32) else c.

(** [String.prototype.toLowerCase] on ASCII text: the letters [A] to [Z]
    are folded.  (The built-in folds the cased letters beyond ASCII too.) *)
Fixpoint toLowerCase (s : string) : string :=
  match s with
  | EmptyString => EmptyString
  | String c r => String (lowerChar c) (toLowerCase r)
  end.

(** White space as [trim] and [\s] see it in ASCII text: TAB, LF, VT, FF,
    CR, SPACE.  (Beyond ASCII they also take U+00A0, U+FEFF and the
    Unicode space separators.) *)
Definition isSpace (c : ascii) : bool :=
  let n := nat_of_ascii c in
  ((9 <=? n)%nat && (n <=? 13)%nat) || (n =? 32)%nat.

Definition isDigit (c : ascii) : bool :=
  (48 <=? nat_of_ascii c)%nat && (nat_of_ascii c <=? 57)%nat.

Definition isEmpty (s : string) : bool :=
  match s with EmptyString => true | String _ _ => false end.

Fixpoint trimStart (s : string) : string :=
  match s with
  | EmptyString => EmptyString
  | String c r => if isSpace c then trimStart r else s
  end.

Fixpoint trimEnd (s : string) : string :=
  match s with
  | EmptyString => EmptyString
  | String c r =>
      let r' := trimEnd r in
      if isSpace c && isEmpty r' then EmptyString else String c r'
  end.

(** [String.prototype.trim]. *)
Definition trim (s : string) : string := trimEnd (trimStart s).

(** [s.startsWith(p)]. *)
Fixpoint startsWith (p s : string) : bool :=
  match p, s with
  | EmptyString, _ => true
  | String a p', String b s' => Ascii.eqb a b && startsWith p' s'
  | String _ _, EmptyString => false
  end.

(** [s.includes(sub)]: [sub] occurs in [s] as a contiguous substring. *)
Fixpoint includes (s sub : string) : bool :=
  startsWith sub s
  || match s with
     | EmptyString => false
     | String _ r => includes r sub
     end.

(** [s.replace(/s$/, "")]: one trailing lower-case [s] is removed. *)
Fixpoint stripTrailingS (s : string) : string :=
  match s with
  | EmptyString => EmptyString
  | String c r =>
      if isEmpty r then (if Ascii.eqb c "s" then EmptyString else s)
      else String c (stripTrailingS r)
  end.

(** [parts.join(sep)]. *)
Fixpoint join (sep : string) (parts : list string) : string :=
  match parts with
  | [] => EmptyString
  | [p] => p
  | p :: rest => p ++ sep ++ join sep rest
  end.

(** A string is truthy when it is not empty. *)
Definition truthyString (s : string) : bool := negb (isEmpty s).

(** *** Numbers *)

(** A number is falsy when it is [+0], [-0] or [NaN]. *)
Definition truthy (x : number) : bool := negb (is_zero x || is_nan x).

Definition Math_abs (x : number) : number := abs x.

(** [Math.max(a, b)]: [NaN] if either is, and [+0] above [-0]. *)
Definition Math_max (a b : number) : number :=
  if is_nan a || is_nan b then nan
  else if (a <? b)%float then b
  else if is_zero a && is_zero b && get_sign a then b
  else a.

(** [Math.min(a, b)]: [NaN] if either is, and [-0] below [+0]. *)
Definition Math_min (a b : number) : number :=
  if is_nan a || is_nan b then nan
  else if (b <? a)%float then b
  else if is_zero a && is_zero b && get_sign b then b
  else a.

(** The number a decimal integer literal denotes: the nearest binary64
    value, ties to even, [Infinity] beyond the range. *)
Definition numberOfZ (z : Z) : number :=
  SF2Prim (binary_normalize prec emax z 0 false).

(** *** Arrays *)

(** [l.slice(0, end)] for an integer [end]: a negative [end] counts from
    the end of the array. *)
Definition slice0 {A} (l : list A) (fin : Z) : list A :=
  let len := Z.of_nat (length l) in
  let k := if (fin <? 0)%Z then Z.max (len + fin) 0 else Z.min fin len in
  firstn (Z.to_nat k) l.

(** [l.slice(i, i + n)] for in-range natural [i]. *)
Definition sliceFrom {A} (l : list A) (i n : nat) : list A :=
  firstn n (skipn i l).

End JS.

(** ** services/embeddingCache.ts: cosine similarity *)

Module Cosine.
Import JS.

Definition EmbeddingVector := list float.

(** The loop body of [cosineSimilarity], over the positions both vectors
    have; the accumulators are [dot], [normA] and [normB]. *)
Fixpoint cosineLoop (a b : EmbeddingVector) (dot normA normB : float)
  : float * float * float :=
  match a, b with
  | va :: a', vb :: b' =>
      cosineLoop a' b' (dot + va * vb)%float (normA + va * va)%float
                 (normB + vb * vb)%float
  | _, _ => (dot, normA, normB)
  end.

Definition cosineSimilarity (a b : EmbeddingVector) : float :=
  let minLength := Nat.min (length a) (length b) in
  if (minLength =? 0)%nat then 0%float
  else
    let '(dot, normA, normB) := cosineLoop a b 0%float 0%float 0%float in
    if negb (truthy normA) || negb (truthy normB) then 0%float
    else (dot / (sqrt normA * sqrt normB))%float.

End Cosine.

(** ** types.ts *)

Record Product := {
  _id : string;
  title : string;
  description : string;
  category : string;
  type : string;
  price : float;
  width : float;
  height : float;
  depth : float
}.

(** A thrown [Error] is its message; a fulfilled promise is its value. *)
Definition Result (A : Type) := (string + A)%type.

(** ** services/aiProvider.ts *)

Module AiProvider.
Import JS Cosine.

Inductive AIProvider := OpenAI | Anthropic | Google.

Definition providerName (p : AIProvider) : string :=
  match p with
  | OpenAI => "openai"
  | Anthropic => "anthropic"
  | Google => "google"
  end.

Record ProviderConfig := {
  provider : string;
  apiKey : string;
  visionModel : option string;
  embeddingModel : option string
}.

(** A client is the backend the factory selected, closed over its
    configuration. *)
Record AIProviderClient := {
  backend : AIProvider;
  clientConfig : ProviderConfig
}.

(** [createAIProviderClient]: the [switch] over the provider string. *)
Definition createAIProviderClient (config : ProviderConfig)
  : Result AIProviderClient :=
  if String.eqb (provider config) "openai" then
    inr {| backend := OpenAI; clientConfig := config |}
  else if String.eqb (provider config) "anthropic" then
    inr {| backend := Anthropic; clientConfig := config |}
  else if String.eqb (provider config) "google" then
    inr {| backend := Google; clientConfig := config |}
  else inl ("Unsupported provider: " ++ provider config).

(** What a vendor SDK throws: an optional HTTP status and a message. *)
Record SdkError := {
  status : option Z;
  message : option string
}.

(** [{ embedding }]: the vector may be missing from a response item. *)
Record EmbeddingResponse := { embedding : option EmbeddingVector }.

(** One invocation of [createEmbeddings] that reaches a remote service. *)
Record Call := {
  callProvider : AIProvider;
  callModel : string;
  callTexts : list string
}.

(** [a || b] on optional strings: the first truthy one. *)
Definition orElse (a : option string) (b : string) : string :=
  match a with
  | Some s => if truthyString s then s else b
  | None => b
  end.

Definition messageIncludes (e : SdkError) (sub : string) : bool :=
  match message e with
  | Some m => includes m sub
  | None => false
  end.

Definition statusIs (e : SdkError) (code : Z) : bool :=
  match status e with
  | Some s => (s =? code)%Z
  | None => false
  end.

Definition unsupportedEmbeddings : string :=
  "Anthropic does not provide a native embeddings API. Please use OpenAI for embeddings or configure a different provider for embeddings.".

Section Remote.

(** The remote services.  [openaiEmbeddings log model texts] answers
    [client.embeddings.create]; [googleEmbedContent log model i text]
    answers the [i]-th [embedContent] of one invocation.  Both see the
    log of the invocations made so far. *)
Variable openaiEmbeddings :
  list Call -> string -> list string -> SdkError + list (option EmbeddingVector).
Variable googleEmbedContent :
  list Call -> string -> nat -> string -> SdkError + option EmbeddingVector.

Definition openaiCatch (e : SdkError) : string :=
  if statusIs e 401 || messageIncludes e "Invalid API key" then
    "Invalid OpenAI API key. Please check your API key and try again."
  else if statusIs e 429 || messageIncludes e "rate limit" then
    "OpenAI API rate limit exceeded. Please wait a moment and try again."
  else "OpenAI embeddings API error: " ++ orElse (message e) "Unknown error".

Definition googleCatch (e : SdkError) : string :=
  if messageIncludes e "API_KEY_INVALID" || messageIncludes e "401" then
    "Invalid Google API key. Please check your API key and try again."
  else if messageIncludes e "429" || messageIncludes e "RESOURCE_EXHAUSTED" then
    "Google API rate limit exceeded. Please wait a moment and try again."
  else "Google embeddings API error: " ++ orElse (message e) "Unknown error".

(** The [for (const text of texts)] loop of the Google client. *)
Fixpoint googleLoop (log : list Call) (model : string) (i : nat)
         (texts : list string) : SdkError + list EmbeddingResponse :=
  match texts with
  | [] => inr []
  | text :: rest =>
      match googleEmbedContent log model i text with
      | inl e => inl e
      | inr v =>
          match googleLoop log model (S i) rest with
          | inl e => inl e
          | inr out => inr ({| embedding := v |} :: out)
          end
      end
  end.

(** [client.createEmbeddings(texts, model)].  The log grows by one
    entry exactly when the request leaves for a remote service; the
    Anthropic client throws before any request is made. *)
Definition createEmbeddings (client : AIProviderClient)
           (texts : list string) (model : option string)
           (log : list Call) : list Call * Result (list EmbeddingResponse) :=
  match backend client with
  | OpenAI =>
      let m := orElse model
                 (orElse (embeddingModel (clientConfig client))
                         "text-embedding-3-small") in
      let call := {| callProvider := OpenAI; callModel := m;
                     callTexts := texts |} in
      ((log ++ [call])%list,
       match openaiEmbeddings log m texts with
       | inl e => inl (openaiCatch e)
       | inr data => inr (map (fun v => {| embedding := v |}) data)
       end)
  | Anthropic => (log, inl unsupportedEmbeddings)
  | Google =>
      let m := orElse model
                 (orElse (embeddingModel (clientConfig client))
                         "text-embedding-004") in
      let call := {| callProvider := Google; callModel := m;
                     callTexts := texts |} in
      ((log ++ [call])%list,
       match googleLoop log m 0 texts with
       | inl e => inl (googleCatch e)
       | inr out => inr out
       end)
  end.

End Remote.

End AiProvider.

(** ** services/embeddingCache.ts: the process-wide cache *)

Module EmbeddingCache.
Import JS Cosine AiProvider.

(** The module-level [productEmbeddingCache] together with the log of
    the embedding requests sent so far. *)
Record World := {
  cache : gmap string EmbeddingVector;
  calls : list Call
}.

Definition BATCH_SIZE : nat := 100.

(** [[title, category, type, description].filter(Boolean).join(" | ")]. *)
Definition productText (p : Product) : string :=
  join " | "
       (List.filter truthyString [title p; category p; type p; description p]).

(** The [texts.forEach] that keeps the texts with a non-blank trim, each
    with its index in the batch: [validIndices] and [validTexts]. *)
Fixpoint validFrom (idx : nat) (texts : list string) : list (nat * string) :=
  match texts with
  | [] => []
  | text :: rest =>
      if (0 <? String.length (trim text))%nat
      then (idx, text) :: validFrom (S idx) rest
      else validFrom (S idx) rest
  end.

(** The [catch] around an embedding request. *)
Definition rethrow (provider : string) (msg : string) : string :=
  if includes msg "Invalid" && includes msg "API key" then
    "Invalid " ++ provider ++ " API key. Please check your API key and try again."
  else if includes msg "rate limit" then
    provider ++ " API rate limit exceeded. Please wait a moment and try again."
  else msg.

(** [embeddings.forEach((item, responseIdx) => ...)]: the response at
    position [responseIdx] belongs to the product at
    [validIndices[responseIdx]]; responses beyond [validIndices] and
    responses without a vector write nothing. *)
Fixpoint storeBatch (batch : list Product) (embeddings : list EmbeddingResponse)
         (validIndices : list nat) (c : gmap string EmbeddingVector)
  : gmap string EmbeddingVector :=
  match embeddings, validIndices with
  | item :: embeddings', batchIdx :: validIndices' =>
      let c' :=
        match nth_error batch batchIdx, embedding item with
        | Some product, Some e => <[_id product := e]> c
        | _, _ => c
        end in
      storeBatch batch embeddings' validIndices' c'
  | _, _ => c
  end.

Section Remote.

Variable openaiEmbeddings :
  list Call -> string -> list string -> SdkError + list (option EmbeddingVector).
Variable googleEmbedContent :
  list Call -> string -> nat -> string -> SdkError + option EmbeddingVector.

Let createEmbeddings := createEmbeddings openaiEmbeddings googleEmbedContent.

(** The [for (let i = 0; i < missingProducts.length; i += BATCH_SIZE)]
    loop; [fuel] bounds the number of iterations. *)
Fixpoint batchLoop (fuel i : nat) (client : AIProviderClient)
         (provider : string) (model : option string)
         (missingProducts : list Product) (w : World)
  : World * Result unit :=
  match fuel with
  | O => (w, inr tt)
  | S fuel' =>
      if (i <? length missingProducts)%nat then
        let batch := sliceFrom missingProducts i BATCH_SIZE in
        let texts := map productText batch in
        let valid := validFrom 0 texts in
        let validTexts := map snd valid in
        let validIndices := map fst valid in
        if (length validTexts =? 0)%nat then
          batchLoop fuel' (i + BATCH_SIZE) client provider model
                    missingProducts w
        else
          let '(log, r) :=
            createEmbeddings client validTexts model (calls w) in
          match r with
          | inl msg =>
              ({| cache := cache w; calls := log |},
               inl (rethrow provider msg))
          | inr embeddings =>
              batchLoop fuel' (i + BATCH_SIZE) client provider model
                        missingProducts
                        {| cache := storeBatch batch embeddings
                                               validIndices (cache w);
                           calls := log |}
          end
      else (w, inr tt)
  end.

(** [model ? { embeddingModel: model } : {}]. *)
Definition modelOption (model : option string) : option string :=
  match model with
  | Some m => if truthyString m then Some m else None
  | None => None
  end.

(** [getProductEmbeddings].  The map it returns is the cache itself. *)
Definition getProductEmbeddings (products : list Product)
           (provider apiKey : string) (model : option string) (w : World)
  : World * Result (gmap string EmbeddingVector) :=
  match createAIProviderClient
          {| AiProvider.provider := provider; AiProvider.apiKey := apiKey;
             visionModel := None; embeddingModel := modelOption model |} with
  | inl msg => (w, inl msg)
  | inr client =>
      let missingProducts :=
        List.filter
          (fun p => negb (bool_decide (is_Some (cache w !! _id p))))
          products in
      if (0 <? length missingProducts)%nat then
        match batchLoop (length missingProducts) 0 client provider model
                        missingProducts w with
        | (w', inl msg) => (w', inl msg)
        | (w', inr _) => (w', inr (cache w'))
        end
      else (w, inr (cache w))
  end.

(** [createQueryEmbedding]: one request for the single query text. *)
Definition createQueryEmbedding (queryText provider apiKey : string)
           (model : option string) (w : World)
  : World * Result EmbeddingVector :=
  match createAIProviderClient
          {| AiProvider.provider := provider; AiProvider.apiKey := apiKey;
             visionModel := None; embeddingModel := modelOption model |} with
  | inl msg => (w, inl msg)
  | inr client =>
      let '(log, r) := createEmbeddings client [queryText] model (calls w) in
      let w' := {| cache := cache w; calls := log |} in
      match r with
      | inl msg => (w', inl (rethrow provider msg))
      | inr embeddings =>
          match embeddings with
          | {| embedding := Some e |} :: _ => (w', inr e)
          | _ => (w', inr [])
          end
      end
  end.

End Remote.

End EmbeddingCache.

(** ** The regular expressions of searchService.ts, as matchers *)

Module Regex.
Import JS.

(** [p] matches at the start of [s] under the [i] flag. *)
Fixpoint startsWithCI (p s : string) : bool :=
  match p, s with
  | EmptyString, _ => true
  | String a p', String b s' =>
      Ascii.eqb (lowerChar a) (lowerChar b) && startsWithCI p' s'
  | String _ _, EmptyString => false
  end.

Fixpoint dropN (n : nat) (s : string) : string :=
  match n, s with
  | O, _ => s
  | S n', String _ r => dropN n' r
  | S _, EmptyString => EmptyString
  end.

Definition isNewline (c : ascii) : bool := Ascii.eqb c "010".

(** [[^\n]+] at the start of [s], greedy: the rest of the line. *)
Fixpoint takeLine (s : string) : string :=
  match s with
  | EmptyString => EmptyString
  | String c r => if isNewline c then EmptyString else String c (takeLine r)
  end.

(** [\s*([^\n]+)] anchored at the start of [s].  The greedy [\s*] gives
    characters back, last first, until the group can start. *)
Fixpoint captureAfterSpace (s : string) : option string :=
  match s with
  | EmptyString => None
  | String c r =>
      if isSpace c then
        match captureAfterSpace r with
        | Some cap => Some cap
        | None => if isNewline c then None else Some (takeLine s)
        end
      else Some (takeLine s)
  end.

(** [s.match(/<label>\s*([^\n]+)/i)], group 1 of the leftmost match. *)
Fixpoint matchField (label s : string) : option string :=
  let here :=
    if startsWithCI label s
    then captureAfterSpace (dropN (String.length label) s)
    else None in
  match here with
  | Some cap => Some cap
  | None =>
      match s with
      | EmptyString => None
      | String _ r => matchField label r
      end
  end.

Fixpoint takeDigits (s : string) : string :=
  match s with
  | EmptyString => EmptyString
  | String c r => if isDigit c then String c (takeDigits r) else EmptyString
  end.

Fixpoint dropDigits (s : string) : string :=
  match s with
  | EmptyString => EmptyString
  | String c r => if isDigit c then dropDigits r else s
  end.

Definition startsWithDigit (s : string) : bool :=
  match s with
  | EmptyString => false
  | String c _ => isDigit c
  end.

(** [s.match(/\$(\d+)/i)], group 1 of the leftmost match. *)
Fixpoint matchDollarSign (s : string) : option string :=
  match s with
  | EmptyString => None
  | String c r =>
      if Ascii.eqb c "$" && startsWithDigit r then Some (takeDigits r)
      else matchDollarSign r
  end.

(** [s.match(/(\d+)\s*dollars?/i)], group 1 of the leftmost match.  A
    shorter run of digits or of blanks never helps: the character after it
    is again a digit or a blank, and [d] matches neither. *)
Fixpoint matchDollars (s : string) : option string :=
  match s with
  | EmptyString => None
  | String c r =>
      if isDigit c && startsWithCI "dollar" (trimStart (dropDigits s))
      then Some (takeDigits s)
      else matchDollars r
  end.

(** The value of a string of decimal digits. *)
Fixpoint digitsValue (acc : Z) (s : string) : Z :=
  match s with
  | EmptyString => acc
  | String c r => digitsValue (10 * acc + (Z.of_nat (nat_of_ascii c) - 48))%Z r
  end.

(** [parseFloat] of a string of decimal digits. *)
Definition parseFloatDigits (s : string) : float := numberOfZ (digitsValue 0 s).

(** [text.toLowerCase().replace(/[^a-z0-9\s]/g, " ")], one character. *)
Definition isLower (c : ascii) : bool :=
  (97 <=? nat_of_ascii c)%nat && (nat_of_ascii c <=? 122)%nat.

Definition cleanChar (c : ascii) : ascii :=
  if isLower c || isDigit c || isSpace c then c else " "%char.

Fixpoint cleanText (s : string) : string :=
  match s with
  | EmptyString => EmptyString
  | String c r => String (cleanChar c) (cleanText r)
  end.

(** [s.split(/\s+/).filter(Boolean)]: the maximal runs of non-blanks;
    [cur] is the run being read. *)
Fixpoint splitSpaces (cur s : string) : list string :=
  match s with
  | EmptyString => if isEmpty cur then [] else [cur]
  | String c r =>
      if isSpace c then
        if isEmpty cur then splitSpaces EmptyString r
        else cur :: splitSpaces EmptyString r
      else splitSpaces (cur ++ String c EmptyString) r
  end.

End Regex.

(** ** services/searchService.ts *)

Module SearchService.
Import JS Cosine AiProvider EmbeddingCache Regex.

(** [Partial<SearchConfig>] as the request carries it: a field is absent
    ([None]) or present with a value. *)
Record PartialConfig := {
  userMaxCandidates : option Z;
  userTopK : option Z;
  userMinScore : option float;
  userImageWeight : option float;
  userTextWeight : option float;
  userPriceProximityWeight : option float;
  userPriceRangeEnabled : option bool;
  userPriceRangeMin : option float;
  userPriceRangeMax : option float;
  userAiProvider : option string;
  userAiModel : option string;
  userEmbeddingProvider : option string;
  userEmbeddingModel : option string
}.

(** [SearchConfig] after [{ ...defaultConfig, ...userConfig }]: the six
    fields [defaultConfig] defines always carry a value. *)
Record SearchConfig := {
  maxCandidates : Z;
  topK : Z;
  minScore : float;
  imageWeight : float;
  textWeight : float;
  priceProximityWeight : float;
  priceRangeEnabled : option bool;
  priceRangeMin : option float;
  priceRangeMax : option float;
  aiProvider : option string;
  aiModel : option string;
  embeddingProvider : option string;
  embeddingModel : option string
}.

Definition defaultTo {A} (d : A) (o : option A) : A :=
  match o with Some v => v | None => d end.

Definition mergeConfig (userConfig : option PartialConfig) : SearchConfig :=
  match userConfig with
  | None =>
      {| maxCandidates := 200; topK := 20; minScore := 0.35%float;
         imageWeight := 0.5%float; textWeight := 0.3%float;
         priceProximityWeight := 0.2%float;
         priceRangeEnabled := None; priceRangeMin := None;
         priceRangeMax := None; aiProvider := None; aiModel := None;
         embeddingProvider := None; embeddingModel := None |}
  | Some u =>
      {| maxCandidates := defaultTo 200%Z (userMaxCandidates u);
         topK := defaultTo 20%Z (userTopK u);
         minScore := defaultTo 0.35%float (userMinScore u);
         imageWeight := defaultTo 0.5%float (userImageWeight u);
         textWeight := defaultTo 0.3%float (userTextWeight u);
         priceProximityWeight :=
           defaultTo 0.2%float (userPriceProximityWeight u);
         priceRangeEnabled := userPriceRangeEnabled u;
         priceRangeMin := userPriceRangeMin u;
         priceRangeMax := userPriceRangeMax u;
         aiProvider := userAiProvider u;
         aiModel := userAiModel u;
         embeddingProvider := userEmbeddingProvider u;
         embeddingModel := userEmbeddingModel u |}
  end.

Record PerformSearchInput := {
  visionApiKey : string;
  embeddingApiKey : option string;
  imageBase64 : string;
  queryText : option string;
  config : option PartialConfig
}.

(** [FurnitureAnalysis], without the description that only the debug
    output reads. *)
Record FurnitureAnalysis := {
  analysisCategory : option string;
  analysisType : option string
}.

Record ScoredProduct := {
  product : Product;
  score : float;
  explanation : string
}.

Definition truthyOpt (o : option string) : bool :=
  match o with Some s => truthyString s | None => false end.

(** *** Provider resolution (the head of [performSearch]) *)

(** [config.aiProvider || "openai"]. *)
Definition visionProvider (cfg : SearchConfig) : string :=
  orElse (aiProvider cfg) "openai".

Definition resolveVisionModel (cfg : SearchConfig) : string :=
  let provider := visionProvider cfg in
  orElse (aiModel cfg)
         (if String.eqb provider "openai" then "gpt-4o"
          else if String.eqb provider "anthropic"
               then "claude-3-5-sonnet-20241022"
               else "gemini-1.5-pro").

(** [embeddingProvider] and [embeddingModel] as they stand after the
    [if (embeddingProvider === "anthropic")] block. *)
Definition resolveEmbedding (cfg : SearchConfig) : string * string :=
  let provider := visionProvider cfg in
  let embeddingProvider0 := orElse (embeddingProvider cfg) provider in
  let embeddingModel0 :=
    orElse (embeddingModel cfg)
           (if String.eqb embeddingProvider0 "openai"
            then "text-embedding-3-small"
            else if String.eqb embeddingProvider0 "google"
                 then "text-embedding-004"
                 else "text-embedding-3-small") in
  if String.eqb embeddingProvider0 "anthropic"
  then ("openai", orElse (Some embeddingModel0) "text-embedding-3-small")
  else (embeddingProvider0, embeddingModel0).

(** [finalEmbeddingApiKey], [None] when the request must be refused. *)
Definition resolveEmbeddingKey (input : PerformSearchInput)
           (cfg : SearchConfig) : option string :=
  let provider := visionProvider cfg in
  let embeddingProvider1 := fst (resolveEmbedding cfg) in
  if truthyOpt (embeddingApiKey input) then embeddingApiKey input
  else
    let key :=
      if String.eqb embeddingProvider1 provider then Some (visionApiKey input)
      else if String.eqb embeddingProvider1 "openai"
              && String.eqb provider "anthropic"
           then Some (visionApiKey input)
           else None in
    if truthyOpt key then key else None.

(** *** Query-side helpers *)

(** [targetPrice]: [None] is [null]. *)
Definition targetPriceOf (queryText : option string) : option float :=
  match queryText with
  | None => None
  | Some q =>
      match matchDollarSign q with
      | Some digits => Some (parseFloatDigits digits)
      | None =>
          match matchDollars q with
          | Some digits => Some (parseFloatDigits digits)
          | None => None
          end
      end
  end.

Definition tokenize (text : string) : list string :=
  splitSpaces EmptyString (cleanText (toLowerCase text)).

Definition hasToken (tokens : list string) (t : string) : bool :=
  existsb (String.eqb t) tokens.

Definition computeLexicalScore (query text : string) : float :=
  let qTokens := tokenize query in
  let tTokens := tokenize text in
  if (length qTokens =? 0)%nat || (length tTokens =? 0)%nat then 0%float
  else
    let overlap := length (List.filter (hasToken tTokens) qTokens) in
    (numberOfZ (Z.of_nat overlap) / numberOfZ (Z.of_nat (length qTokens)))%float.

(** *** The type ladder *)

(** What indexing the object literal [similarTypes] by a key yields: one
    of its own arrays, a member inherited from [Object.prototype] (the
    only all-lower-case ones are [constructor] and [__proto__]), or
    [undefined]. *)
Inductive Lookup :=
| Own (terms : list string)
| Inherited
| Undefined.

Definition similarTypes (key : string) : Lookup :=
  if String.eqb key "bench" then Own ["bench"; "stool"; "seat"; "ottoman"]
  else if String.eqb key "chair"
    then Own ["chair"; "seat"; "stool"; "armchair"; "recliner"]
  else if String.eqb key "sofa"
    then Own ["sofa"; "couch"; "loveseat"; "settee"; "divan"]
  else if String.eqb key "desk"
    then Own ["desk"; "table"; "workstation"; "writing desk"]
  else if String.eqb key "table"
    then Own ["table"; "desk"; "counter"; "dining table"; "coffee table";
              "side table"]
  else if String.eqb key "cabinet"
    then Own ["cabinet"; "cupboard"; "wardrobe"; "armoire"]
  else if String.eqb key "shelf"
    then Own ["shelf"; "shelving"; "bookcase"; "bookshelf"]
  else if String.eqb key "bed" then Own ["bed"; "mattress"; "headboard"]
  else if String.eqb key "dresser"
    then Own ["dresser"; "chest"; "bureau"; "drawer"]
  else if String.eqb key "lamp" then Own ["lamp"; "light"; "lighting"]
  else if String.eqb key "constructor" || String.eqb key "__proto__"
    then Inherited
  else Undefined.

(** [similarTypes[queryType] || similarTypes[queryTypeSingular] || []]. *)
Definition similarOf (queryType queryTypeSingular : string) : Lookup :=
  match similarTypes queryType with
  | Undefined =>
      match similarTypes queryTypeSingular with
      | Undefined => Own []
      | found => found
      end
  | found => found
  end.

(** The callback of [similar.some]. *)
Definition similarHit (productType productTitle productDesc t : string) : bool :=
  let tSingular := stripTrailingS t in
  includes productType t || includes productType tSingular
  || includes productTitle t || includes productTitle tSingular
  || includes productDesc t || includes productDesc tSingular.

(** [typeMatchScore].  [similar.some] on an inherited member is a
    [TypeError]. *)
Definition typeMatchScore (analysisType : option string) (p : Product)
  : Result float :=
  match analysisType with
  | None => inr 0%float
  | Some ty =>
      if negb (truthyString ty) then inr 0%float
      else
        let queryType := trim (toLowerCase ty) in
        let queryTypeSingular := stripTrailingS queryType in
        let productType := trim (toLowerCase (type p)) in
        let productTypeSingular := stripTrailingS productType in
        let productTitle := toLowerCase (title p) in
        let productDesc := toLowerCase (description p) in
        if String.eqb productType queryType
           || String.eqb productTypeSingular queryType
           || String.eqb productType queryTypeSingular
        then inr 1%float
        else if includes productType queryType
                || includes queryType productType
                || includes productType queryTypeSingular
                || includes queryTypeSingular productType
        then inr 0.8%float
        else if includes productTitle queryType
                || includes productTitle queryTypeSingular
                || includes productDesc queryType
                || includes productDesc queryTypeSingular
        then inr 0.6%float
        else
          match similarOf queryType queryTypeSingular with
          | Own similar =>
              if existsb (similarHit productType productTitle productDesc)
                         similar
              then inr 0.4%float
              else inr 0%float
          | _ => inl "similar.some is not a function"
          end
  end.

(** [categoryMatchScore]. *)
Definition categoryMatchScore (analysisCategory : option string) (p : Product)
  : float :=
  match analysisCategory with
  | None => 0%float
  | Some cat =>
      if negb (truthyString cat) then 0%float
      else
        let productCategory := toLowerCase (category p) in
        let queryCategory := toLowerCase cat in
        if String.eqb productCategory queryCategory then 1%float
        else if includes productCategory queryCategory
                || includes queryCategory productCategory
        then 0.7%float
        else 0%float
  end.

(** *** Price proximity *)

(** [products.reduce((sum, p) => sum + p.price, 0) / products.length]. *)
Definition averagePrice (products : list Product) : float :=
  (fold_left (fun sum p => (sum + price p)%float) products 0%float
   / numberOfZ (Z.of_nat (length products)))%float.

(** [priceScore]; [products] is the catalog after the price-range filter,
    before the candidate cap. *)
Definition priceScoreOf (cfg : SearchConfig) (targetPrice : option float)
           (products : list Product) (p : Product) : float :=
  if truthy (priceProximityWeight cfg)
     && (0 <? priceProximityWeight cfg)%float
  then
    match targetPrice with
    | Some target =>
        let priceDiff := Math_abs (price p - target)%float in
        let maxPrice := Math_max (price p) target in
        if (0 <? maxPrice)%float
        then (1 - Math_min (priceDiff / maxPrice) 1)%float
        else 0%float
    | None =>
        let avgPrice := averagePrice products in
        let priceDiff := Math_abs (price p - avgPrice)%float in
        if (0 <? avgPrice)%float
        then (1 - Math_min (priceDiff / avgPrice) 0.5)%float
        else 0.5%float
    end
  else 0%float.

(** *** Scoring one candidate, ranking, and the request as a whole *)

Definition analysisPrompt : string :=
"Analyze this image and provide a structured analysis.

First, determine if this is furniture (chairs, tables, sofas, desks, cabinets, shelves, beds, benches, stools, etc.).

If it IS furniture, respond in this EXACT format:
FURNITURE
Category: [seating/tables/storage/beds/lighting/etc]
Type: [specific type like bench, chair, sofa, desk, table, cabinet, etc]
Description: [detailed description of materials, color, style, dimensions]

If it is NOT furniture, respond:
NOT_FURNITURE: [brief reason]

Be precise with category and type - these are critical for matching.".

Definition systemMessage : string :=
  "You are an expert furniture analyst. Describe furniture items with extreme precision for product matching. "
  ++ "Focus on: exact category, specific type, materials, color, style, shape, dimensions, and usage context. "
  ++ "Be very specific - distinguish between similar types (e.g., bench vs chair vs stool, sofa).".

Definition dquote : string := String (ascii_of_nat 34) EmptyString.

Definition userTextForVision (queryText : option string) : string :=
  "Provide a detailed description of this furniture item for precise product matching. Include: category, exact type, materials, color, style, approximate dimensions, and any distinctive features."
  ++ match queryText with
     | Some q =>
         if truthyString q
         then " Additional user requirements: " ++ dquote ++ q ++ dquote ++ "."
         else ""
     | None => ""
     end.

(** [s.replace(sub, "")]: the first occurrence of [sub] is removed. *)
Fixpoint removeFirst (sub s : string) : string :=
  if startsWith sub s then dropN (String.length sub) s
  else match s with
       | EmptyString => EmptyString
       | String c r => String c (removeFirst sub r)
       end.

(** The [catch] blocks around the two vision calls. *)
Definition rethrowVision (provider : string) (imageCheck : bool)
           (msg : string) : string :=
  if includes msg "Invalid" && includes msg "API key" then
    "Invalid " ++ provider ++ " API key. Please check your API key and try again."
  else if includes msg "rate limit" then
    provider ++ " API rate limit exceeded. Please wait a moment and try again."
  else if imageCheck && includes msg "image" then
    "Invalid image format. Please upload a valid image file."
  else msg.

Definition parseAnalysis (analysisContent : string) : FurnitureAnalysis :=
  {| analysisCategory :=
       option_map (fun cap => toLowerCase (trim cap))
                  (matchField "Category:" analysisContent);
     analysisType :=
       option_map (fun cap => toLowerCase (trim cap))
                  (matchField "Type:" analysisContent) |}.

Definition pushIf (cond : bool) (part : string) : list string :=
  if cond then [part] else [].

(** [queryParts.join(". ")]. *)
Definition composeQuery (analysis : FurnitureAnalysis)
           (visionDescription : string) (queryText : option string) : string :=
  join ". "
       (pushIf (truthyOpt (analysisType analysis))
               ("furniture type: " ++ defaultTo "" (analysisType analysis))
        ++ pushIf (truthyOpt (analysisCategory analysis))
                  ("category: " ++ defaultTo "" (analysisCategory analysis))
        ++ pushIf (truthyString visionDescription) visionDescription
        ++ pushIf (truthyOpt queryText)
                  ("user preferences: " ++ defaultTo "" queryText))%list.

(** The price-range filter over the fetched catalog. *)
Definition priceRangeFilter (cfg : SearchConfig) (products : list Product)
  : list Product :=
  match priceRangeEnabled cfg, priceRangeMin cfg, priceRangeMax cfg with
  | Some true, Some lo, Some hi =>
      List.filter (fun p => (lo <=? price p)%float && (price p <=? hi)%float)
                  products
  | _, _, _ => products
  end.

(** The comparator handed to [sort]. *)
Definition compareFn (a b : ScoredProduct) : float := (score b - score a)%float.

(** [Array.prototype.sort] is stable; on the scores that pass the
    [minScore] filter the comparator is consistent, and every stable sort
    then returns the same array.  [insertSorted x l] places [x], which
    preceded all of [l] in the input, before the first element the
    comparator does not order strictly ahead of it. *)
Fixpoint insertSorted (x : ScoredProduct) (l : list ScoredProduct)
  : list ScoredProduct :=
  match l with
  | [] => [x]
  | y :: l' =>
      if (0 <? compareFn x y)%float then y :: insertSorted x l'
      else x :: y :: l'
  end.

Fixpoint sort (l : list ScoredProduct) : list ScoredProduct :=
  match l with
  | [] => []
  | x :: l' => insertSorted x (sort l')
  end.

(** [scored.filter(...).sort(...)] and [filtered.slice(0, config.topK)]. *)
Definition rank (cfg : SearchConfig) (scored : list ScoredProduct)
  : list ScoredProduct :=
  let filtered :=
    sort (List.filter (fun s => (minScore cfg <=? score s)%float) scored) in
  slice0 filtered (topK cfg).

Record SearchOutput := {
  results : list ScoredProduct;
  isFurniture : bool;
  combinedQueryText : string;
  totalProducts : nat;
  considered : nat;
  priceFiltered : option bool;
  rejectionReason : option string;
  topScore : float;
  resultsCount : nat
}.

Fixpoint mapResult {A B} (f : A -> Result B) (l : list A) : Result (list B) :=
  match l with
  | [] => inr []
  | x :: l' =>
      match f x with
      | inl e => inl e
      | inr y =>
          match mapResult f l' with
          | inl e => inl e
          | inr ys => inr (y :: ys)
          end
      end
  end.

(** [embedding ? cosineSimilarity(queryEmbedding, embedding) : 0] for
    [embedding = productEmbeddings.get(product._id)]. *)
Definition semanticScoreOf (queryEmbedding : EmbeddingVector)
           (productEmbeddings : gmap string EmbeddingVector) (p : Product)
  : float :=
  match productEmbeddings !! _id p with
  | Some e => cosineSimilarity queryEmbedding e
  | None => 0%float
  end.

Section Host.

(** [Number.prototype.toFixed], a built-in of the host. *)
Variable toFixed : float -> nat -> string.

(** The remote services: the two embedding endpoints, and
    [visionClient.analyzeImage(image, prompt, systemPrompt, model)],
    which answers with the content or throws a message. *)
Variable openaiEmbeddings :
  list Call -> string -> list string -> SdkError + list (option EmbeddingVector).
Variable googleEmbedContent :
  list Call -> string -> nat -> string -> SdkError + option EmbeddingVector.
Variable analyzeImage :
  AIProviderClient -> string -> string -> option string -> string -> Result string.

(** [explanationParts]. *)
Definition explanationParts (typeMatchScore categoryMatchScore semanticScore
                             lexicalScore priceScore priceWeight : float)
  : list string :=
  ["typeMatch=" ++ toFixed typeMatchScore 2;
   "categoryMatch=" ++ toFixed categoryMatchScore 2;
   "semantic=" ++ toFixed semanticScore 3;
   "lexical=" ++ toFixed lexicalScore 3]
  ++ pushIf (0 <? priceWeight)%float ("price=" ++ toFixed priceScore 3).

(** The callback of [candidates.map]. *)
Definition scoreProduct (cfg : SearchConfig) (analysis : FurnitureAnalysis)
           (combinedQueryText : string) (targetPrice : option float)
           (products : list Product) (queryEmbedding : EmbeddingVector)
           (productEmbeddings : gmap string EmbeddingVector) (p : Product)
  : Result ScoredProduct :=
  let semanticScore :=
    semanticScoreOf queryEmbedding productEmbeddings p in
  let productText :=
    toLowerCase (join " " [title p; category p; type p; description p]) in
  let queryTextLower := toLowerCase combinedQueryText in
  match typeMatchScore (analysisType analysis) p with
  | inl e => inl e
  | inr typeMatch =>
      let categoryMatch := categoryMatchScore (analysisCategory analysis) p in
      let lexicalScore := computeLexicalScore queryTextLower productText in
      let priceScore := priceScoreOf cfg targetPrice products p in
      let priceWeight := priceProximityWeight cfg in
      let typeCategoryWeight := 0.25%float in
      let typeCategoryScore :=
        (typeMatch * 0.6 + categoryMatch * 0.4)%float in
      let score :=
        (imageWeight cfg * semanticScore
         + typeCategoryWeight * typeCategoryScore
         + textWeight cfg * lexicalScore
         + priceWeight * priceScore)%float in
      inr {| product := p;
             score := score;
             explanation :=
               join ", " (explanationParts typeMatch categoryMatch
                            semanticScore lexicalScore priceScore
                            priceWeight) |}
  end.

(** The second half of [performSearch], from the fetched catalog on.
    [Promise.all] starts the query embedding and the product embeddings
    together: the query request leaves first, both run to their end,
    and the search fails when either does.  When both fail,
    [Promise.all] rejects with the error that arrives first; the order of
    arrival is not part of this model, which then reports the error of
    the query. *)
Definition searchCatalog (cfg : SearchConfig) (input : PerformSearchInput)
           (analysis : FurnitureAnalysis) (combinedQueryText : string)
           (embeddingProvider finalEmbeddingApiKey embeddingModel : string)
           (fetched : list Product) (w : World)
  : World * Result SearchOutput :=
  let products := priceRangeFilter cfg fetched in
  let candidates := slice0 products (maxCandidates cfg) in
  let '(w1, rq) :=
    createQueryEmbedding openaiEmbeddings googleEmbedContent
      combinedQueryText embeddingProvider finalEmbeddingApiKey
      (Some embeddingModel) w in
  let '(w2, rp) :=
    getProductEmbeddings openaiEmbeddings googleEmbedContent
      candidates embeddingProvider finalEmbeddingApiKey
      (Some embeddingModel) w1 in
  match rq, rp with
  | inl e, _ => (w2, inl e)
  | inr _, inl e => (w2, inl e)
  | inr queryEmbedding, inr productEmbeddings =>
      let targetPrice := targetPriceOf (queryText input) in
      match mapResult
              (scoreProduct cfg analysis combinedQueryText targetPrice
                            products queryEmbedding productEmbeddings)
              candidates with
      | inl e => (w2, inl e)
      | inr scored =>
          let finalResults := rank cfg scored in
          (w2,
           inr {| results := finalResults;
                  isFurniture := true;
                  combinedQueryText := combinedQueryText;
                  totalProducts := length products;
                  considered := length candidates;
                  priceFiltered := priceRangeEnabled cfg;
                  rejectionReason := None;
                  topScore :=
                    match finalResults with
                    | top :: _ => score top
                    | [] => 0%float
                    end;
                  resultsCount := length finalResults |})
      end
  end.

(** [performSearch]; [fetched] is what [fetchAllProducts] returns. *)
Definition performSearch (input : PerformSearchInput)
           (fetched : list Product) (w : World)
  : World * Result SearchOutput :=
  let cfg := mergeConfig (config input) in
  let provider := visionProvider cfg in
  let visionModel := resolveVisionModel cfg in
  let '(embeddingProvider, embeddingModel) := resolveEmbedding cfg in
  match resolveEmbeddingKey input cfg with
  | None =>
      (w, inl ("Missing API key for embedding provider: " ++ embeddingProvider
               ++ ". Please provide an embedding API key."))
  | Some finalEmbeddingApiKey =>
      match createAIProviderClient
              {| AiProvider.provider := provider;
                 AiProvider.apiKey := visionApiKey input;
                 AiProvider.visionModel := Some visionModel;
                 AiProvider.embeddingModel := None |} with
      | inl msg =>
          (w, inl ("Failed to initialize " ++ provider ++ " client: " ++ msg))
      | inr visionClient =>
          match analyzeImage visionClient (imageBase64 input)
                             analysisPrompt None visionModel with
          | inl msg => (w, inl (rethrowVision provider true msg))
          | inr content =>
              let analysisContent := trim content in
              if negb (startsWith "FURNITURE" analysisContent) then
                (w,
                 inr {| results := [];
                        isFurniture := false;
                        combinedQueryText := analysisContent;
                        totalProducts := 0;
                        considered := 0;
                        priceFiltered := priceRangeEnabled cfg;
                        rejectionReason :=
                          Some (trim (removeFirst "NOT_FURNITURE:"
                                                  analysisContent));
                        topScore := 0%float;
                        resultsCount := 0 |})
              else
                let analysis := parseAnalysis analysisContent in
                match analyzeImage visionClient (imageBase64 input)
                                   (userTextForVision (queryText input))
                                   (Some systemMessage) visionModel with
                | inl msg => (w, inl (rethrowVision provider false msg))
                | inr visionDescription =>
                    searchCatalog cfg input analysis
                      (composeQuery analysis visionDescription
                                    (queryText input))
                      embeddingProvider finalEmbeddingApiKey embeddingModel
                      fetched w
                end
          end
      end
  end.

End Host.

End SearchService.

(** ** services/aiProvider.ts: image analysis *)

Module Vision.
Import JS AiProvider.

(** [s.split(sep)] for a separator of one character; [cur] is the piece
    being read. *)
Fixpoint split (sep : ascii) (cur s : string) : list string :=
  match s with
  | EmptyString => [cur]
  | String c r =>
      if Ascii.eqb c sep then cur :: split sep EmptyString r
      else split sep (cur ++ String c EmptyString) r
  end.

(** [imageBase64.includes(",") ? imageBase64.split(",")[1] : imageBase64];
    the piece at index 1 exists whenever the string holds a comma. *)
Definition base64Data (imageBase64 : string) : string :=
  if includes imageBase64 ","
  then nth 1 (split "," EmptyString imageBase64) EmptyString
  else imageBase64.

(** [mediaType] of the Anthropic client. *)
Definition mediaType (imageBase64 : string) : string :=
  if startsWith "data:image/png" imageBase64 then "image/png"
  else if startsWith "data:image/webp" imageBase64 then "image/webp"
  else if startsWith "data:image/gif" imageBase64 then "image/gif"
  else "image/jpeg".

(** [mimeType] of the Google client. *)
Definition mimeType (imageBase64 : string) : string :=
  if startsWith "data:image/png" imageBase64 then "image/png"
  else if startsWith "data:image/webp" imageBase64 then "image/webp"
  else "image/jpeg".

(** A message of an OpenAI chat request: a system text, or the user's
    text together with the image. *)
Inductive ChatMessage :=
| SystemMessage (content : string)
| UserMessage (text : string) (image_url : string).

Record ChatRequest := {
  chatModel : string;
  messages : list ChatMessage;
  chatMaxTokens : Z;
  temperature : float
}.

(** The Anthropic request: one user message holding the image and the
    text. *)
Record MessagesRequest := {
  messagesModel : string;
  max_tokens : Z;
  system : string;
  media_type : string;
  data : string;
  text : string
}.

(** A block of an Anthropic response: its [type] and its [text]. *)
Record ContentBlock := { blockType : string; blockText : string }.

(** The Google request: the prompt and the inline image. *)
Record GenerateRequest := {
  generativeModel : string;
  fullPrompt : string;
  inlineData : string;
  inlineMimeType : string
}.

Definition openaiCatch (e : SdkError) : string :=
  if statusIs e 401 || messageIncludes e "Invalid API key" then
    "Invalid OpenAI API key. Please check your API key and try again."
  else if statusIs e 429 || messageIncludes e "rate limit" then
    "OpenAI API rate limit exceeded. Please wait a moment and try again."
  else "OpenAI API error: " ++ orElse (message e) "Unknown error".

Definition anthropicCatch (e : SdkError) : string :=
  if statusIs e 401 || messageIncludes e "invalid_api_key" then
    "Invalid Anthropic API key. Please check your API key and try again."
  else if statusIs e 429 || messageIncludes e "rate_limit" then
    "Anthropic API rate limit exceeded. Please wait a moment and try again."
  else "Anthropic API error: " ++ orElse (message e) "Unknown error".

Definition googleCatch (e : SdkError) : string :=
  if messageIncludes e "API_KEY_INVALID" || messageIncludes e "401" then
    "Invalid Google API key. Please check your API key and try again."
  else if messageIncludes e "429" || messageIncludes e "RESOURCE_EXHAUSTED" then
    "Google API rate limit exceeded. Please wait a moment and try again."
  else "Google API error: " ++ orElse (message e) "Unknown error".

Section Remote.

(** The vendors' endpoints.  [openaiChat] answers
    [client.chat.completions.create] with
    [response.choices[0]?.message?.content], [None] when there is none;
    [anthropicMessages] answers [client.messages.create] with the blocks
    of [response.content]; [googleGenerate] answers [generateContent]
    with [response.text()]. *)
Variable openaiChat : ChatRequest -> SdkError + option string.
Variable anthropicMessages : MessagesRequest -> SdkError + list ContentBlock.
Variable googleGenerate : GenerateRequest -> SdkError + string.

(** [client.analyzeImage(imageBase64, prompt, systemPrompt, model)]. *)
Definition analyzeImage (client : AIProviderClient)
           (imageBase64 prompt : string) (systemPrompt : option string)
           (model : string) : Result string :=
  match backend client with
  | OpenAI =>
      let system :=
        match systemPrompt with
        | Some s => if truthyString s then [SystemMessage s] else []
        | None => []
        end in
      let request :=
        {| chatModel :=
             orElse (Some model)
                    (orElse (AiProvider.visionModel (clientConfig client))
                            "gpt-4o");
           messages := (system ++ [UserMessage prompt imageBase64])%list;
           chatMaxTokens := 500;
           temperature := 0.3%float |} in
      match openaiChat request with
      | inl e => inl (openaiCatch e)
      | inr content => inr (orElse content "")
      end
  | Anthropic =>
      let request :=
        {| messagesModel :=
             orElse (Some model)
                    (orElse (AiProvider.visionModel (clientConfig client))
                            "claude-3-5-sonnet-20241022");
           max_tokens := 500;
           system := orElse systemPrompt
                            "You are an expert furniture analyst.";
           media_type := mediaType imageBase64;
           data := base64Data imageBase64;
           text := prompt |} in
      match anthropicMessages request with
      | inl e => inl (anthropicCatch e)
      | inr blocks =>
          inr (join "
"
                    (map blockText
                         (List.filter
                            (fun block => String.eqb (blockType block) "text")
                            blocks)))
      end
  | Google =>
      let request :=
        {| generativeModel :=
             orElse (Some model)
                    (orElse (AiProvider.visionModel (clientConfig client))
                            "gemini-1.5-pro");
           fullPrompt :=
             match systemPrompt with
             | Some s =>
                 if truthyString s then s ++ "

" ++ prompt else prompt
             | None => prompt
             end;
           inlineData := base64Data imageBase64;
           inlineMimeType := mimeType imageBase64 |} in
      match googleGenerate request with
      | inl e => inl (googleCatch e)
      | inr content => inr content
      end
  end.

End Remote.

End Vision.

(** ** routes/search.ts and middleware/errorHandler.ts *)

Module Route.
Import JS Cosine AiProvider EmbeddingCache SearchService.

(** A value of a parsed JSON body. *)
Inductive Json :=
| JNull
| JBool (b : bool)
| JNumber (x : float)
| JString (s : string)
| JArray (items : list Json)
| JObject (members : list (string * Json)).

(** [object[key]] on a parsed JSON object; of two members of the same
    name [JSON.parse] keeps the later one. *)
Fixpoint member (key : string) (members : list (string * Json))
  : option Json :=
  match members with
  | [] => None
  | (k, v) :: rest =>
      match member key rest with
      | Some later => Some later
      | None => if String.eqb k key then Some v else None
      end
  end.

(** [value.key]: [undefined] on arrays and primitives, a [TypeError] on
    [null]. *)
Definition property (value : Json) (key : string) : Result (option Json) :=
  match value with
  | JObject members => inr (member key members)
  | JNull =>
      inl ("Cannot read properties of null (reading '" ++ key ++ "')")
  | _ => inr None
  end.

(** [value?.key] for a [value] that may be [undefined]. *)
Definition optionalProperty (value : option Json) (key : string)
  : option Json :=
  match value with
  | Some (JObject members) => member key members
  | _ => None
  end.

Definition truthyJson (value : option Json) : bool :=
  match value with
  | None | Some JNull => false
  | Some (JBool b) => b
  | Some (JNumber x) => truthy x
  | Some (JString s) => truthyString s
  | Some (JArray _) | Some (JObject _) => true
  end.

(** [Number.isInteger]. *)
Definition isInteger (x : float) : bool :=
  match Prim2SF x with
  | S754_zero _ => true
  | S754_finite _ m e => (0 <=? e)%Z || (Z.pos m mod 2 ^ (- e) =? 0)%Z
  | _ => false
  end.

(** The integer an integer-valued number denotes. *)
Definition integerOf (x : float) : Z :=
  match Prim2SF x with
  | S754_finite s m e =>
      cond_Zopp s (if (0 <=? e)%Z then Z.pos m * 2 ^ e
                   else Z.pos m / 2 ^ (- e))
  | _ => 0%Z
  end.

(** [a || b] on values that may be [undefined]. *)
Definition orOption (a b : option string) : option string :=
  if truthyOpt a then a else b.

Record Request := {
  headers : gmap string string;
  body : Json
}.

(** [req.header(name)], for a lower-case [name]: the value, with repeated
    headers already joined. *)
Definition header (req : Request) (name : string) : option string :=
  headers req !! name.

(** A response: [res.json(results)], or [res.status(code).json({ error:
    { message } })]; the details a validation failure adds to the error
    are not modelled. *)
Inductive Response :=
| Success (out : SearchOutput)
| Failure (code : Z) (message : string).

(** What reaches the error handler: [err.status] when it is a number,
    and [err.message]. *)
Record Thrown := {
  thrownStatus : option Z;
  thrownMessage : option string
}.

(** [errorHandler]. *)
Definition errorHandler (err : Thrown) : Response :=
  Failure (defaultTo 500%Z (thrownStatus err))
          (defaultTo "Internal server error" (thrownMessage err)).

(** [new Error(message)] carries no status. *)
Definition error (message : string) : Thrown :=
  {| thrownStatus := None; thrownMessage := Some message |}.

(** *** The zod schema *)

Record ParsedBody := {
  parsedImage : string;
  parsedQueryText : option string;
  parsedConfig : option PartialConfig
}.

(** [schema.optional()]: an absent member passes as [undefined]. *)
Definition optional {A} (schema : Json -> option A) (value : option Json)
  : option (option A) :=
  match value with
  | None => Some None
  | Some v => option_map Some (schema v)
  end.

(** A member that must be there. *)
Definition required {A} (schema : Json -> option A) (value : option Json)
  : option A :=
  match value with
  | None => None
  | Some v => schema v
  end.

Definition zString (value : Json) : option string :=
  match value with JString s => Some s | _ => None end.

(** [z.string().min(1, ...)]. *)
Definition zStringMin1 (value : Json) : option string :=
  match value with
  | JString s => if (1 <=? String.length s)%nat then Some s else None
  | _ => None
  end.

Definition zBoolean (value : Json) : option bool :=
  match value with JBool b => Some b | _ => None end.

Section Host.

(** [z.number()] refuses [NaN]; it lets [Infinity] through in zod 3 and
    refuses it in zod 4. *)
Variable infinityIsNumber : bool.

(** [String(x)] on a number, a built-in of the host. *)
Variable numberToString : float -> string.

Definition zNumber (value : Json) : option float :=
  match value with
  | JNumber x =>
      if is_nan x then None
      else if is_infinity x && negb infinityIsNumber then None
      else Some x
  | _ => None
  end.

(** [z.number().min(lo)]. *)
Definition zNumberMin (lo : float) (value : Json) : option float :=
  match zNumber value with
  | Some x => if (lo <=? x)%float then Some x else None
  | None => None
  end.

(** [z.number().min(lo).max(hi)]. *)
Definition zNumberRange (lo hi : float) (value : Json) : option float :=
  match zNumber value with
  | Some x => if (lo <=? x)%float && (x <=? hi)%float then Some x else None
  | None => None
  end.

(** [z.number().int().min(lo).max(hi)]. *)
Definition zIntRange (lo hi : float) (value : Json) : option Z :=
  match zNumber value with
  | Some x =>
      if isInteger x && (lo <=? x)%float && (x <=? hi)%float
      then Some (integerOf x) else None
  | None => None
  end.

(** The [config] object of [searchSchema]; a member that fails its
    schema fails the object, and members the schema does not name are
    dropped. *)
Definition configSchema (value : Json) : option PartialConfig :=
  match value with
  | JObject members =>
      let field := fun name => member name members in
      maxCandidates ← optional (zIntRange 10 500) (field "maxCandidates");
      topK ← optional (zIntRange 1 50) (field "topK");
      minScore ← optional (zNumberRange 0 1) (field "minScore");
      imageWeight ← optional (zNumberRange 0 1) (field "imageWeight");
      textWeight ← optional (zNumberRange 0 1) (field "textWeight");
      priceProximityWeight ←
        optional (zNumberRange 0 1) (field "priceProximityWeight");
      priceRangeEnabled ← optional zBoolean (field "priceRangeEnabled");
      priceRangeMin ← optional (zNumberMin 0) (field "priceRangeMin");
      priceRangeMax ← optional (zNumberMin 0) (field "priceRangeMax");
      aiProvider ← optional zString (field "aiProvider");
      aiModel ← optional zString (field "aiModel");
      embeddingProvider ← optional zString (field "embeddingProvider");
      embeddingModel ← optional zString (field "embeddingModel");
      Some {| userMaxCandidates := maxCandidates;
              userTopK := topK;
              userMinScore := minScore;
              userImageWeight := imageWeight;
              userTextWeight := textWeight;
              userPriceProximityWeight := priceProximityWeight;
              userPriceRangeEnabled := priceRangeEnabled;
              userPriceRangeMin := priceRangeMin;
              userPriceRangeMax := priceRangeMax;
              userAiProvider := aiProvider;
              userAiModel := aiModel;
              userEmbeddingProvider := embeddingProvider;
              userEmbeddingModel := embeddingModel |}
  | _ => None
  end.

(** [searchSchema.safeParse(req.body)]: the data, or [None] for a
    failure. *)
Definition safeParse (value : Json) : option ParsedBody :=
  match value with
  | JObject members =>
      imageBase64 ← required zStringMin1 (member "imageBase64" members);
      queryText ← optional zString (member "queryText" members);
      config ← optional configSchema (member "config" members);
      Some {| parsedImage := imageBase64;
              parsedQueryText := queryText;
              parsedConfig := config |}
  | _ => None
  end.

(** *** The handler *)

(** [String(value)], as a template literal interpolates a value.  An
    array prints its items joined by commas, [null] as the empty string.
    An object prints through [Object.prototype.toString], unless it has a
    member [toString] of its own: no JSON value is callable, [valueOf]
    yields no primitive either, and the conversion throws a
    [TypeError]. *)
Fixpoint toText (value : Json) : Result string :=
  match value with
  | JNull => inr "null"
  | JBool b => inr (if b then "true" else "false")
  | JNumber x => inr (numberToString x)
  | JString s => inr s
  | JArray items =>
      match mapResult (fun item => match item with
                                   | JNull => inr ""
                                   | _ => toText item
                                   end) items with
      | inl typeError => inl typeError
      | inr parts => inr (join "," parts)
      end
  | JObject members =>
      match member "toString" members with
      | Some _ => inl "Cannot convert object to primitive value"
      | None => inr "[object Object]"
      end
  end.

(** [req.body.config?.aiProvider || "openai"]. *)
Definition providerOf (value : Json) : Result Json :=
  match property value "config" with
  | inl typeError => inl typeError
  | inr config =>
      inr (match optionalProperty config "aiProvider" with
           | Some aiProvider =>
               if truthyJson (Some aiProvider) then aiProvider
               else JString "openai"
           | None => JString "openai"
           end)
  end.

(** [provider === name]. *)
Definition isProvider (provider : Json) (name : string) : bool :=
  match provider with
  | JString s => String.eqb s name
  | _ => false
  end.

(** [visionApiKey] and [embeddingApiKey] as the [if] chain over the
    provider leaves them. *)
Definition keysOf (req : Request) (provider : Json)
  : option string * option string :=
  if isProvider provider "openai" then
    let visionApiKey := header req "x-openai-api-key" in
    (visionApiKey, orOption (header req "x-embedding-api-key") visionApiKey)
  else if isProvider provider "anthropic" then
    (header req "x-anthropic-api-key",
     orOption (header req "x-embedding-api-key")
              (header req "x-openai-api-key"))
  else if isProvider provider "google" then
    let visionApiKey := header req "x-google-api-key" in
    (visionApiKey, orOption (header req "x-embedding-api-key") visionApiKey)
  else (None, None).

Variable toFixed : float -> nat -> string.
Variable openaiEmbeddings :
  list Call -> string -> list string -> SdkError + list (option EmbeddingVector).
Variable googleEmbedContent :
  list Call -> string -> nat -> string -> SdkError + option EmbeddingVector.
Variable analyzeImage :
  AIProviderClient -> string -> string -> option string -> string -> Result string.

(** The input the handler hands to [performSearch]; the vision key is a
    non-empty string by then. *)
Definition searchInput (parsed : ParsedBody)
           (visionApiKey embeddingApiKey : option string)
  : PerformSearchInput :=
  {| visionApiKey := defaultTo "" visionApiKey;
     embeddingApiKey := embeddingApiKey;
     imageBase64 := parsedImage parsed;
     queryText := parsedQueryText parsed;
     config := parsedConfig parsed |}.

(** The message of the first refusal; the template literal throws when
    the provider cannot be printed. *)
Definition missingKey (provider : Json) : Result string :=
  match toText provider with
  | inl typeError => inl typeError
  | inr name =>
      inr ("Missing " ++ name ++ " API key. Please provide x-" ++ name
           ++ "-api-key header.")
  end.

(** [searchRouter.post("/", ...)] followed, when it calls [next(err)], by
    the error handler; [fetched] is what [fetchAllProducts] returns. *)
Definition post (req : Request) (fetched : list Product) (w : World)
  : World * Response :=
  match providerOf (body req) with
  | inl typeError => (w, errorHandler (error typeError))
  | inr provider =>
      let '(visionApiKey, embeddingApiKey) := keysOf req provider in
      if negb (truthyOpt visionApiKey) then
        match missingKey provider with
        | inl typeError => (w, errorHandler (error typeError))
        | inr message => (w, Failure 400 message)
        end
      else if isProvider provider "anthropic"
              && negb (truthyOpt embeddingApiKey) then
        (w, Failure 400
              "Anthropic doesn't support embeddings. Please provide x-openai-api-key or x-embedding-api-key for embeddings.")
      else
        match safeParse (body req) with
        | None => (w, Failure 400 "Invalid request")
        | Some parsed =>
            let embeddingApiKey :=
              if negb (truthyOpt embeddingApiKey)
                 && negb (isProvider provider "anthropic")
              then visionApiKey else embeddingApiKey in
            if negb (truthyOpt embeddingApiKey) then
              (w, Failure 400
                    "Missing embedding API key. Please provide x-embedding-api-key or x-openai-api-key header.")
            else
              match performSearch toFixed openaiEmbeddings googleEmbedContent
                                  analyzeImage
                                  (searchInput parsed visionApiKey
                                               embeddingApiKey)
                                  fetched w with
              | (w', inr out) => (w', Success out)
              | (w', inl message) => (w', errorHandler (error message))
              end
        end
  end.

End Host.

End Route.

(** ** frontend: api/searchApi.ts and state/SearchHistoryContext.tsx *)

Module Frontend.
Import JS AiProvider SearchService.

(** [ApiKeys]: each key may be missing. *)
Record ApiKeys := {
  openai : option string;
  anthropic : option string;
  google : option string;
  embedding : option string
}.

(** The [headers] object [searchApi.search] builds for a request whose
    configuration names [aiProvider]. *)
Definition searchHeaders (aiProvider : string) (apiKeys : ApiKeys)
  : gmap string string :=
  let provider := orElse (Some aiProvider) "openai" in
  let headers : gmap string string :=
    {[ "Content-Type" := "application/json" ]} in
  let headers :=
    if String.eqb provider "openai" && truthyOpt (openai apiKeys)
    then <["x-openai-api-key" := defaultTo "" (openai apiKeys)]> headers
    else if String.eqb provider "anthropic" && truthyOpt (anthropic apiKeys)
    then <["x-anthropic-api-key" := defaultTo "" (anthropic apiKeys)]> headers
    else if String.eqb provider "google" && truthyOpt (google apiKeys)
    then <["x-google-api-key" := defaultTo "" (google apiKeys)]> headers
    else headers in
  if truthyOpt (embedding apiKeys)
  then <["x-embedding-api-key" := defaultTo "" (embedding apiKeys)]> headers
  else if String.eqb provider "anthropic" && truthyOpt (openai apiKeys)
  then <["x-openai-api-key" := defaultTo "" (openai apiKeys)]> headers
  else headers.

(** [Omit<SearchHistoryItem, "id" | "timestamp">]. *)
Record NewHistoryItem := {
  newQueryText : option string;
  newImagePreview : option string;
  newImageBase64 : option string;
  newResults : list ScoredProduct;
  newResultsCount : nat;
  newIsFurniture : option bool;
  newRejectionReason : option string
}.

Record SearchHistoryItem := {
  id : string;
  queryText : option string;
  imagePreview : option string;
  imageBase64 : option string;
  results : list ScoredProduct;
  resultsCount : nat;
  isFurniture : option bool;
  rejectionReason : option string;
  timestamp : float
}.

(** The state update of [addHistory]; [uuid] and [now] are what
    [crypto.randomUUID()] and [Date.now()] return. *)
Definition addHistory (uuid : string) (now : float) (item : NewHistoryItem)
           (prev : list SearchHistoryItem) : list SearchHistoryItem :=
  {| id := uuid;
     queryText := newQueryText item;
     imagePreview := newImagePreview item;
     imageBase64 := newImageBase64 item;
     results := newResults item;
     resultsCount := newResultsCount item;
     isFurniture := newIsFurniture item;
     rejectionReason := newRejectionReason item;
     timestamp := now |} :: slice0 prev 9.

Definition clearHistory (prev : list SearchHistoryItem)
  : list SearchHistoryItem := [].

(** What a user does to the history. *)
Inductive HistoryAction :=
| Add (uuid : string) (now : float) (item : NewHistoryItem)
| Clear.

Definition step (history : list SearchHistoryItem) (action : HistoryAction)
  : list SearchHistoryItem :=
  match action with
  | Add uuid now item => addHistory uuid now item history
  | Clear => clearHistory history
  end.

End Frontend.

(** * Specification vocabulary *)

Import JS Cosine AiProvider EmbeddingCache Regex SearchService.

(** [c] is an ASCII character. *)
Definition asciiChar (c : ascii) : bool := (nat_of_ascii c <? 128)%nat.

(** [s] is ASCII text.  On ASCII text the case folding of [toLowerCase]
    and of the [i] flag, and the white space of [trim] and [\s], are the
    ones [JS] and [Regex] define; a property that reads case or white
    space off a text takes that text to be ASCII. *)
Fixpoint asciiText (s : string) : bool :=
  match s with
  | EmptyString => true
  | String c r => asciiChar c && asciiText r
  end.

(** An optional text that is ASCII when it is there. *)
Definition asciiOption (s : option string) : bool :=
  match s with
  | Some t => asciiText t
  | None => true
  end.

(** The four texts of a product are ASCII. *)
Definition asciiProduct (p : Product) : bool :=
  asciiText (title p) && asciiText (category p) && asciiText (type p)
  && asciiText (description p).


(** The dot product of two vectors over the positions both have. *)
Definition dotPrefix (a b : EmbeddingVector) : float :=
  fold_left (fun acc xy => (acc + fst xy * snd xy)%float) (combine a b) 0%float.

(** The squared magnitude of the first [n] components of a vector. *)
Definition squaredNorm (n : nat) (a : EmbeddingVector) : float :=
  fold_left (fun acc x => (acc + x * x)%float) (firstn n a) 0%float.

(** [sub] occurs in [s] as a contiguous substring. *)
Definition substring (sub s : string) : Prop :=
  exists pre post, s = pre ++ sub ++ post.

(** [term] or its singular occurs in the type, the title or the
    description of a product (all three as the scorer normalises them). *)
Definition synonymHit (productType productTitle productDesc term : string) : Prop :=
  substring term productType \/ substring (stripTrailingS term) productType
  \/ substring term productTitle \/ substring (stripTrailingS term) productTitle
  \/ substring term productDesc \/ substring (stripTrailingS term) productDesc.

(** The type ladder in the words of the specification: equality of the
    type fields, then a substring either way between them, then the query
    type in the title or the description, then the synonym table with a
    trailing [s] stripped on both sides of the comparison. *)
Definition typeMatchBySpec (queryType : string) (p : Product) : float :=
  let synonyms :=
    match similarTypes (stripTrailingS queryType) with
    | Own terms => terms
    | _ => []
    end in
  if String.eqb (type p) queryType then 1%float
  else if includes (type p) queryType || includes queryType (type p)
  then 0.8%float
  else if includes (title p) queryType || includes (description p) queryType
  then 0.6%float
  else if existsb (fun term => String.eqb (stripTrailingS term)
                                          (stripTrailingS (type p)))
                  synonyms
  then 0.4%float
  else 0%float.

(** The order of binary64 numbers.  [emin64] is the least exponent of a
    finite number; [aligned s m e ez] is the integer that the finite number
    of sign [s], mantissa [m] and exponent [e] denotes in units of [2^ez];
    [floatKey] maps the numbers to triples whose lexicographic order is the
    order [SFcompare] decides. *)
Definition emin64 : Z := SpecFloat.emin prec emax.

Definition aligned (s : bool) (m : positive) (e ez : Z) : Z :=
  cond_Zopp s (Z.pos (fst (shl_align m e ez))).

Definition signOf (s : bool) : comparison := if s then Lt else Gt.

Definition floatKey (x : spec_float) : Z * Z * Z :=
  match x with
  | S754_infinity true => (-2, 0, 0)%Z
  | S754_finite true m e => (-1, - e, - Z.pos m)%Z
  | S754_zero _ => (0, 0, 0)%Z
  | S754_nan => (0, 0, 0)%Z
  | S754_finite false m e => (1, e, Z.pos m)%Z
  | S754_infinity false => (2, 0, 0)%Z
  end.

Definition lex3 (k k' : Z * Z * Z) : comparison :=
  let '(a, b, c) := k in
  let '(a', b', c') := k' in
  match (a ?= a')%Z with
  | Eq => match (b ?= b')%Z with Eq => (c ?= c')%Z | r => r end
  | r => r
  end.

Definition le3 (k k' : Z * Z * Z) : Prop :=
  let '(a, b, c) := k in
  let '(a', b', c') := k' in
  (a < a' \/ (a = a' /\ (b < b' \/ (b = b' /\ c <= c'))))%Z.

(** A number is comparable when it is not [NaN]. *)
Definition comparable (x : float) : Prop := (x <=? x)%float = true.

(** [u] may stand before [v] in a list sorted by descending score. *)
Definition descending (u v : ScoredProduct) : Prop :=
  (score v <=? score u)%float = true.

(** The candidate set of a request: the head of the price-filtered
    catalog. *)
Definition candidatesOf (cfg : SearchConfig) (fetched : list Product)
  : list Product :=
  slice0 (priceRangeFilter cfg fetched) (maxCandidates cfg).

(** The embedding cache.  [hasText p] holds when the joined text of [p]
    is not blank, so that [p] is sent for embedding; [chunksFrom] cuts a
    list into consecutive batches of [n] items; [batchesOf] are the batches
    the loop of [getProductEmbeddings] visits. *)
Definition hasText (p : Product) : bool :=
  (0 <? String.length (trim (productText p)))%nat.

Fixpoint chunksFrom {A} (fuel n : nat) (l : list A) : list (list A) :=
  match fuel with
  | O => []
  | S fuel' =>
      match l with
      | [] => []
      | _ :: _ => firstn n l :: chunksFrom fuel' n (skipn n l)
      end
  end.

Definition batchesOf (missingProducts : list Product) : list (list Product) :=
  chunksFrom (length missingProducts) BATCH_SIZE missingProducts.

(** The products of [products] that [getProductEmbeddings] finds missing
    from the cache of [w]. *)
Definition missingFrom (w : World) (products : list Product) : list Product :=
  List.filter (fun p => negb (bool_decide (is_Some (cache w !! _id p))))
              products.

(** The body of the batch loop, over an explicit list of batches. *)
Fixpoint processBatches
         (openaiEmbeddings :
            list Call -> string -> list string
            -> SdkError + list (option EmbeddingVector))
         (googleEmbedContent :
            list Call -> string -> nat -> string
            -> SdkError + option EmbeddingVector)
         (client : AIProviderClient) (provider : string)
         (model : option string) (batches : list (list Product)) (w : World)
  : World * Result unit :=
  match batches with
  | [] => (w, inr tt)
  | batch :: rest =>
      let valid := validFrom 0 (map productText batch) in
      if (length (map snd valid) =? 0)%nat then
        processBatches openaiEmbeddings googleEmbedContent client provider
                       model rest w
      else
        let '(log, r) :=
          createEmbeddings openaiEmbeddings googleEmbedContent client
                           (map snd valid) model (calls w) in
        match r with
        | inl msg =>
            ({| cache := cache w; calls := log |}, inl (rethrow provider msg))
        | inr embeddings =>
            processBatches openaiEmbeddings googleEmbedContent client provider
                           model rest
                           {| cache := storeBatch batch embeddings
                                                  (map fst valid) (cache w);
                              calls := log |}
        end
  end.

(** Remote services that, when they answer, answer with one vector for
    every text. *)
Definition Answering
           (openaiEmbeddings :
              list Call -> string -> list string
              -> SdkError + list (option EmbeddingVector))
           (googleEmbedContent :
              list Call -> string -> nat -> string
              -> SdkError + option EmbeddingVector) : Prop :=
  (forall log model texts data,
      openaiEmbeddings log model texts = inr data ->
      length data = length texts /\ Forall (fun v => v <> None) data)
  /\ (forall log model i text v,
         googleEmbedContent log model i text = inr v -> v <> None).

(** The number of batches that hold at least one product with text: the
    batches for which a request is sent. *)
Definition liveBatches (batches : list (list Product)) : nat :=
  length (List.filter (existsb hasText) batches).

(** [validTexts] and [validIndices] of a batch. *)
Definition validTexts (batch : list Product) : list string :=
  map snd (validFrom 0 (map productText batch)).

Definition validIndices (batch : list Product) : list nat :=
  map fst (validFrom 0 (map productText batch)).

(** The price signal in the words of the specification; the mean is
    taken over the items handed in. *)
Definition priceBySpec (targetPrice : option float) (items : list Product)
           (p : Product) : float :=
  match targetPrice with
  | Some target =>
      (1 - Math_min (Math_abs (price p - target) / Math_max (price p) target) 1)%float
  | None =>
      let mean := averagePrice items in
      (1 - Math_min (Math_abs (price p - mean) / mean) 0.5)%float
  end.


(** The rungs of the type ladder for the query type [ty] and the product
    [p]: both types lower-cased and trimmed, title and description
    lower-cased, "singular" meaning one trailing [s] stripped. *)
Definition exactRung (ty : string) (p : Product) : Prop :=
  let q := trim (toLowerCase ty) in
  let t := trim (toLowerCase (type p)) in
  t = q \/ stripTrailingS t = q \/ t = stripTrailingS q.

Definition partialRung (ty : string) (p : Product) : Prop :=
  let q := trim (toLowerCase ty) in
  let qs := stripTrailingS q in
  let t := trim (toLowerCase (type p)) in
  substring q t \/ substring t q \/ substring qs t \/ substring t qs.

Definition textRung (ty : string) (p : Product) : Prop :=
  let q := trim (toLowerCase ty) in
  let qs := stripTrailingS q in
  let ti := toLowerCase (title p) in
  let de := toLowerCase (description p) in
  substring q ti \/ substring qs ti \/ substring q de \/ substring qs de.

Definition synonymRung (p : Product) (terms : list string) : Prop :=
  exists term,
    In term terms
    /\ synonymHit (trim (toLowerCase (type p))) (toLowerCase (title p))
                  (toLowerCase (description p)) term.

(** The requests a call adds to the log, all addressed to [provider]. *)
Definition AddressedTo (provider : string) (w w' : World) : Prop :=
  exists new, calls w' = (calls w ++ new)%list
              /\ Forall (fun c => providerName (callProvider c) = provider) new.

(** * Sample data *)

Module Sample.

Definition item (id ty ti de : string) (pr : float) : Product :=
  {| _id := id; title := ti; description := de; category := "seating";
     type := ty; price := pr; width := 40; height := 45; depth := 40 |}.

Definition chair : Product := item "p1" "chair" "Oak seat" "Solid oak" 120.
Definition stool : Product := item "p2" "stool" "Oak three-legged" "Solid oak" 60.
Definition benchHeightStool : Product :=
  item "p3" "stool" "Bench-height oak" "Solid oak" 80.
Definition footstool : Product := item "p4" "footstool" "Velvet" "Soft" 45.

(** A host [toFixed]: the nearest multiple of [10^-d], ties upwards, with
    exactly [d] decimals.  (For magnitudes of [1e21] and more a JavaScript
    host switches to exponent notation; this one keeps printing digits.) *)
Fixpoint decimal (fuel : nat) (n : Z) (acc : string) : string :=
  match fuel with
  | O => acc
  | S fuel' =>
      let acc' := String (ascii_of_nat (48 + Z.to_nat (n mod 10))) acc in
      if (n <? 10)%Z then acc' else decimal fuel' (n / 10) acc'
  end.

Fixpoint zeros (k : nat) : string :=
  match k with
  | O => EmptyString
  | S k' => String "0" (zeros k')
  end.

Definition render (negative : bool) (n : Z) (d : nat) : string :=
  let digits := decimal (S (Z.to_nat (Z.log2 n))) n EmptyString in
  let padded := zeros (S d - String.length digits) ++ digits in
  let whole := String.length padded - d in
  (if negative then "-" else "")
  ++ String.substring 0 whole padded
  ++ (if (d =? 0)%nat then "" else "." ++ String.substring whole d padded).

Definition toFixed (x : float) (d : nat) : string :=
  match Prim2SF x with
  | S754_nan => "NaN"
  | S754_infinity negative => if negative then "-Infinity" else "Infinity"
  | S754_zero _ => render false 0 d
  | S754_finite negative m e =>
      let num := (Z.pos m * 10 ^ Z.of_nat d * 2 ^ Z.max e 0)%Z in
      let den := (2 ^ Z.max (- e) 0)%Z in
      render negative ((2 * num + den) / (2 * den))%Z d
  end.

(** Remote services that always answer: every text embeds to [[1, 0]]
    (OpenAI) or [[0, 1]] (Google); the first vision call classifies the
    image as a bench, the second describes it. *)
Definition openai (log : list Call) (model : string) (texts : list string)
  : SdkError + list (option EmbeddingVector) :=
  inr (map (fun _ => Some [1; 0]%float) texts).

Definition google (log : list Call) (model : string) (i : nat) (text : string)
  : SdkError + option EmbeddingVector :=
  inr (Some [0; 1]%float).

Definition vision (client : AIProviderClient) (image prompt : string)
           (systemPrompt : option string) (model : string) : Result string :=
  match systemPrompt with
  | None => inr "FURNITURE
Category: seating
Type: bench
Description: a long oak bench"
  | Some _ => inr "A long bench in solid oak with three legs"
  end.

Definition emptyWorld : World := {| cache := ∅; calls := [] |}.

Definition userConfig : PartialConfig :=
  {| userMaxCandidates := None; userTopK := None; userMinScore := None;
     userImageWeight := None; userTextWeight := None;
     userPriceProximityWeight := None; userPriceRangeEnabled := None;
     userPriceRangeMin := None; userPriceRangeMax := None;
     userAiProvider := None; userAiModel := None;
     userEmbeddingProvider := None; userEmbeddingModel := None |}.

Definition request (cfg : PartialConfig) (text : option string)
  : PerformSearchInput :=
  {| visionApiKey := "sk-sample"; embeddingApiKey := None;
     imageBase64 := "data:image/png;base64,AAAA"; queryText := text;
     config := Some cfg |}.

Definition catalog : list Product := [chair; stool; benchHeightStool; footstool].

Definition configWith (cap : option Z) (priceWeight : option float)
           (embedder : option string) : PartialConfig :=
  {| userMaxCandidates := cap; userTopK := None; userMinScore := None;
     userImageWeight := None; userTextWeight := None;
     userPriceProximityWeight := priceWeight; userPriceRangeEnabled := None;
     userPriceRangeMin := None; userPriceRangeMax := None;
     userAiProvider := None; userAiModel := None;
     userEmbeddingProvider := embedder; userEmbeddingModel := None |}.

(** An item whose joined text is blank, and a world that already holds a
    vector under its identifier. *)
Definition blank : Product :=
  {| _id := "p9"; title := ""; description := " "; category := "";
     type := ""; price := 10; width := 1; height := 1; depth := 1 |}.

Definition staleWorld : World :=
  {| cache := {[ "p9" := [1; 0]%float ]}; calls := [] |}.

(** An OpenAI endpoint that throttles the second request it receives. *)
Definition throttled (log : list Call) (model : string) (texts : list string)
  : SdkError + list (option EmbeddingVector) :=
  if (length log =? 1)%nat
  then inl {| status := Some 429%Z; message := Some "slow down" |}
  else inr (map (fun _ => Some [1; 0]%float) texts).

Definition succeeded {A} (r : World * Result A) : bool :=
  match snd r with inr _ => true | inl _ => false end.


(** The search succeeded and took the image for furniture. *)
Definition ranked (r : World * Result SearchOutput) : bool :=
  match snd r with
  | inr out => isFurniture out
  | inl _ => false
  end.


(** A catalog of 250 benches [b0] ... [b249]. *)
Definition bigCatalog : list Product :=
  map (fun i => item ("b" ++ decimal 3 (Z.of_nat i) EmptyString)
                     "bench" "Oak bench" "Solid oak" 100)
      (seq 0 250).

End Sample.

(** * Vocabulary and sample data of the further properties *)

(** A JSON body as [express.json] hands it to a route: an object or an
    array. *)
Definition jsonContainer (value : Route.Json) : bool :=
  match value with
  | Route.JObject _ | Route.JArray _ => true
  | _ => false
  end.

(** A line feed, as a string. *)
Definition newline : string := String "010" EmptyString.

(** [s] holds no line feed. *)
Fixpoint singleLine (s : string) : bool :=
  match s with
  | EmptyString => true
  | String c r => negb (isNewline c) && singleLine r
  end.

(** [s] holds white space only. *)
Fixpoint isBlank (s : string) : bool :=
  match s with
  | EmptyString => true
  | String c r => isSpace c && isBlank r
  end.

(** [s] is empty or starts a new line. *)
Definition lineEnd (s : string) : bool :=
  match s with
  | EmptyString => true
  | String c _ => isNewline c
  end.

(** A response of the vision model in the format the analysis prompt
    requests; [tail] holds the lines after the type. *)
Definition structuredAnswer (categoryLine typeLine tail : string) : string :=
  "FURNITURE" ++ newline ++ "Category:" ++ categoryLine ++ newline
  ++ "Type:" ++ typeLine ++ tail.

(** [s] is made of lower-case letters and digits. *)
Fixpoint alphanumeric (s : string) : bool :=
  match s with
  | EmptyString => true
  | String c r => (isLower c || isDigit c) && alphanumeric r
  end.

(** A token: a non-empty run of lower-case letters and digits. *)
Definition isToken (t : string) : bool := negb (isEmpty t) && alphanumeric t.

(** [s] is made of decimal digits. *)
Fixpoint allDigits (s : string) : bool :=
  match s with
  | EmptyString => true
  | String c r => isDigit c && allDigits r
  end.

(** Storing one response under the identifier of the product it answers. *)
Definition storeResponse (c : gmap string EmbeddingVector)
           (pe : Product * EmbeddingResponse) : gmap string EmbeddingVector :=
  match embedding (snd pe) with
  | Some v => <[_id (fst pe) := v]> c
  | None => c
  end.

(** The model a client names in a request: the argument, else the
    default of the vendor. *)
Definition requestedModel (model : option string) (vendorDefault : string)
  : string :=
  orElse model vendorDefault.

(** The vector [createQueryEmbedding] makes of a response. *)
Definition firstVector (data : list (option EmbeddingVector)) : EmbeddingVector :=
  match data with
  | Some e :: _ => e
  | _ => []
  end.

(** The errors the services raise for a refused key and for a rate
    limit. *)
Definition invalidKeyMessage (provider : string) : string :=
  "Invalid " ++ provider ++ " API key. Please check your API key and try again.".

Definition rateLimitMessage (provider : string) : string :=
  provider ++ " API rate limit exceeded. Please wait a moment and try again.".

(** [s] holds no comma. *)
Definition noComma (s : string) : bool := negb (includes s ",").

(** The chat request of the first vision call of a search. *)
Definition analysisRequest (input : PerformSearchInput) : Vision.ChatRequest :=
  {| Vision.chatModel := resolveVisionModel (mergeConfig (config input));
     Vision.messages := [Vision.UserMessage analysisPrompt (imageBase64 input)];
     Vision.chatMaxTokens := 500;
     Vision.temperature := 0.3%float |}.

Definition invalidImageMessage : string :=
  "Invalid image format. Please upload a valid image file.".

(** What is left of the SDK's message once no key or rate-limit pattern
    applied. *)
Definition passedOn (imageCheck : bool) (provider vendorPrefix : string)
           (e : SdkError) : string :=
  let m := orElse (message e) "Unknown error" in
  if includes m "Invalid" && includes m "API key"
  then invalidKeyMessage provider
  else if includes m "rate limit" then rateLimitMessage provider
  else if imageCheck && includes m "image" then invalidImageMessage
  else vendorPrefix ++ m.

(** The value of a finite number in units of [2^emin]. *)
Definition scaled (x : spec_float) : Z :=
  match x with
  | S754_finite s m e => cond_Zopp s (Z.pos m * 2 ^ (e - emin64))%Z
  | _ => 0%Z
  end.

(** [x] is a zero or a finite number. *)
Definition finiteNumber (x : spec_float) : bool :=
  match x with
  | S754_zero _ | S754_finite _ _ _ => true
  | _ => false
  end.

(** [r] scores neither above nor below [v]. *)
Definition tied (v : float) (r : ScoredProduct) : bool :=
  (v <=? score r)%float && (score r <=? v)%float.

(** The scored candidates that pass the threshold, in catalog order. *)
Definition passing (cfg : SearchConfig) (scored : list ScoredProduct)
  : list ScoredProduct :=
  List.filter (fun s => (minScore cfg <=? score s)%float) scored.

Module SampleSearch.
(** A vision service that takes the image for something else. *)
Definition visionNo (client : AIProviderClient) (image prompt : string)
           (systemPrompt : option string) (model : string) : Result string :=
  inr "NOT_FURNITURE: a cat on a sofa cushion  ".

(** A request that restricts the catalog to prices from 50 to 100. *)
Definition pricedConfig : PartialConfig :=
  {| userMaxCandidates := None; userTopK := None; userMinScore := None;
     userImageWeight := None; userTextWeight := None;
     userPriceProximityWeight := None; userPriceRangeEnabled := Some true;
     userPriceRangeMin := Some 50%float; userPriceRangeMax := Some 100%float;
     userAiProvider := None; userAiModel := None;
     userEmbeddingProvider := None; userEmbeddingModel := None |}.

Definition providerConfig (vision : string) : PartialConfig :=
  {| userMaxCandidates := None; userTopK := None; userMinScore := None;
     userImageWeight := None; userTextWeight := None;
     userPriceProximityWeight := None; userPriceRangeEnabled := None;
     userPriceRangeMin := None; userPriceRangeMax := None;
     userAiProvider := Some vision; userAiModel := None;
     userEmbeddingProvider := None; userEmbeddingModel := None |}.
End SampleSearch.

Module SampleVision.
(** An OpenAI chat endpoint that rejects the key, and one that answers
    without content. *)
Definition rejecting (request : Vision.ChatRequest) : SdkError + option string :=
  inl {| status := Some 401%Z; message := Some "Incorrect key provided" |}.

Definition silent (request : Vision.ChatRequest) : SdkError + option string :=
  inr None.

Definition noBlocks (request : Vision.MessagesRequest)
  : SdkError + list Vision.ContentBlock := inr [].

Definition noText (request : Vision.GenerateRequest) : SdkError + string :=
  inr "".

(** An OpenAI chat endpoint that takes the image for a bench and, asked
    with a system message, describes it. *)
Definition answering (request : Vision.ChatRequest) : SdkError + option string :=
  match Vision.messages request with
  | Vision.SystemMessage _ :: _ =>
      inr (Some "A long bench in solid oak with three legs")
  | _ => inr (Some "FURNITURE
Category: seating
Type: bench
Description: a long oak bench")
  end.
End SampleVision.

Module SampleRoute.
Import Route.

(** A host whose [String(x)] prints the nearest whole number. *)
Definition numberToString (x : float) : string := Sample.toFixed x 0.

Definition searchBody (provider : Json) : Json :=
  JObject [("imageBase64", JString "data:image/png;base64,AAAA");
           ("queryText", JString "around $100");
           ("config", JObject [("topK", JNumber 3);
                               ("aiProvider", provider)])].

Definition openaiHeaders : gmap string string :=
  {[ "x-openai-api-key" := "sk-sample" ]}.

Definition openaiRequest : Request :=
  {| headers := openaiHeaders; body := searchBody (JString "openai") |}.

Definition post (req : Request) : World * Response :=
  Route.post true numberToString Sample.toFixed Sample.openai Sample.google
             Sample.vision req Sample.catalog Sample.emptyWorld.

Definition answered (r : World * Response) : bool :=
  match snd r with Success _ => true | Failure _ _ => false end.

End SampleRoute.

Module SampleRanking.
(** Three scored candidates, in catalog order. *)
Definition scoredTrio : list ScoredProduct :=
  [ {| product := Sample.chair; score := 0.2%float; explanation := "" |};
    {| product := Sample.stool; score := 0.9%float; explanation := "" |};
    {| product := Sample.footstool; score := 0.5%float; explanation := "" |} ].
End SampleRanking.

Module SampleClient.
(** A user who keeps the OpenAI key only. *)
Definition openaiOnly : Frontend.ApiKeys :=
  {| Frontend.openai := Some "sk-sample"; Frontend.anthropic := None;
     Frontend.google := None; Frontend.embedding := None |}.

Definition clientRequest : Route.Request :=
  {| Route.headers := Frontend.searchHeaders "openai" openaiOnly;
     Route.body := SampleRoute.searchBody (Route.JString "openai") |}.
End SampleClient.

(** * Properties *)

(** ** The order of binary64 numbers *)

Section Binary64Order.

Local Open Scope Z_scope.

Lemma digits_bounds (m : positive) :
  2 ^ (Z.pos (digits2_pos m) - 1) <= Z.pos m < 2 ^ Z.pos (digits2_pos m).
Proof.
  induction m as [m IH | m IH |]; simpl digits2_pos.
  - rewrite Pos2Z.inj_succ.
    replace (Z.succ (Z.pos (digits2_pos m)) - 1)
      with (Z.succ (Z.pos (digits2_pos m) - 1)) by lia.
    rewrite !Z.pow_succ_r by lia. lia.
  - rewrite Pos2Z.inj_succ.
    replace (Z.succ (Z.pos (digits2_pos m)) - 1)
      with (Z.succ (Z.pos (digits2_pos m) - 1)) by lia.
    rewrite !Z.pow_succ_r by lia. lia.
  - simpl. lia.
Qed.

Lemma iter_xO (m d : positive) :
  Z.pos (Pos.iter xO m d) = Z.pos m * 2 ^ Z.pos d.
Proof.
  induction d as [|d IH] using Pos.peano_ind.
  - simpl. lia.
  - rewrite Pos.iter_succ, Pos2Z.inj_succ, Z.pow_succ_r by lia.
    rewrite Pos2Z.inj_xO, IH. lia.
Qed.

Lemma shl_align_spec (m : positive) (e e' : Z) :
  e' <= e ->
  Z.pos (fst (shl_align m e e')) = Z.pos m * 2 ^ (e - e').
Proof.
  intros H. unfold shl_align.
  destruct (e' - e) as [|d|d] eqn:E; try lia.
  - replace (e - e') with 0 by lia. simpl. lia.
  - simpl fst. rewrite iter_xO. f_equal. f_equal. lia.
Qed.

Lemma shl_align_exp (m : positive) (e e' : Z) :
  emin64 <= e -> emin64 <= e' -> emin64 <= snd (shl_align m e e').
Proof.
  intros H H'. unfold shl_align. destruct (e' - e); simpl; assumption.
Qed.

(** Shifting right. *)
Lemma shr_1_m (mrs : shr_record) :
  0 <= shr_m mrs -> shr_m (shr_1 mrs) = shr_m mrs / 2.
Proof.
  destruct mrs as [m r s]. simpl. intros H.
  destruct m as [|[p|p|]|p]; cbn [shr_m shr_1]; try lia.
  - reflexivity.
  - apply Z.div_unique with 1; lia.
  - apply Z.div_unique with 0; lia.
  - reflexivity.
Qed.

Lemma pow2_xO (n : positive) : 2 ^ Z.pos n~0 = 2 ^ Z.pos n * 2 ^ Z.pos n.
Proof. rewrite <- Z.pow_add_r by lia. f_equal. lia. Qed.

Lemma pow2_xI (n : positive) : 2 ^ Z.pos n~1 = 2 * (2 ^ Z.pos n * 2 ^ Z.pos n).
Proof.
  rewrite <- Z.pow_add_r, <- Z.pow_succ_r by lia. f_equal. lia.
Qed.

Lemma iter_shr_m (n : positive) (mrs : shr_record) :
  0 <= shr_m mrs ->
  shr_m (SpecFloat.iter_pos shr_1 n mrs) = shr_m mrs / 2 ^ Z.pos n.
Proof.
  revert mrs. induction n as [n IH | n IH |]; intros mrs H; simpl SpecFloat.iter_pos.
  - assert (0 <= shr_m (shr_1 mrs)) as H1
        by (rewrite shr_1_m by assumption; apply Z.div_pos; lia).
    assert (0 <= shr_m (SpecFloat.iter_pos shr_1 n (shr_1 mrs))) as H2
        by (rewrite IH by assumption; apply Z.div_pos; lia).
    rewrite IH, IH, shr_1_m by assumption.
    rewrite pow2_xI, !Z.div_div by lia. reflexivity.
  - assert (0 <= shr_m (SpecFloat.iter_pos shr_1 n mrs)) as H2
        by (rewrite IH by assumption; apply Z.div_pos; lia).
    rewrite IH, IH by assumption.
    rewrite pow2_xO, !Z.div_div by lia. reflexivity.
  - rewrite shr_1_m by assumption. reflexivity.
Qed.

Lemma shr_record_of_loc_m (m : Z) (l : location) :
  shr_m (shr_record_of_loc m l) = m.
Proof. destruct l as [|[| |]]; reflexivity. Qed.

Lemma shr_fexp_pos (m : positive) (e : Z) (l : location) :
  emin64 <= e ->
  0 < shr_m (fst (shr_fexp prec emax (Z.pos m) e l))
  /\ emin64 <= snd (shr_fexp prec emax (Z.pos m) e l).
Proof.
  intros He. unfold shr_fexp, shr.
  pose proof (digits_bounds m) as [Hlo Hhi].
  unfold emin64, SpecFloat.emin, prec, emax in He.
  destruct (fexp prec emax (Zdigits2 (Z.pos m) + e) - e) as [|n|n] eqn:E;
    simpl fst; simpl snd; rewrite ?shr_record_of_loc_m;
    unfold emin64, SpecFloat.emin, prec, emax; try (split; lia).
  rewrite iter_shr_m by (rewrite shr_record_of_loc_m; lia).
  rewrite shr_record_of_loc_m.
  unfold fexp, SpecFloat.emin, prec, emax in E. simpl Zdigits2 in E.
  split; [|lia].
  assert (Z.pos n <= Z.pos (digits2_pos m) - 1) as Hn by lia.
  assert (2 ^ Z.pos n <= 2 ^ (Z.pos (digits2_pos m) - 1))
    by (apply Z.pow_le_mono_r; lia).
  assert (0 < 2 ^ Z.pos n) by (apply Z.pow_pos_nonneg; lia).
  apply Z.div_str_pos. lia.
Qed.

Lemma binary_round_aux_sign (s : bool) (m : positive) (e : Z) (l : location) :
  emin64 <= e ->
  SFcompare (binary_round_aux prec emax s (Z.pos m) e l) (S754_zero false)
  = Some (signOf s).
Proof.
  intros He. unfold binary_round_aux.
  destruct (shr_fexp_pos m e l He) as [H1 H1e].
  destruct (shr_fexp prec emax (Z.pos m) e l) as [mrs' e'].
  simpl fst in H1. simpl snd in H1e.
  assert (0 < round_nearest_even (shr_m mrs') (loc_of_shr_record mrs')) as H2.
  { unfold round_nearest_even.
    destruct (loc_of_shr_record mrs') as [|[| |]]; try lia.
    destruct (Z.even (shr_m mrs')); lia. }
  destruct (round_nearest_even (shr_m mrs') (loc_of_shr_record mrs'))
    as [|m2|m2]; try lia.
  destruct (shr_fexp_pos m2 e' loc_Exact H1e) as [H3 _].
  destruct (shr_fexp prec emax (Z.pos m2) e' loc_Exact) as [mrs'' e''].
  simpl fst in H3.
  destruct (shr_m mrs'') as [|m3|m3]; try lia.
  destruct (e'' <=? emax - prec); destruct s; reflexivity.
Qed.

Lemma binary_normalize_sign (m e : Z) :
  emin64 <= e ->
  SFcompare (binary_normalize prec emax m e false) (S754_zero false)
  = Some (m ?= 0).
Proof.
  intros He. unfold binary_normalize, binary_round.
  destruct m as [|p|p]; [reflexivity| |].
  - pose proof (shl_align_exp p e (fexp prec emax (Z.pos (digits2_pos p) + e)) He) as Hs.
    destruct (shl_align p e (fexp prec emax (Z.pos (digits2_pos p) + e))) as [mz ez].
    rewrite binary_round_aux_sign; [reflexivity|].
    apply Hs. unfold fexp, emin64. lia.
  - pose proof (shl_align_exp p e (fexp prec emax (Z.pos (digits2_pos p) + e)) He) as Hs.
    destruct (shl_align p e (fexp prec emax (Z.pos (digits2_pos p) + e))) as [mz ez].
    rewrite binary_round_aux_sign; [reflexivity|].
    apply Hs. unfold fexp, emin64. lia.
Qed.


(** Valid finite numbers: the exponent is at least [emin], the mantissa
    has at most [prec] digits, and exactly [prec] above [emin]. *)
Lemma bounded_inv (m : positive) (e : Z) :
  bounded prec emax m e = true ->
  emin64 <= e
  /\ Z.pos m < 2 ^ 53
  /\ (emin64 < e -> 2 ^ 52 <= Z.pos m).
Proof.
  unfold bounded, canonical_mantissa, fexp, emin64, SpecFloat.emin, prec, emax.
  intros H. apply andb_true_iff in H as [H _]. apply Z.eqb_eq in H.
  pose proof (digits_bounds m) as [Hlo Hhi].
  split; [lia|]. split.
  - assert (2 ^ Z.pos (digits2_pos m) <= 2 ^ 53)
      by (apply Z.pow_le_mono_r; lia).
    lia.
  - intros He. replace (Z.pos (digits2_pos m) - 1) with 52 in Hlo by lia.
    exact Hlo.
Qed.

Lemma aligned_pos (m : positive) (e ez : Z) :
  ez <= e -> aligned false m e ez = Z.pos m * 2 ^ (e - ez).
Proof. intros H. apply shl_align_spec. exact H. Qed.

Lemma aligned_neg (m : positive) (e ez : Z) :
  ez <= e -> aligned true m e ez = - (Z.pos m * 2 ^ (e - ez)).
Proof.
  intros H. unfold aligned, cond_Zopp. rewrite shl_align_spec by exact H.
  reflexivity.
Qed.

Lemma scaled_lt (m1 m2 : positive) (k : Z) :
  Z.pos m1 < 2 ^ 53 -> 2 ^ 52 <= Z.pos m2 -> 0 < k ->
  Z.pos m1 < Z.pos m2 * 2 ^ k.
Proof.
  intros H1 H2 Hk.
  assert (2 ^ 1 <= 2 ^ k) as Hp by (apply Z.pow_le_mono_r; lia).
  change (2 ^ 1) with 2 in Hp.
  change (2 ^ 53) with (2 ^ 52 * 2) in H1. nia.
Qed.

Lemma compare_cont_Eq (m1 m2 : positive) :
  Pos.compare_cont Eq m1 m2 = (Z.pos m1 ?= Z.pos m2).
Proof. reflexivity. Qed.

(** On valid finite numbers [SFcompare] is the order of the denoted
    values. *)
Lemma SFcompare_finite (s1 s2 : bool) (m1 m2 : positive) (e1 e2 : Z) :
  bounded prec emax m1 e1 = true ->
  bounded prec emax m2 e2 = true ->
  SFcompare (S754_finite s1 m1 e1) (S754_finite s2 m2 e2)
  = Some (aligned s1 m1 e1 (Z.min e1 e2) ?= aligned s2 m2 e2 (Z.min e1 e2)).
Proof.
  intros B1 B2.
  apply bounded_inv in B1 as (L1 & U1 & N1).
  apply bounded_inv in B2 as (L2 & U2 & N2).
  unfold SFcompare. f_equal.
  destruct s1, s2;
    rewrite ?aligned_pos, ?aligned_neg by lia.
  - (* both negative *)
    destruct (Z.compare_spec e1 e2) as [E | E | E].
    + subst e2. rewrite Z.min_id, Z.sub_diag, !Z.mul_1_r, compare_cont_Eq.
      destruct (Z.compare_spec (Z.pos m1) (Z.pos m2)) as [E | E | E];
        simpl CompOpp; symmetry;
        [apply Z.compare_eq_iff | apply Z.compare_gt_iff
         | apply Z.compare_lt_iff]; lia.
    + rewrite Z.min_l, Z.sub_diag, Z.mul_1_r by lia.
      symmetry. apply Z.compare_gt_iff.
      pose proof (scaled_lt m1 m2 (e2 - e1) U1 (N2 ltac:(lia)) ltac:(lia)).
      lia.
    + rewrite Z.min_r, Z.sub_diag, Z.mul_1_r by lia.
      symmetry. apply Z.compare_lt_iff.
      pose proof (scaled_lt m2 m1 (e1 - e2) U2 (N1 ltac:(lia)) ltac:(lia)).
      lia.
  - symmetry. apply Z.compare_lt_iff.
    assert (0 < 2 ^ (e1 - Z.min e1 e2)) by (apply Z.pow_pos_nonneg; lia).
    assert (0 < 2 ^ (e2 - Z.min e1 e2)) by (apply Z.pow_pos_nonneg; lia).
    nia.
  - symmetry. apply Z.compare_gt_iff.
    assert (0 < 2 ^ (e1 - Z.min e1 e2)) by (apply Z.pow_pos_nonneg; lia).
    assert (0 < 2 ^ (e2 - Z.min e1 e2)) by (apply Z.pow_pos_nonneg; lia).
    nia.
  - (* both positive *)
    destruct (Z.compare_spec e1 e2) as [E | E | E].
    + subst e2. rewrite Z.min_id, Z.sub_diag, !Z.mul_1_r, compare_cont_Eq.
      reflexivity.
    + rewrite Z.min_l, Z.sub_diag, Z.mul_1_r by lia.
      symmetry. apply Z.compare_lt_iff.
      apply scaled_lt; [assumption | apply N2; lia | lia].
    + rewrite Z.min_r, Z.sub_diag, Z.mul_1_r by lia.
      symmetry. apply Z.compare_gt_iff.
      apply scaled_lt; [assumption | apply N1; lia | lia].
Qed.

Lemma compare_sub_0 (a b : Z) : (a - b ?= 0) = (a ?= b).
Proof.
  destruct (Z.compare_spec a b) as [E | E | E].
  - subst. rewrite Z.sub_diag. reflexivity.
  - apply Z.compare_lt_iff. lia.
  - apply Z.compare_gt_iff. lia.
Qed.

(** The sign of a difference is the order of its operands; the
    difference of two equal infinities is not a number. *)
Lemma SFsub_sign (x y : spec_float) :
  valid_binary x = true -> valid_binary y = true ->
  SFcompare (SF64sub x y) (S754_zero false) = SFcompare x y
  \/ (SFcompare x y = Some Eq /\ SF64sub x y = S754_nan).
Proof.
  intros Vx Vy.
  destruct x as [sx | sx | | sx mx ex], y as [sy | sy | | sy my ey];
    try (left; reflexivity);
    try (destruct sx, sy; (left; reflexivity) || (right; split; reflexivity)).
  simpl in Vx, Vy. left.
  rewrite (SFcompare_finite sx sy mx my ex ey Vx Vy).
  unfold SF64sub, SFsub. fold (aligned sx mx ex (Z.min ex ey)).
  fold (aligned sy my ey (Z.min ex ey)).
  rewrite binary_normalize_sign.
  - rewrite compare_sub_0. reflexivity.
  - apply bounded_inv in Vx as (L1 & _). apply bounded_inv in Vy as (L2 & _).
    lia.
Qed.

Lemma SFcompare_antisym (x y : spec_float) :
  SFcompare y x = option_map CompOpp (SFcompare x y).
Proof.
  destruct x as [sx | sx | | sx mx ex], y as [sy | sy | | sy my ey];
    try reflexivity; try (destruct sx; reflexivity);
    try (destruct sy; reflexivity); try (destruct sx, sy; reflexivity).
  simpl. f_equal. destruct sx, sy; try reflexivity;
    rewrite (Z.compare_antisym ex ey);
    change (Pos.compare_cont Eq my mx)
      with (Pos.compare_cont (CompOpp Eq) my mx);
    rewrite <- (Pos.compare_cont_antisym mx my Eq);
    destruct (ex ?= ey); simpl; try reflexivity;
    destruct (Pos.compare_cont Eq mx my); reflexivity.
Qed.

Lemma SFcompare_key (x y : spec_float) :
  x <> S754_nan -> y <> S754_nan ->
  SFcompare x y = Some (lex3 (floatKey x) (floatKey y)).
Proof.
  intros Hx Hy.
  destruct x as [sx | sx | | sx mx ex], y as [sy | sy | | sy my ey];
    try congruence;
    try (destruct sx; reflexivity); try (destruct sy; reflexivity);
    try (destruct sx, sy; reflexivity).
  destruct sx, sy; try reflexivity; unfold SFcompare, floatKey, lex3; f_equal.
  change (-1 ?= -1) with Eq. cbv iota.
  destruct (Z.compare_spec ex ey), (Z.compare_spec (- ex) (- ey));
    try lia; reflexivity.
Qed.

Lemma lex3_le (k k' : Z * Z * Z) : lex3 k k' <> Gt <-> le3 k k'.
Proof.
  destruct k as [[a b] c], k' as [[a' b'] c']. unfold lex3, le3.
  destruct (Z.compare_spec a a'); [|split; [lia | congruence]
                                   |split; [congruence | lia]].
  destruct (Z.compare_spec b b'); [|split; [lia | congruence]
                                   |split; [congruence | lia]].
  destruct (Z.compare_spec c c'); split; try congruence; lia.
Qed.

Lemma lex3_lt (k k' : Z * Z * Z) : lex3 k k' = Lt <-> ~ le3 k' k.
Proof.
  destruct k as [[a b] c], k' as [[a' b'] c']. unfold lex3, le3.
  destruct (Z.compare_spec a a'); [|split; [lia | congruence]
                                   |split; [congruence | lia]].
  destruct (Z.compare_spec b b'); [|split; [lia | congruence]
                                   |split; [congruence | lia]].
  destruct (Z.compare_spec c c'); split; try congruence; lia.
Qed.

Lemma le3_trans (k1 k2 k3 : Z * Z * Z) : le3 k1 k2 -> le3 k2 k3 -> le3 k1 k3.
Proof.
  destruct k1 as [[a1 b1] c1], k2 as [[a2 b2] c2], k3 as [[a3 b3] c3].
  unfold le3. lia.
Qed.

Lemma le3_refl (k : Z * Z * Z) : le3 k k.
Proof. destruct k as [[a b] c]. unfold le3. lia. Qed.

Lemma SFleb_true (x y : spec_float) :
  SFleb x y = true <-> x <> S754_nan /\ y <> S754_nan /\ le3 (floatKey x) (floatKey y).
Proof.
  split.
  - intros H.
    assert (x <> S754_nan) as Hx
        by (intros ->; destruct y; discriminate).
    assert (y <> S754_nan) as Hy
        by (intros ->; destruct x; discriminate).
    split; [exact Hx|]. split; [exact Hy|].
    apply lex3_le. unfold SFleb in H.
    rewrite (SFcompare_key x y Hx Hy) in H.
    intros E. rewrite E in H. discriminate.
  - intros (Hx & Hy & H). apply lex3_le in H. unfold SFleb.
    rewrite (SFcompare_key x y Hx Hy).
    destruct (lex3 (floatKey x) (floatKey y)); congruence.
Qed.

Lemma SFltb_true (x y : spec_float) :
  SFltb x y = true <-> x <> S754_nan /\ y <> S754_nan /\ ~ le3 (floatKey y) (floatKey x).
Proof.
  split.
  - intros H.
    assert (x <> S754_nan) as Hx
        by (intros ->; destruct y; discriminate).
    assert (y <> S754_nan) as Hy
        by (intros ->; destruct x; discriminate).
    split; [exact Hx|]. split; [exact Hy|].
    apply lex3_lt. unfold SFltb in H.
    rewrite (SFcompare_key x y Hx Hy) in H.
    destruct (lex3 (floatKey x) (floatKey y)); congruence.
  - intros (Hx & Hy & H). apply lex3_lt in H. unfold SFltb.
    rewrite (SFcompare_key x y Hx Hy), H. reflexivity.
Qed.

Local Close Scope Z_scope.
Local Open Scope float_scope.

Lemma leb_comparable (x y : float) :
  (x <=? y) = true -> comparable x /\ comparable y.
Proof.
  unfold comparable. rewrite !leb_spec, !SFleb_true.
  intros (Hx & Hy & _). repeat split; try assumption; apply le3_refl.
Qed.

Lemma leb_trans (x y z : float) :
  (x <=? y) = true -> (y <=? z) = true -> (x <=? z) = true.
Proof.
  rewrite !leb_spec, !SFleb_true.
  intros (Hx & _ & H1) (_ & Hz & H2). repeat split; try assumption.
  exact (le3_trans _ _ _ H1 H2).
Qed.

Lemma not_ltb_leb (x y : float) :
  comparable x -> comparable y -> (x <? y) = false -> (y <=? x) = true.
Proof.
  unfold comparable. rewrite ltb_spec, !leb_spec, !SFleb_true.
  intros (Hx & _) (Hy & _) H. repeat split; try assumption.
  assert (~ ~ le3 (floatKey (Prim2SF y)) (floatKey (Prim2SF x))) as NN.
  { intros N. assert (SFltb (Prim2SF x) (Prim2SF y) = true) as T
      by (apply SFltb_true; auto).
    congruence. }
  destruct (floatKey (Prim2SF y)) as [[a b] c], (floatKey (Prim2SF x)) as [[a' b'] c'].
  unfold le3 in *. lia.
Qed.

Lemma ltb_leb (x y : float) : (x <? y) = true -> (x <=? y) = true.
Proof.
  rewrite ltb_spec, leb_spec, SFltb_true, SFleb_true.
  intros (Hx & Hy & H). repeat split; try assumption.
  destruct (floatKey (Prim2SF y)) as [[a b] c], (floatKey (Prim2SF x)) as [[a' b'] c'].
  unfold le3 in *. lia.
Qed.

(** The comparator of a descending sort, decided by its sign:
    [b - a > 0] exactly when [a < b]. *)
Theorem sub_pos_ltb (x y : float) : (0 <? y - x) = (x <? y).
Proof.
  rewrite !ltb_spec, sub_spec.
  change (Prim2SF 0) with (S754_zero false).
  pose proof (Prim2SF_valid x) as Vx. pose proof (Prim2SF_valid y) as Vy.
  unfold SFltb.
  rewrite (SFcompare_antisym (SF64sub (Prim2SF y) (Prim2SF x)) (S754_zero false)).
  rewrite (SFcompare_antisym (Prim2SF y) (Prim2SF x)).
  destruct (SFsub_sign (Prim2SF y) (Prim2SF x) Vy Vx) as [-> | [-> ->]].
  - reflexivity.
  - reflexivity.
Qed.


Lemma ltb_not_leb (x y : float) : (x <? y) = true -> (y <=? x) = false.
Proof.
  rewrite ltb_spec, leb_spec, SFltb_true. intros (_ & _ & H).
  destruct (SFleb (Prim2SF y) (Prim2SF x)) eqn:E; [|reflexivity].
  apply SFleb_true in E as (_ & _ & E). contradiction.
Qed.

End Binary64Order.

(** ** Cosine similarity *)

Lemma cosineLoop_fold (a b : EmbeddingVector) (dot normA normB : float) :
  cosineLoop a b dot normA normB
  = (fold_left (fun acc xy => (acc + fst xy * snd xy)%float) (combine a b) dot,
     fold_left (fun acc x => (acc + x * x)%float)
               (firstn (Nat.min (length a) (length b)) a) normA,
     fold_left (fun acc x => (acc + x * x)%float)
               (firstn (Nat.min (length a) (length b)) b) normB).
Proof.
  revert b dot normA normB.
  induction a as [|va a IH]; intros [|vb b] dot normA normB; simpl;
    try reflexivity.
  apply IH.
Qed.

Lemma dotPrefix_self (a : EmbeddingVector) :
  dotPrefix a a = squaredNorm (length a) a.
Proof.
  unfold dotPrefix, squaredNorm. rewrite firstn_all.
  generalize 0%float.
  induction a as [|x a IH]; intros acc; simpl; [reflexivity | apply IH].
Qed.

Lemma cosineSimilarity_unfold (a b : EmbeddingVector) :
  cosineSimilarity a b
  = let n := Nat.min (length a) (length b) in
    if (n =? 0)%nat then 0%float
    else if truthy (squaredNorm n a) && truthy (squaredNorm n b)
         then (dotPrefix a b
               / (sqrt (squaredNorm n a) * sqrt (squaredNorm n b)))%float
         else 0%float.
Proof.
  unfold cosineSimilarity. rewrite cosineLoop_fold. cbv zeta.
  fold (dotPrefix a b).
  fold (squaredNorm (Nat.min (length a) (length b)) a).
  fold (squaredNorm (Nat.min (length a) (length b)) b).
  destruct (Nat.min (length a) (length b) =? 0)%nat; [reflexivity|].
  destruct (truthy (squaredNorm _ a)), (truthy (squaredNorm _ b)); reflexivity.
Qed.

(** C5 (as amended).  [cosineSimilarity a b] is the dot product over the
    overlapping prefix divided by the product of the two magnitudes over
    that prefix; it is [0] when the overlap is empty or when a squared
    magnitude over the overlap is zero (or not a number);
    [cosineSimilarity [1,0] [0,1]] is [0]; and [cosineSimilarity a a] is
    the quotient [n / (sqrt n * sqrt n)] of the squared magnitude [n] of
    [a], which binary64 arithmetic rounds to [1] for some vectors and to a
    neighbour of [1] for others. *)
Theorem C5_cosineSimilarity_prefix_quotient :
  (forall a b : EmbeddingVector,
      let n := Nat.min (length a) (length b) in
      (n = 0%nat -> cosineSimilarity a b = 0%float)
      /\ (truthy (squaredNorm n a) = false \/ truthy (squaredNorm n b) = false ->
          cosineSimilarity a b = 0%float)
      /\ (n <> 0%nat -> truthy (squaredNorm n a) = true ->
          truthy (squaredNorm n b) = true ->
          cosineSimilarity a b
          = (dotPrefix a b
             / (sqrt (squaredNorm n a) * sqrt (squaredNorm n b)))%float))
  /\ cosineSimilarity [1; 0]%float [0; 1]%float = 0%float
  /\ (forall a : EmbeddingVector,
         let n := squaredNorm (length a) a in
         cosineSimilarity a a
         = if truthy n then (n / (sqrt n * sqrt n))%float else 0%float)
  /\ cosineSimilarity [1; 0]%float [1; 0]%float = 1%float
  /\ cosineSimilarity [3; 4]%float [3; 4]%float = 1%float.
Proof.
  split; [|split; [|split; [|split]]].
  - intros a b n. rewrite cosineSimilarity_unfold. cbv zeta. fold n.
    split; [|split].
    + intros ->. reflexivity.
    + intros H. destruct (n =? 0)%nat; [reflexivity|].
      destruct H as [-> | ->]; [reflexivity|].
      rewrite andb_false_r. reflexivity.
    + intros Hn Ha Hb. apply Nat.eqb_neq in Hn. rewrite Hn, Ha, Hb.
      reflexivity.
  - vm_compute. reflexivity.
  - intros a n. rewrite cosineSimilarity_unfold. cbv zeta.
    rewrite Nat.min_id, dotPrefix_self. fold n.
    destruct a as [|x a]; [reflexivity|].
    simpl length. simpl Nat.eqb.
    destruct (truthy n); reflexivity.
  - vm_compute. reflexivity.
  - vm_compute. reflexivity.
Qed.

(** C5, the claim as stated fails: [[1, 1]] is a nonzero vector whose
    similarity to itself is [0.9999999999999998], which [==] tells apart
    from [1.0]. *)
Lemma C5_self_similarity_not_one :
  cosineSimilarity [1; 1]%float [1; 1]%float = 0.9999999999999998%float
  /\ (cosineSimilarity [1; 1]%float [1; 1]%float =? 1)%float = false.
Proof. split; vm_compute; reflexivity. Qed.

(** ** Strings *)

Lemma startsWith_spec (p s : string) :
  startsWith p s = true <-> exists post, s = p ++ post.
Proof.
  revert s. induction p as [|a p IH]; intros s; simpl.
  - split; [intros _; exists s; reflexivity | reflexivity].
  - destruct s as [|b s]; simpl.
    + split; [discriminate | intros [post H]; discriminate].
    + rewrite andb_true_iff, Ascii.eqb_eq, IH. split.
      * intros [-> [post ->]]. exists post. reflexivity.
      * intros [post H]. injection H as -> ->. split; [reflexivity|].
        exists post. reflexivity.
Qed.

Lemma includes_spec (s sub : string) :
  includes s sub = true <-> substring sub s.
Proof.
  unfold substring. induction s as [|c s IH].
  - simpl. rewrite orb_false_r, startsWith_spec. split.
    + intros [post H]. exists EmptyString, post. exact H.
    + intros [pre [post H]]. destruct pre; [|discriminate].
      exists post. exact H.
  - simpl includes. rewrite orb_true_iff, startsWith_spec, IH. split.
    + intros [[post H] | [pre [post H]]].
      * exists EmptyString, post. exact H.
      * exists (String c pre), post. simpl. rewrite H. reflexivity.
    + intros [pre [post H]]. destruct pre as [|c' pre].
      * left. exists post. exact H.
      * right. simpl in H. injection H as _ ->. exists pre, post. reflexivity.
Qed.

Lemma includes_false (s sub : string) :
  includes s sub = false <-> ~ substring sub s.
Proof.
  rewrite <- includes_spec. destruct (includes s sub); split; intros H;
    try reflexivity; try discriminate; try (intros H'; discriminate).
  exfalso. apply H. reflexivity.
Qed.

Lemma similarHit_spec (productType productTitle productDesc t : string) :
  similarHit productType productTitle productDesc t = true
  <-> synonymHit productType productTitle productDesc t.
Proof.
  unfold similarHit, synonymHit.
  rewrite !orb_true_iff, !includes_spec. tauto.
Qed.

Lemma existsb_similarHit (productType productTitle productDesc : string)
      (terms : list string) :
  existsb (similarHit productType productTitle productDesc) terms = true
  <-> exists term, In term terms
                   /\ synonymHit productType productTitle productDesc term.
Proof.
  rewrite existsb_exists. split; intros [t [Hin H]]; exists t; split;
    try exact Hin; apply similarHit_spec; exact H.
Qed.

(** ** The type ladder *)

Section TypeLadder.

Variable ty : string.
Variable p : Product.

Let q := trim (toLowerCase ty).
Let qs := stripTrailingS q.
Let t := trim (toLowerCase (type p)).
Let ts := stripTrailingS t.
Let ti := toLowerCase (title p).
Let de := toLowerCase (description p).

Lemma exactRung_spec :
  String.eqb t q || String.eqb ts q || String.eqb t qs = true
  <-> exactRung ty p.
Proof.
  unfold exactRung. cbv zeta. fold q. fold t. fold ts. fold qs.
  rewrite !orb_true_iff, !String.eqb_eq. tauto.
Qed.

Lemma partialRung_spec :
  includes t q || includes q t || includes t qs || includes qs t = true
  <-> partialRung ty p.
Proof.
  unfold partialRung. cbv zeta. fold q. fold t. fold qs.
  rewrite !orb_true_iff, !includes_spec. tauto.
Qed.

Lemma textRung_spec :
  includes ti q || includes ti qs || includes de q || includes de qs = true
  <-> textRung ty p.
Proof.
  unfold textRung. cbv zeta. fold q. fold qs. fold ti. fold de.
  rewrite !orb_true_iff, !includes_spec. tauto.
Qed.

Lemma typeMatchScore_ladder :
  truthyString ty = true ->
  (exactRung ty p -> typeMatchScore (Some ty) p = inr 1%float)
  /\ (~ exactRung ty p -> partialRung ty p ->
      typeMatchScore (Some ty) p = inr 0.8%float)
  /\ (~ exactRung ty p -> ~ partialRung ty p -> textRung ty p ->
      typeMatchScore (Some ty) p = inr 0.6%float)
  /\ (forall terms, similarOf q qs = Own terms ->
      ~ exactRung ty p -> ~ partialRung ty p -> ~ textRung ty p ->
      (synonymRung p terms -> typeMatchScore (Some ty) p = inr 0.4%float)
      /\ (~ synonymRung p terms ->
          typeMatchScore (Some ty) p = inr 0%float)).
Proof.
  intros Hty. unfold typeMatchScore. rewrite Hty. cbv zeta. simpl negb.
  cbv iota.
  fold q. fold qs. fold t. fold ts. fold ti. fold de.
  pose proof exactRung_spec as HE.
  pose proof partialRung_spec as HP.
  pose proof textRung_spec as HT.
  destruct (String.eqb t q || String.eqb ts q || String.eqb t qs).
  { repeat split; try reflexivity; intros; exfalso;
      match goal with H : ~ exactRung _ _ |- _ => apply H, HE; reflexivity end. }
  assert (~ exactRung ty p) as NE by (intros H; apply HE in H; discriminate).
  destruct (includes t q || includes q t || includes t qs || includes qs t).
  { repeat split; try reflexivity; intros; try contradiction; exfalso;
      match goal with H : ~ partialRung _ _ |- _ => apply H, HP; reflexivity end. }
  assert (~ partialRung ty p) as NP by (intros H; apply HP in H; discriminate).
  destruct (includes ti q || includes ti qs || includes de q || includes de qs).
  { repeat split; try reflexivity; intros; try contradiction; exfalso;
      match goal with H : ~ textRung _ _ |- _ => apply H, HT; reflexivity end. }
  assert (~ textRung ty p) as NT by (intros H; apply HT in H; discriminate).
  split; [intros; contradiction|].
  split; [intros; contradiction|].
  split; [intros; contradiction|].
  intros terms -> _ _ _.
  pose proof (existsb_similarHit t ti de terms) as HS.
  fold (synonymRung p terms) in HS.
  destruct (existsb (similarHit t ti de) terms).
  - split; [reflexivity|]. intros H. exfalso. apply H, HS. reflexivity.
  - split; [|reflexivity]. intros H. apply HS in H. discriminate.
Qed.

End TypeLadder.

(** C2 (as amended).  For ASCII texts and a non-empty query type the
    ladder is: the normalised type fields equal, also after one trailing [s] is stripped
    from either of them, gives [1.0]; else the product type containing the
    query type or its singular, or contained in one of them, gives [0.8];
    else the query type or its singular occurring in the title or the
    description gives [0.6]; else, when the synonym table yields a list for
    the query type or its singular, a term of the list (or its singular)
    occurring in the type, the title or the description gives [0.4], and
    [0.0] otherwise.  In particular the query type [bench] against a
    product of type [stool] whose title and description do not mention
    [bench] gives [0.4]. *)
Theorem C2_typeMatch_ladder (ty : string) (p : Product) :
  asciiText ty = true ->
  asciiProduct p = true ->
  truthyString ty = true ->
  let q := trim (toLowerCase ty) in
  let qs := stripTrailingS q in
  ((exactRung ty p -> typeMatchScore (Some ty) p = inr 1%float)
   /\ (~ exactRung ty p -> partialRung ty p ->
       typeMatchScore (Some ty) p = inr 0.8%float)
   /\ (~ exactRung ty p -> ~ partialRung ty p -> textRung ty p ->
       typeMatchScore (Some ty) p = inr 0.6%float)
   /\ (forall terms, similarOf q qs = Own terms ->
       ~ exactRung ty p -> ~ partialRung ty p -> ~ textRung ty p ->
       (synonymRung p terms -> typeMatchScore (Some ty) p = inr 0.4%float)
       /\ (~ synonymRung p terms ->
           typeMatchScore (Some ty) p = inr 0%float)))
  /\ (ty = "bench" ->
      trim (toLowerCase (type p)) = "stool" ->
      ~ substring "bench" (toLowerCase (title p)) ->
      ~ substring "bench" (toLowerCase (description p)) ->
      typeMatchScore (Some ty) p = inr 0.4%float).
Proof.
  intros _ _ Hty q qs. split; [exact (typeMatchScore_ladder ty p Hty)|].
  intros -> Ht Hti Hde.
  destruct (typeMatchScore_ladder "bench" p eq_refl) as (_ & _ & _ & H).
  specialize (H ["bench"; "stool"; "seat"; "ottoman"] eq_refl).
  assert (~ substring "bench" "stool") as N1
      by (apply includes_false; reflexivity).
  assert (~ substring "stool" "bench") as N2
      by (apply includes_false; reflexivity).
  apply H.
  - unfold exactRung. rewrite Ht. vm_compute. intros [E | [E | E]]; discriminate.
  - unfold partialRung. rewrite Ht.
    change (stripTrailingS (trim (toLowerCase "bench"))) with "bench".
    change (trim (toLowerCase "bench")) with "bench". tauto.
  - unfold textRung.
    change (stripTrailingS (trim (toLowerCase "bench"))) with "bench".
    change (trim (toLowerCase "bench")) with "bench". tauto.
  - exists "stool". split; [right; left; reflexivity|].
    left. rewrite Ht. exists EmptyString, EmptyString. reflexivity.
Qed.

(** The ladder at the query type [bench] and a stool: the last rungs. *)
Lemma C2_typeMatch_ladder_witness :
  truthyString "bench" = true
  /\ typeMatchScore (Some "bench") Sample.stool = inr 0.4%float.
Proof.
  split; [reflexivity|].
  apply (C2_typeMatch_ladder "bench" Sample.stool eq_refl eq_refl eq_refl);
    try reflexivity; apply includes_false; reflexivity.
Defined.

(** C2, the claim as stated fails: [chairs] against the type [chair] is no
    equality of the type fields, so the stated ladder gives [0.8] where the
    scorer gives [1.0]; the query type [bench] against a stool titled
    "Bench-height oak" gives [0.6], not [0.4]; and against a [footstool] the
    synonym [stool] matches as a substring, where a comparison of the
    stripped terms would not. *)
Lemma C2_ladder_differs_from_stated :
  (typeMatchBySpec "chairs" Sample.chair = 0.8%float
   /\ typeMatchScore (Some "chairs") Sample.chair = inr 1%float)
  /\ (type Sample.benchHeightStool = "stool"
      /\ typeMatchScore (Some "bench") Sample.benchHeightStool = inr 0.6%float)
  /\ (typeMatchBySpec "bench" Sample.footstool = 0%float
      /\ typeMatchScore (Some "bench") Sample.footstool = inr 0.4%float).
Proof. repeat split; vm_compute; reflexivity. Qed.

(** ** Arrays *)

Lemma firstn_incl {A} (n : nat) (l : list A) (x : A) :
  In x (firstn n l) -> In x l.
Proof.
  revert n. induction l as [|y l IH]; intros [|n] H; simpl in *;
    try contradiction.
  destruct H as [-> | H]; [left; reflexivity | right; exact (IH n H)].
Qed.

Lemma slice0_firstn {A} (l : list A) (k : Z) :
  (0 <= k)%Z -> slice0 l k = firstn (Z.to_nat k) l.
Proof.
  intros Hk. unfold slice0.
  destruct (Z.ltb_spec k 0) as [H | _]; [lia|].
  destruct (Z.le_gt_cases k (Z.of_nat (length l))) as [H | H].
  - rewrite Z.min_l by exact H. reflexivity.
  - rewrite Z.min_r by lia. rewrite Nat2Z.id.
    rewrite firstn_all. symmetry. apply firstn_all2. lia.
Qed.

Lemma slice0_incl {A} (l : list A) (k : Z) (x : A) :
  In x (slice0 l k) -> In x l.
Proof. unfold slice0. apply firstn_incl. Qed.

Lemma StronglySorted_firstn {A} (R : A -> A -> Prop) (n : nat) (l : list A) :
  StronglySorted R l -> StronglySorted R (firstn n l).
Proof.
  revert n. induction l as [|x l IH]; intros [|n] H; simpl;
    try constructor.
  - apply IH. exact (proj1 (StronglySorted_inv H)).
  - apply StronglySorted_inv in H as [_ H].
    rewrite List.Forall_forall in *. intros y Hy. apply H.
    exact (firstn_incl _ _ _ Hy).
Qed.

Lemma mapResult_Forall2 {A B} (f : A -> Result B) (l : list A) (ys : list B) :
  mapResult f l = inr ys -> Forall2 (fun x y => f x = inr y) l ys.
Proof.
  revert ys. induction l as [|x l IH]; intros ys H; simpl in H.
  - injection H as <-. constructor.
  - destruct (f x) as [e | y] eqn:Ef; [discriminate|].
    destruct (mapResult f l) as [e | ys']; [discriminate|].
    injection H as <-. constructor; [exact Ef | apply IH; reflexivity].
Qed.

(** ** Ranking *)

Lemma insertSorted_ltb (x y : ScoredProduct) (l : list ScoredProduct) :
  insertSorted x (y :: l)
  = if (score x <? score y)%float then y :: insertSorted x l else x :: y :: l.
Proof. simpl. unfold compareFn. rewrite sub_pos_ltb. reflexivity. Qed.

Lemma insertSorted_perm (x : ScoredProduct) (l : list ScoredProduct) :
  Permutation (insertSorted x l) (x :: l).
Proof.
  induction l as [|y l IH]; [reflexivity|].
  rewrite insertSorted_ltb. destruct (score x <? score y)%float.
  - rewrite IH. apply perm_swap.
  - reflexivity.
Qed.

Lemma sort_perm (l : list ScoredProduct) : Permutation (sort l) l.
Proof.
  induction l as [|x l IH]; [reflexivity|].
  simpl. rewrite insertSorted_perm, IH. reflexivity.
Qed.

Lemma insertSorted_sorted (x : ScoredProduct) (l : list ScoredProduct) :
  comparable (score x) ->
  Forall (fun y => comparable (score y)) l ->
  StronglySorted descending l ->
  StronglySorted descending (insertSorted x l).
Proof.
  intros Hx Hl Hs. induction l as [|y l IH].
  - repeat constructor.
  - rewrite insertSorted_ltb.
    apply Forall_cons_iff in Hl as [Hy Hl].
    apply StronglySorted_inv in Hs as [Hs Hyl].
    destruct (score x <? score y)%float eqn:E.
    + constructor; [apply IH; assumption|].
      rewrite List.Forall_forall. intros z Hz.
      apply (Permutation_in _ (insertSorted_perm x l)) in Hz.
      destruct Hz as [<- | Hz].
      * apply ltb_leb. exact E.
      * rewrite List.Forall_forall in Hyl. apply Hyl. exact Hz.
    + constructor; [constructor; assumption|].
      assert (descending x y) as Hxy by (apply not_ltb_leb; assumption).
      constructor; [exact Hxy|].
      rewrite List.Forall_forall in *. intros z Hz.
      unfold descending in *. apply leb_trans with (score y); auto.
Qed.

Lemma sort_sorted (l : list ScoredProduct) :
  Forall (fun y => comparable (score y)) l ->
  StronglySorted descending (sort l).
Proof.
  induction l as [|x l IH]; intros H; simpl; [constructor|].
  apply Forall_cons_iff in H as [Hx Hl].
  apply insertSorted_sorted; [exact Hx | | apply IH; exact Hl].
  rewrite List.Forall_forall in *. intros y Hy. apply Hl.
  exact (Permutation_in _ (sort_perm l) Hy).
Qed.

Lemma rank_In (cfg : SearchConfig) (scored : list ScoredProduct)
      (r : ScoredProduct) :
  In r (rank cfg scored) ->
  In r scored /\ (minScore cfg <=? score r)%float = true.
Proof.
  unfold rank. intros H. apply slice0_incl in H.
  apply (Permutation_in _ (sort_perm _)) in H.
  apply filter_In in H. exact H.
Qed.

Lemma rank_sorted (cfg : SearchConfig) (scored : list ScoredProduct) :
  (0 <= topK cfg)%Z -> StronglySorted descending (rank cfg scored).
Proof.
  intros Hk. unfold rank. rewrite slice0_firstn by exact Hk.
  apply StronglySorted_firstn, sort_sorted.
  rewrite List.Forall_forall. intros y Hy. apply filter_In in Hy as [_ Hy].
  exact (proj2 (leb_comparable _ _ Hy)).
Qed.

Lemma rank_length (cfg : SearchConfig) (scored : list ScoredProduct) :
  (0 <= topK cfg)%Z -> (Z.of_nat (length (rank cfg scored)) <= topK cfg)%Z.
Proof.
  intros Hk. unfold rank. rewrite slice0_firstn by exact Hk.
  rewrite length_firstn. lia.
Qed.

Lemma rank_all_below (cfg : SearchConfig) (scored : list ScoredProduct) :
  Forall (fun s => (score s <? minScore cfg)%float = true) scored ->
  rank cfg scored = [].
Proof.
  intros H. unfold rank.
  assert (List.filter (fun s => (minScore cfg <=? score s)%float) scored = [])
    as ->.
  { induction scored as [|s l IH]; [reflexivity|].
    apply Forall_cons_iff in H as [Hs Hl]. simpl.
    rewrite (ltb_not_leb _ _ Hs). apply IH. exact Hl. }
  unfold slice0. simpl sort. apply firstn_nil.
Qed.

(** ** The request as a whole *)

Section Pipeline.

Variable toFixed : float -> nat -> string.
Variable openaiEmbeddings :
  list Call -> string -> list string -> SdkError + list (option EmbeddingVector).
Variable googleEmbedContent :
  list Call -> string -> nat -> string -> SdkError + option EmbeddingVector.
Variable analyzeImage :
  AIProviderClient -> string -> string -> option string -> string -> Result string.

Lemma scoreProduct_inr cfg analysis cq targetPrice products qe pe p r :
  scoreProduct toFixed cfg analysis cq targetPrice products qe pe p = inr r ->
  exists typeMatch,
    typeMatchScore (analysisType analysis) p = inr typeMatch
    /\ product r = p
    /\ explanation r
       = join ", "
           (explanationParts toFixed typeMatch
              (categoryMatchScore (analysisCategory analysis) p)
              (semanticScoreOf qe pe p)
              (computeLexicalScore
                 (toLowerCase cq)
                 (toLowerCase
                    (join " " [title p; category p; type p; description p])))
              (priceScoreOf cfg targetPrice products p)
              (priceProximityWeight cfg)).
Proof.
  unfold scoreProduct. intros H.
  destruct (typeMatchScore (analysisType analysis) p) as [e | tm];
    [discriminate|].
  injection H as <-. exists tm. repeat split.
Qed.

Lemma scored_products cfg analysis cq targetPrice products qe pe
      candidates scored :
  mapResult (scoreProduct toFixed cfg analysis cq targetPrice products qe pe)
            candidates = inr scored ->
  map product scored = candidates.
Proof.
  intros H. apply mapResult_Forall2 in H.
  induction H as [|p r l l' Hr _ IH]; [reflexivity|].
  simpl. apply scoreProduct_inr in Hr as (_ & _ & -> & _).
  rewrite IH. reflexivity.
Qed.

(** Every successful search either rejected the image or ranked the
    scores of the candidate set. *)
Lemma performSearch_inr input fetched w w' out :
  performSearch toFixed openaiEmbeddings googleEmbedContent analyzeImage
                input fetched w = (w', inr out) ->
  let cfg := mergeConfig (config input) in
  (isFurniture out = false /\ results out = [] /\ considered out = 0%nat)
  \/ (isFurniture out = true
      /\ considered out = length (candidatesOf cfg fetched)
      /\ totalProducts out = length (priceRangeFilter cfg fetched)
      /\ exists analysis cq qe pe scored,
          mapResult (scoreProduct toFixed cfg analysis cq
                       (targetPriceOf (queryText input))
                       (priceRangeFilter cfg fetched) qe pe)
                    (candidatesOf cfg fetched) = inr scored
          /\ results out = rank cfg scored).
Proof.
  intros H cfg. unfold performSearch in H. fold cfg in H.
  destruct (resolveEmbedding cfg) as [ep em].
  destruct (resolveEmbeddingKey input cfg) as [key|]; [|discriminate].
  destruct (createAIProviderClient _) as [e | client]; [discriminate|].
  destruct (analyzeImage client _ analysisPrompt None _) as [e | content];
    [discriminate|].
  destruct (negb (startsWith "FURNITURE" (trim content))).
  { injection H as _ <-. left. repeat split. }
  destruct (analyzeImage client _ _ (Some systemMessage) _)
    as [e | description]; [discriminate|].
  unfold searchCatalog in H. fold (candidatesOf cfg fetched) in H.
  destruct (createQueryEmbedding _ _ _ _ _ _ w) as [w1 [e | qe]];
    destruct (getProductEmbeddings _ _ _ _ _ _ w1) as [w2 [e' | pe]];
    try discriminate.
  destruct (mapResult _ (candidatesOf cfg fetched)) as [e | scored] eqn:Es;
    [discriminate|].
  injection H as _ <-. right. simpl.
  repeat split. eauto 10.
Qed.

(** When both embedding stages and the scoring succeed, the search
    succeeds with the ranking of the scores, whatever the scores are. *)
Lemma searchCatalog_scored cfg input analysis cq ep key em fetched
      w w1 w2 qe pe scored :
  createQueryEmbedding openaiEmbeddings googleEmbedContent cq ep key
                       (Some em) w = (w1, inr qe) ->
  getProductEmbeddings openaiEmbeddings googleEmbedContent
                       (candidatesOf cfg fetched) ep key (Some em) w1
  = (w2, inr pe) ->
  mapResult (scoreProduct toFixed cfg analysis cq
               (targetPriceOf (queryText input))
               (priceRangeFilter cfg fetched) qe pe)
            (candidatesOf cfg fetched) = inr scored ->
  exists out,
    searchCatalog toFixed openaiEmbeddings googleEmbedContent cfg input
                  analysis cq ep key em fetched w = (w2, inr out)
    /\ results out = rank cfg scored
    /\ resultsCount out = length (rank cfg scored).
Proof.
  intros Hq Hp Hs. unfold searchCatalog.
  fold (candidatesOf cfg fetched). rewrite Hq, Hp, Hs.
  eexists. split; [reflexivity|]. split; reflexivity.
Qed.

End Pipeline.

(** C8.  The ranked output of a successful search holds at most [topK]
    items, holds no item whose composite score is below [minScore], and is
    sorted by descending composite score; and when every scored candidate
    is below [minScore] the search still succeeds, with an empty list. *)
Theorem C8_ranked_output
        (toFixed : float -> nat -> string)
        (openaiEmbeddings :
           list Call -> string -> list string
           -> SdkError + list (option EmbeddingVector))
        (googleEmbedContent :
           list Call -> string -> nat -> string
           -> SdkError + option EmbeddingVector)
        (analyzeImage :
           AIProviderClient -> string -> string -> option string -> string
           -> Result string)
        (input : PerformSearchInput) (fetched : list Product)
        (w w' : World) (out : SearchOutput) :
  let cfg := mergeConfig (config input) in
  (0 <= topK cfg)%Z ->
  performSearch toFixed openaiEmbeddings googleEmbedContent analyzeImage
                input fetched w = (w', inr out) ->
  (Z.of_nat (length (results out)) <= topK cfg)%Z
  /\ Forall (fun r => (minScore cfg <=? score r)%float = true) (results out)
  /\ StronglySorted descending (results out)
  /\ (forall analysis cq ep key em w0 w1 w2 qe pe scored,
         createQueryEmbedding openaiEmbeddings googleEmbedContent cq ep key
                              (Some em) w0 = (w1, inr qe) ->
         getProductEmbeddings openaiEmbeddings googleEmbedContent
                              (candidatesOf cfg fetched) ep key (Some em) w1
         = (w2, inr pe) ->
         mapResult (scoreProduct toFixed cfg analysis cq
                      (targetPriceOf (queryText input))
                      (priceRangeFilter cfg fetched) qe pe)
                   (candidatesOf cfg fetched) = inr scored ->
         Forall (fun s => (score s <? minScore cfg)%float = true) scored ->
         exists out0,
           searchCatalog toFixed openaiEmbeddings googleEmbedContent cfg input
                         analysis cq ep key em fetched w0 = (w2, inr out0)
           /\ results out0 = []).
Proof.
  intros cfg Hk H.
  apply performSearch_inr in H. fold cfg in H.
  split; [|split; [|split]].
  - destruct H as [(_ & -> & _) | (_ & _ & _ & an & cq & qe & pe & sc & _ & ->)].
    + simpl. exact Hk.
    + apply rank_length. exact Hk.
  - destruct H as [(_ & -> & _) | (_ & _ & _ & an & cq & qe & pe & sc & _ & ->)].
    + constructor.
    + rewrite List.Forall_forall. intros r Hr.
      exact (proj2 (rank_In cfg sc r Hr)).
  - destruct H as [(_ & -> & _) | (_ & _ & _ & an & cq & qe & pe & sc & _ & ->)].
    + constructor.
    + apply rank_sorted. exact Hk.
  - intros an cq ep key em w0 w1 w2 qe pe scored Hq Hp Hs Hbelow.
    destruct (searchCatalog_scored toFixed openaiEmbeddings googleEmbedContent
                cfg input an cq ep key em fetched w0 w1 w2 qe pe scored
                Hq Hp Hs) as (out0 & E & R & _).
    exists out0. split; [exact E|].
    rewrite R. apply rank_all_below. exact Hbelow.
Qed.



Lemma ranked_inr (r : World * Result SearchOutput) :
  Sample.ranked r = true ->
  exists w' out, r = (w', inr out) /\ isFurniture out = true.
Proof.
  destruct r as [w' [e | out]]; simpl; [discriminate|].
  intros H. exists w', out. split; [reflexivity | exact H].
Qed.

(** A search of the sample catalog under the default configuration. *)
Lemma C8_ranked_output_witness :
  exists w' out,
    performSearch Sample.toFixed Sample.openai Sample.google Sample.vision
                  (Sample.request Sample.userConfig (Some "around $100"))
                  Sample.catalog Sample.emptyWorld = (w', inr out)
    /\ (Z.of_nat (length (results out)) <= 20)%Z
    /\ StronglySorted descending (results out).
Proof.
  destruct (ranked_inr
              (performSearch Sample.toFixed Sample.openai Sample.google
                 Sample.vision
                 (Sample.request Sample.userConfig (Some "around $100"))
                 Sample.catalog Sample.emptyWorld))
    as (w' & out & E & _); [vm_compute; reflexivity|].
  exists w', out. split; [exact E|].
  assert (0 <= topK (mergeConfig
                       (config (Sample.request Sample.userConfig
                                               (Some "around $100")))))%Z
    as Hk by (vm_compute; discriminate).
  destruct (C8_ranked_output Sample.toFixed Sample.openai Sample.google
              Sample.vision
              (Sample.request Sample.userConfig (Some "around $100"))
              Sample.catalog Sample.emptyWorld w' out Hk E)
    as (Hlen & _ & Hsorted & _).
  split; [exact Hlen | exact Hsorted].
Defined.

(** ** The candidate cap *)





(** ** The embedding cache *)

Lemma chunksFrom_length {A} (fuel n : nat) (l : list A) :
  (0 < n)%nat -> (length l <= fuel)%nat ->
  length (chunksFrom fuel n l) = ((length l + n - 1) / n)%nat.
Proof.
  intros Hn. revert l. induction fuel as [|fuel IH]; intros l Hl.
  - destruct l; [|simpl in Hl; lia]. simpl.
    symmetry. apply Nat.div_small. lia.
  - destruct l as [|x l'] eqn:El.
    + simpl. symmetry. apply Nat.div_small. lia.
    + rewrite <- El in *. cbn [chunksFrom]. rewrite El at 1. cbn [length].
      assert (length (skipn n l) = length l - n)%nat as Hs
        by apply length_skipn.
      assert (0 < length l)%nat as Hpos by (rewrite El; simpl; lia).
      rewrite IH by lia. rewrite Hs.
      destruct (Nat.le_gt_cases (length l) n) as [Hle | Hgt].
      * replace (length l - n)%nat with 0%nat by lia.
        rewrite (Nat.div_small (0 + n - 1) n) by lia.
        apply (Nat.div_unique _ n 1 (length l - 1)); lia.
      * replace (length l + n - 1)%nat
          with ((length l - n + n - 1) + 1 * n)%nat by lia.
        rewrite Nat.div_add by lia. lia.
Qed.

Lemma chunksFrom_concat {A} (fuel n : nat) (l : list A) :
  (0 < n)%nat -> (length l <= fuel)%nat ->
  concat (chunksFrom fuel n l) = l.
Proof.
  intros Hn. revert l. induction fuel as [|fuel IH]; intros l Hl.
  - destruct l; [reflexivity | simpl in Hl; lia].
  - destruct l as [|x l'] eqn:El; [reflexivity|].
    rewrite <- El in *. cbn [chunksFrom]. rewrite El at 1.
    cbn [concat]. rewrite IH.
    + apply firstn_skipn.
    + rewrite length_skipn. assert (0 < length l)%nat by (rewrite El; simpl; lia).
      lia.
Qed.

Lemma batchesOf_In (missing : list Product) (p : Product) :
  In p missing <-> exists batch, In batch (batchesOf missing) /\ In p batch.
Proof.
  unfold batchesOf.
  rewrite <- (chunksFrom_concat (length missing) BATCH_SIZE missing) at 1
    by (unfold BATCH_SIZE; lia).
  rewrite in_concat. reflexivity.
Qed.

Lemma batchesOf_length (missing : list Product) :
  length (batchesOf missing) = ((length missing + 99) / 100)%nat.
Proof.
  unfold batchesOf. rewrite chunksFrom_length by (unfold BATCH_SIZE; lia).
  unfold BATCH_SIZE. f_equal. lia.
Qed.

Lemma chunksFrom_nonempty {A} (fuel n : nat) (l : list A) (b : list A) :
  (0 < n)%nat -> In b (chunksFrom fuel n l) -> b <> [].
Proof.
  intros Hn. revert l. induction fuel as [|fuel IH]; intros l H;
    [contradiction|].
  destruct l as [|x l']; [contradiction|].
  cbn [chunksFrom] in H. destruct H as [<- | H]; [|exact (IH _ H)].
  destruct n; [lia | discriminate].
Qed.

Lemma validFrom_In (k : nat) (texts : list string) (i : nat) (t : string) :
  In (i, t) (validFrom k texts)
  <-> (k <= i)%nat /\ nth_error texts (i - k) = Some t
      /\ (0 <? String.length (trim t))%nat = true.
Proof.
  revert k. induction texts as [|x texts IH]; intros k; cbn [validFrom].
  - split; [contradiction|]. intros (_ & H & _).
    destruct (i - k)%nat; discriminate.
  - assert (In (i, t) (validFrom (S k) texts)
            <-> (k < i)%nat /\ nth_error texts (i - S k) = Some t
                /\ (0 <? String.length (trim t))%nat = true) as IH'
        by (rewrite IH; reflexivity).
    assert ((k <= i)%nat /\ nth_error (x :: texts) (i - k) = Some t
            /\ (0 <? String.length (trim t))%nat = true
            <-> (i = k /\ x = t /\ (0 <? String.length (trim t))%nat = true)
                \/ ((k < i)%nat /\ nth_error texts (i - S k) = Some t
                    /\ (0 <? String.length (trim t))%nat = true)) as Hsplit.
    { split.
      - intros (Hk & Hn & Ht). destruct (i - k)%nat as [|j] eqn:E.
        + left. simpl in Hn. injection Hn as ->. repeat split; [lia | exact Ht].
        + right. simpl in Hn. replace (i - S k)%nat with j by lia.
          repeat split; [lia | exact Hn | exact Ht].
      - intros [(-> & -> & Ht) | (Hk & Hn & Ht)].
        + rewrite Nat.sub_diag. repeat split; [lia | exact Ht].
        + replace (i - k)%nat with (S (i - S k)) by lia.
          repeat split; [lia | exact Hn | exact Ht]. }
    rewrite Hsplit.
    destruct (0 <? String.length (trim x))%nat eqn:Ex.
    + cbn [In]. rewrite IH'. split.
      * intros [E | H]; [injection E as -> ->; left; auto | right; exact H].
      * intros [(-> & -> & _) | H]; [left; reflexivity | right; exact H].
    + rewrite IH'. split; [intros H; right; exact H|].
      intros [(_ & -> & Ht) | H]; [congruence | exact H].
Qed.

Lemma validIndices_In (batch : list Product) (i : nat) :
  In i (validIndices batch)
  <-> exists p, nth_error batch i = Some p /\ hasText p = true.
Proof.
  unfold validIndices. rewrite in_map_iff. split.
  - intros ([j t] & <- & H). apply validFrom_In in H as (_ & Hn & Ht).
    rewrite Nat.sub_0_r in Hn. simpl. rewrite nth_error_map in Hn.
    destruct (nth_error batch j) as [p|]; [|discriminate].
    injection Hn as <-. exists p. split; [reflexivity | exact Ht].
  - intros (p & Hn & Ht). exists (i, productText p). split; [reflexivity|].
    apply validFrom_In. rewrite Nat.sub_0_r, nth_error_map, Hn.
    repeat split; [lia | exact Ht].
Qed.

Lemma validTexts_empty (batch : list Product) :
  (length (validTexts batch) =? 0)%nat = negb (existsb hasText batch).
Proof.
  destruct (existsb hasText batch) eqn:E; simpl.
  - apply existsb_exists in E as (p & Hin & Ht).
    apply In_nth_error in Hin as (i & Hi).
    assert (In i (validIndices batch)) as Hv
        by (apply validIndices_In; exists p; split; assumption).
    unfold validIndices in Hv. unfold validTexts. rewrite length_map in *.
    destruct (validFrom 0 (map productText batch)); [contradiction|reflexivity].
  - unfold validTexts. rewrite length_map.
    destruct (validFrom 0 (map productText batch)) as [|[i t] l] eqn:Ev;
      [reflexivity|].
    assert (In i (validIndices batch)) as Hv
        by (unfold validIndices; rewrite Ev; left; reflexivity).
    apply validIndices_In in Hv as (p & Hn & Ht).
    assert (existsb hasText batch = true) as E'
        by (apply existsb_exists; exists p; split;
            [exact (nth_error_In _ _ Hn) | exact Ht]).
    congruence.
Qed.

Lemma storeBatch_mono (batch : list Product) (es : list EmbeddingResponse)
      (idxs : list nat) (c : gmap string EmbeddingVector) (id : string) :
  is_Some (c !! id) -> is_Some (storeBatch batch es idxs c !! id).
Proof.
  revert idxs c. induction es as [|e es IH]; intros [|i idxs] c H;
    cbn [storeBatch]; try exact H.
  apply IH. destruct (nth_error batch i) as [p|]; [|exact H].
  destruct (embedding e) as [v|]; [|exact H].
  destruct (decide (_id p = id)) as [<- | Hne].
  - rewrite lookup_insert_eq. eauto.
  - rewrite lookup_insert_ne by exact Hne. exact H.
Qed.

Lemma storeBatch_other (batch : list Product) (es : list EmbeddingResponse)
      (idxs : list nat) (c : gmap string EmbeddingVector) (id : string) :
  (forall i p, In i idxs -> nth_error batch i = Some p -> _id p <> id) ->
  storeBatch batch es idxs c !! id = c !! id.
Proof.
  revert idxs c. induction es as [|e es IH]; intros [|i idxs] c H;
    cbn [storeBatch]; try reflexivity.
  rewrite IH by (intros j p Hj; apply H; right; exact Hj).
  destruct (nth_error batch i) as [p|] eqn:En; [|reflexivity].
  destruct (embedding e) as [v|]; [|reflexivity].
  apply lookup_insert_ne. apply (H i p); [left; reflexivity | exact En].
Qed.

Lemma storeBatch_full (batch : list Product) (es : list EmbeddingResponse)
      (idxs : list nat) (c : gmap string EmbeddingVector) (i : nat)
      (p : Product) :
  length es = length idxs ->
  Forall (fun e => embedding e <> None) es ->
  In i idxs -> nth_error batch i = Some p ->
  is_Some (storeBatch batch es idxs c !! _id p).
Proof.
  revert idxs c. induction es as [|e es IH]; intros [|j idxs] c Hlen Hall Hin Hn;
    try (simpl in Hlen; discriminate); try contradiction.
  cbn [storeBatch]. apply Forall_cons_iff in Hall as [He Hall].
  destruct Hin as [-> | Hin].
  - apply storeBatch_mono. rewrite Hn.
    destruct (embedding e) as [v|]; [|congruence].
    rewrite lookup_insert_eq. eauto.
  - apply IH; [simpl in Hlen; lia | exact Hall | exact Hin | exact Hn].
Qed.

Section CacheLoop.

Variable openaiEmbeddings :
  list Call -> string -> list string -> SdkError + list (option EmbeddingVector).
Variable googleEmbedContent :
  list Call -> string -> nat -> string -> SdkError + option EmbeddingVector.

Lemma createEmbeddings_log client texts model log log' r :
  createEmbeddings openaiEmbeddings googleEmbedContent client texts model log
  = (log', r) ->
  (backend client = Anthropic /\ log' = log /\ r = inl unsupportedEmbeddings)
  \/ (backend client <> Anthropic
      /\ exists m, log' = (log ++ [{| callProvider := backend client;
                                      callModel := m;
                                      callTexts := texts |}])%list).
Proof.
  unfold createEmbeddings. intros H.
  destruct (backend client); injection H as <- <-.
  - right. split; [discriminate | eauto].
  - left. repeat split.
  - right. split; [discriminate | eauto].
Qed.

Lemma googleLoop_full log model i texts out :
  (forall log model i text v,
      googleEmbedContent log model i text = inr v -> v <> None) ->
  googleLoop googleEmbedContent log model i texts = inr out ->
  length out = length texts /\ Forall (fun e => embedding e <> None) out.
Proof.
  intros HA. revert i out. induction texts as [|t texts IH]; intros i out H;
    cbn [googleLoop] in H.
  - injection H as <-. split; [reflexivity | constructor].
  - destruct (googleEmbedContent log model i t) as [e | v] eqn:Ev;
      [discriminate|].
    destruct (googleLoop googleEmbedContent log model (S i) texts)
      as [e | out'] eqn:El; [discriminate|].
    injection H as <-. destruct (IH _ _ El) as [Hlen Hall].
    split; [simpl; lia|]. constructor; [|exact Hall].
    simpl. exact (HA _ _ _ _ _ Ev).
Qed.

Lemma createEmbeddings_full client texts model log log' es :
  Answering openaiEmbeddings googleEmbedContent ->
  createEmbeddings openaiEmbeddings googleEmbedContent client texts model log
  = (log', inr es) ->
  length es = length texts /\ Forall (fun e => embedding e <> None) es.
Proof.
  intros [HO HG]. unfold createEmbeddings. intros H.
  destruct (backend client).
  - destruct (openaiEmbeddings _ _ _) as [e | data] eqn:Ed;
      [discriminate|].
    injection H as _ <-. destruct (HO _ _ _ _ Ed) as [Hlen Hall].
    rewrite length_map. split; [exact Hlen|].
    clear -Hall. induction Hall; constructor; assumption.
  - discriminate.
  - destruct (googleLoop _ _ _ _ _) as [e | out] eqn:El; [discriminate|].
    injection H as _ <-. exact (googleLoop_full _ _ _ _ _ HG El).
Qed.

Lemma batchLoop_batches fuel i client provider model missing w :
  batchLoop openaiEmbeddings googleEmbedContent fuel i client provider model
            missing w
  = processBatches openaiEmbeddings googleEmbedContent client provider model
                   (chunksFrom fuel BATCH_SIZE (skipn i missing)) w.
Proof.
  revert i w. induction fuel as [|fuel IH]; intros i w; [reflexivity|].
  cbn [batchLoop]. destruct (Nat.ltb_spec i (length missing)) as [Hi | Hi].
  - destruct (skipn i missing) as [|x rest] eqn:Es.
    + assert (length (skipn i missing) = 0)%nat as Hl by (rewrite Es; reflexivity).
      rewrite length_skipn in Hl. lia.
    + cbn [chunksFrom processBatches]. rewrite <- Es.
      unfold sliceFrom.
      rewrite skipn_skipn, (Nat.add_comm BATCH_SIZE i).
      destruct (length (map snd (validFrom 0 (map productText
                  (firstn BATCH_SIZE (skipn i missing))))) =? 0)%nat;
        [apply IH|].
      destruct (createEmbeddings _ _ _ _ _ _) as [log [msg | es]];
        [reflexivity | apply IH].
  - rewrite skipn_all2 by exact Hi. reflexivity.
Qed.

Lemma getProductEmbeddings_batches products provider key model w :
  getProductEmbeddings openaiEmbeddings googleEmbedContent products provider
                       key model w
  = match createAIProviderClient
            {| AiProvider.provider := provider; AiProvider.apiKey := key;
               AiProvider.visionModel := None;
               AiProvider.embeddingModel := modelOption model |} with
    | inl msg => (w, inl msg)
    | inr client =>
        match processBatches openaiEmbeddings googleEmbedContent client
                             provider model
                             (batchesOf (missingFrom w products)) w with
        | (w', inl msg) => (w', inl msg)
        | (w', inr _) => (w', inr (cache w'))
        end
    end.
Proof.
  unfold getProductEmbeddings. fold (missingFrom w products).
  destruct (createAIProviderClient _) as [msg | client]; [reflexivity|].
  destruct (Nat.ltb_spec 0 (length (missingFrom w products))) as [H | H].
  - rewrite batchLoop_batches. reflexivity.
  - destruct (missingFrom w products); [reflexivity | simpl in H; lia].
Qed.

End CacheLoop.

Lemma missingFrom_In (w : World) (products : list Product) (p : Product) :
  In p (missingFrom w products)
  <-> In p products /\ cache w !! _id p = None.
Proof.
  unfold missingFrom. rewrite filter_In.
  destruct (cache w !! _id p) as [v|] eqn:E.
  - rewrite bool_decide_eq_true_2 by eauto. simpl.
    split; intros [_ H]; discriminate.
  - rewrite bool_decide_eq_false_2 by (intros [v H]; discriminate). simpl.
    tauto.
Qed.

Section CacheProperties.

Variable openaiEmbeddings :
  list Call -> string -> list string -> SdkError + list (option EmbeddingVector).
Variable googleEmbedContent :
  list Call -> string -> nat -> string -> SdkError + option EmbeddingVector.
Variable client : AIProviderClient.
Variable provider : string.
Variable model : option string.

Let run := processBatches openaiEmbeddings googleEmbedContent client provider
                          model.

Lemma processBatches_cons batch rest w :
  run (batch :: rest) w
  = if negb (existsb hasText batch) then run rest w
    else
      let '(log, r) :=
        createEmbeddings openaiEmbeddings googleEmbedContent client
                         (validTexts batch) model (calls w) in
      match r with
      | inl msg => ({| cache := cache w; calls := log |},
                    inl (rethrow provider msg))
      | inr es =>
          run rest {| cache := storeBatch batch es (validIndices batch)
                                          (cache w);
                      calls := log |}
      end.
Proof.
  unfold run. cbn [processBatches]. rewrite <- validTexts_empty. reflexivity.
Qed.

Lemma processBatches_calls batches w w' r :
  run batches w = (w', r) ->
  (length (calls w') <= length (calls w) + liveBatches batches)%nat
  /\ (forall u, r = inr u ->
        length (calls w') = (length (calls w) + liveBatches batches)%nat).
Proof.
  revert w. induction batches as [|b rest IH]; intros w H.
  - injection H as <- <-. unfold liveBatches. simpl. split; [lia|].
    intros; lia.
  - rewrite processBatches_cons in H. unfold liveBatches in *.
    cbn [List.filter]. destruct (existsb hasText b); simpl negb in H;
      cbv iota in H; [|exact (IH w H)].
    destruct (createEmbeddings _ _ _ _ _ _) as [log r0] eqn:Ec.
    apply createEmbeddings_log in Ec.
    destruct r0 as [msg | es].
    + injection H as <- <-. simpl calls. simpl length.
      split; [|discriminate].
      destruct Ec as [(_ & -> & _) | (_ & m & ->)];
        rewrite ?length_app; simpl; lia.
    + destruct Ec as [(_ & _ & Ec) | (_ & m & ->)]; [discriminate|].
      destruct (IH _ H) as [Hle Heq]. simpl calls in *.
      rewrite length_app in *. simpl length in *.
      split; [lia|]. intros u Hu. rewrite (Heq u Hu). lia.
Qed.

Lemma processBatches_other batches w w' r id :
  (forall b p, In b batches -> In p b -> hasText p = true -> _id p <> id) ->
  run batches w = (w', r) ->
  cache w' !! id = cache w !! id.
Proof.
  revert w. induction batches as [|b rest IH]; intros w Hid H.
  - injection H as <- _. reflexivity.
  - assert (forall b' p, In b' rest -> In p b' -> hasText p = true ->
                         _id p <> id) as Hrest
        by (intros b' p Hb; apply Hid; right; exact Hb).
    rewrite processBatches_cons in H.
    destruct (negb (existsb hasText b)); [exact (IH w Hrest H)|].
    destruct (createEmbeddings _ _ _ _ _ _) as [log [msg | es]].
    + injection H as <- _. reflexivity.
    + rewrite (IH _ Hrest H). simpl cache. apply storeBatch_other.
      intros i p Hi Hn. apply validIndices_In in Hi as (p' & Hn' & Ht).
      assert (p' = p) as -> by congruence.
      apply (Hid b p); [left; reflexivity | exact (nth_error_In _ _ Hn)
                        | exact Ht].
Qed.

Lemma processBatches_mono batches w w' r id :
  is_Some (cache w !! id) ->
  run batches w = (w', r) ->
  is_Some (cache w' !! id).
Proof.
  revert w. induction batches as [|b rest IH]; intros w Hs H.
  - injection H as <- _. exact Hs.
  - rewrite processBatches_cons in H.
    destruct (negb (existsb hasText b)); [exact (IH w Hs H)|].
    destruct (createEmbeddings _ _ _ _ _ _) as [log [msg | es]].
    + injection H as <- _. exact Hs.
    + refine (IH _ _ H). simpl cache. apply storeBatch_mono. exact Hs.
Qed.

Lemma processBatches_full batches w w' u :
  Answering openaiEmbeddings googleEmbedContent ->
  run batches w = (w', inr u) ->
  forall b p, In b batches -> In p b -> hasText p = true ->
              is_Some (cache w' !! _id p).
Proof.
  intros HA. revert w. induction batches as [|b rest IH];
    intros w H b' p Hb Hp Ht; [contradiction|].
  rewrite processBatches_cons in H.
  destruct (existsb hasText b) eqn:Eb; simpl negb in H; cbv iota in H.
  - destruct (createEmbeddings _ _ _ _ _ _) as [log [msg | es]] eqn:Ec;
      [discriminate|].
    destruct Hb as [<- | Hb]; [|exact (IH _ H b' p Hb Hp Ht)].
    refine (processBatches_mono rest _ w' (inr u) (_id p) _ H).
    simpl cache.
    destruct (createEmbeddings_full _ _ _ _ _ _ _ _ HA Ec) as [Hlen Hall].
    apply In_nth_error in Hp as (i & Hi).
    apply (storeBatch_full b es (validIndices b) (cache w) i p);
      [|exact Hall| |exact Hi].
    + rewrite Hlen. unfold validTexts, validIndices.
      rewrite !length_map. reflexivity.
    + apply validIndices_In. exists p. split; assumption.
  - destruct Hb as [<- | Hb]; [|exact (IH _ H b' p Hb Hp Ht)].
    assert (existsb hasText b = true) as E
        by (apply existsb_exists; exists p; split; assumption).
    congruence.
Qed.

Lemma processBatches_error batches w w' e :
  run batches w = (w', inl e) ->
  exists pre batch post w1 msg,
    batches = (pre ++ batch :: post)%list
    /\ run pre w = (w1, inr tt)
    /\ existsb hasText batch = true
    /\ createEmbeddings openaiEmbeddings googleEmbedContent client
                        (validTexts batch) model (calls w1)
       = (calls w', inl msg)
    /\ e = rethrow provider msg
    /\ cache w' = cache w1.
Proof.
  revert w. induction batches as [|b rest IH]; intros w H;
    [discriminate|].
  rewrite processBatches_cons in H.
  destruct (existsb hasText b) eqn:Eb; simpl negb in H; cbv iota in H.
  - destruct (createEmbeddings _ _ _ _ _ _) as [log [msg | es]] eqn:Ec.
    + injection H as <- <-.
      exists [], b, rest, w, msg. repeat split; [exact Eb | exact Ec].
    + destruct (IH _ H) as (pre & b' & post & w1 & msg & -> & Hp & Hb & Hc
                            & He & Hcache).
      exists (b :: pre), b', post, w1, msg.
      repeat split; try assumption.
      rewrite processBatches_cons, Eb. simpl negb. cbv iota.
      rewrite Ec. exact Hp.
  - destruct (IH _ H) as (pre & b' & post & w1 & msg & -> & Hp & Hb & Hc
                          & He & Hcache).
    exists (b :: pre), b', post, w1, msg.
    repeat split; try assumption.
    rewrite processBatches_cons, Eb. exact Hp.
Qed.

Lemma processBatches_blank batches w :
  (forall b, In b batches -> existsb hasText b = false) ->
  run batches w = (w, inr tt).
Proof.
  induction batches as [|b rest IH]; intros H; [reflexivity|].
  rewrite processBatches_cons, (H b) by (left; reflexivity).
  apply IH. intros b' Hb. apply H. right. exact Hb.
Qed.

Lemma processBatches_addressed batches w w' r :
  run batches w = (w', r) ->
  exists new, calls w' = (calls w ++ new)%list
              /\ Forall (fun c => callProvider c = backend client) new.
Proof.
  revert w. induction batches as [|b rest IH]; intros w H.
  - injection H as <- _. exists []. rewrite app_nil_r.
    split; [reflexivity | constructor].
  - rewrite processBatches_cons in H.
    destruct (negb (existsb hasText b)); [exact (IH w H)|].
    destruct (createEmbeddings _ _ _ _ _ _) as [log [msg | es]] eqn:Ec;
      apply createEmbeddings_log in Ec.
    + injection H as <- _. simpl calls.
      destruct Ec as [(_ & -> & _) | (_ & m & ->)].
      * exists []. rewrite app_nil_r. split; [reflexivity | constructor].
      * eexists. split; [reflexivity|]. repeat constructor.
    + destruct Ec as [(_ & _ & Ec) | (_ & m & ->)]; [discriminate|].
      destruct (IH _ H) as (new & -> & Hall). simpl calls.
      eexists. rewrite <- app_assoc. split; [reflexivity|].
      constructor; [reflexivity | exact Hall].
Qed.

Lemma processBatches_texts batches w w' r :
  run batches w = (w', r) ->
  exists new, calls w' = (calls w ++ new)%list
              /\ Forall (fun c => exists b, In b batches
                                            /\ callTexts c = validTexts b) new.
Proof.
  revert w. induction batches as [|b rest IH]; intros w H.
  - injection H as <- _. exists []. rewrite app_nil_r.
    split; [reflexivity | constructor].
  - assert (forall new,
              Forall (fun c => exists b', In b' rest
                                          /\ callTexts c = validTexts b') new ->
              Forall (fun c => exists b', In b' (b :: rest)
                                          /\ callTexts c = validTexts b') new)
      as Hweak.
    { intros new Hall. rewrite List.Forall_forall in *. intros c Hc.
      destruct (Hall c Hc) as (b' & Hb' & E). exists b'.
      split; [right; exact Hb' | exact E]. }
    rewrite processBatches_cons in H.
    destruct (negb (existsb hasText b)).
    { destruct (IH w H) as (new & E & Hall). exists new. auto. }
    destruct (createEmbeddings _ _ _ _ _ _) as [log [msg | es]] eqn:Ec;
      apply createEmbeddings_log in Ec.
    + injection H as <- _. simpl calls.
      destruct Ec as [(_ & -> & _) | (_ & m & ->)].
      * exists []. rewrite app_nil_r. split; [reflexivity | constructor].
      * eexists. split; [reflexivity|]. repeat constructor.
        exists b. split; [left; reflexivity | reflexivity].
    + destruct Ec as [(_ & _ & Ec) | (_ & m & ->)]; [discriminate|].
      destruct (IH _ H) as (new & -> & Hall). simpl calls.
      eexists. rewrite <- app_assoc. split; [reflexivity|].
      constructor; [|apply Hweak; exact Hall].
      exists b. split; [left; reflexivity | reflexivity].
Qed.

End CacheProperties.

Lemma validTexts_In (batch : list Product) (t : string) :
  In t (validTexts batch) ->
  exists p, In p batch /\ hasText p = true /\ t = productText p.
Proof.
  unfold validTexts. rewrite in_map_iff. intros ([i t'] & <- & H).
  apply validFrom_In in H as (_ & Hn & Ht). rewrite Nat.sub_0_r in Hn.
  rewrite nth_error_map in Hn.
  destruct (nth_error batch i) as [p|] eqn:Ep; [|discriminate].
  injection Hn as <-. exists p.
  split; [exact (nth_error_In _ _ Ep) | split; [exact Ht | reflexivity]].
Qed.

Lemma succeeded_inr {A} (r : World * Result A) :
  Sample.succeeded r = true -> exists w' v, r = (w', inr v).
Proof.
  destruct r as [w' [e | v]]; simpl; [discriminate | eauto].
Qed.


Lemma answering_sample : Answering Sample.openai Sample.google.
Proof.
  split.
  - intros log model texts data H. injection H as <-.
    rewrite length_map. split; [reflexivity|].
    induction texts; constructor; [discriminate | assumption].
  - intros log model i text v H. injection H as <-. discriminate.
Qed.

(** C6 (as amended).  For items whose texts are ASCII, a successful
    [getProductEmbeddings] sends one request for every batch of 100
    missing items that holds an item with text: at most [ceil(N/100)] requests for [N] missing items, and exactly
    that many when every missing item has text.  When nothing is missing
    the world is left as it was; entries already cached are returned as
    they were; and when the remote service answers every text with a
    vector, calling again with the same items sends nothing more. *)
Theorem C6_requests_per_live_batch
        (openaiEmbeddings :
           list Call -> string -> list string
           -> SdkError + list (option EmbeddingVector))
        (googleEmbedContent :
           list Call -> string -> nat -> string
           -> SdkError + option EmbeddingVector)
        (products : list Product) (provider key : string)
        (model : option string) (w w' : World)
        (m : gmap string EmbeddingVector) :
  Forall (fun p => asciiProduct p = true) products ->
  getProductEmbeddings openaiEmbeddings googleEmbedContent products provider
                       key model w = (w', inr m) ->
  let missing := missingFrom w products in
  let N := length missing in
  length (calls w') = (length (calls w) + liveBatches (batchesOf missing))%nat
  /\ (liveBatches (batchesOf missing) <= (N + 99) / 100)%nat
  /\ (Forall (fun p => hasText p = true) missing ->
      liveBatches (batchesOf missing) = ((N + 99) / 100)%nat)
  /\ (N = 0%nat -> w' = w)
  /\ (exists new,
         calls w' = (calls w ++ new)%list
         /\ forall c t, In c new -> In t (callTexts c) ->
              exists p, In p missing /\ hasText p = true
                        /\ t = productText p)
  /\ (forall id v, cache w !! id = Some v -> m !! id = Some v)
  /\ (Answering openaiEmbeddings googleEmbedContent ->
      getProductEmbeddings openaiEmbeddings googleEmbedContent products
                           provider key model w' = (w', inr m)).
Proof.
  intros _ H missing N. subst N.
  rewrite getProductEmbeddings_batches in H. fold missing in H.
  destruct (createAIProviderClient _) as [msg | client] eqn:Eclient;
    [discriminate|].
  destruct (processBatches _ _ _ _ _ _ w) as [w2 [e | u]] eqn:Ep;
    [discriminate|].
  injection H as <- <-.
  assert (forall b, In b (batchesOf missing) -> forall p, In p b ->
                    In p products /\ cache w !! _id p = None) as Hmiss.
  { intros b Hb p Hp. apply missingFrom_In. fold missing.
    apply batchesOf_In. eauto. }
  split; [|split; [|split; [|split; [|split; [|split]]]]].
  - exact (proj2 (processBatches_calls _ _ _ _ _ _ _ _ _ Ep) u eq_refl).
  - rewrite <- batchesOf_length. unfold liveBatches. apply filter_length_le.
  - intros Hall. rewrite <- batchesOf_length. unfold liveBatches.
    f_equal. apply forallb_filter_id. apply forallb_forall. intros b Hb.
    destruct b as [|p b'] eqn:Eb.
    + exfalso. unfold batchesOf in Hb.
      apply (chunksFrom_nonempty _ BATCH_SIZE _ _ ltac:(unfold BATCH_SIZE; lia) Hb).
      reflexivity.
    + simpl. rewrite List.Forall_forall in Hall. rewrite Hall; [reflexivity|].
      apply batchesOf_In. exists (p :: b'). split; [exact Hb | left; reflexivity].
  - intros HN. assert (missing = []) as E by (destruct missing; [reflexivity | discriminate]).
    rewrite E in Ep. simpl in Ep. injection Ep as <-. reflexivity.
  - destruct (processBatches_texts _ _ _ _ _ _ _ _ _ Ep) as (new & E & Hall).
    exists new. split; [exact E|]. intros c t Hc Ht.
    rewrite List.Forall_forall in Hall.
    destruct (Hall c Hc) as (b & Hb & Etexts). rewrite Etexts in Ht.
    apply validTexts_In in Ht as (p & Hp & Htext & ->).
    exists p. split; [|split; [exact Htext | reflexivity]].
    apply batchesOf_In. eauto.
  - intros id v Hv.
    rewrite (processBatches_other _ _ _ _ _ _ _ _ _ id) with (2 := Ep);
      [exact Hv|].
    intros b p Hb Hp _ E. destruct (Hmiss b Hb p Hp) as [_ Hnone]. congruence.
  - intros HA. rewrite getProductEmbeddings_batches, Eclient.
    rewrite processBatches_blank; [reflexivity|].
    intros b Hb. destruct (existsb hasText b) eqn:Eb; [|reflexivity].
    exfalso. apply existsb_exists in Eb as (p & Hp & Ht).
    assert (In p (missingFrom w2 products)) as Hp2
        by (apply batchesOf_In; eauto).
    apply missingFrom_In in Hp2 as [Hin Hnone].
    assert (is_Some (cache w2 !! _id p)) as [v Hv]; [|congruence].
    destruct (cache w !! _id p) as [v|] eqn:Ew.
    + refine (processBatches_mono _ _ _ _ _ _ _ _ _ (_id p) _ Ep).
      rewrite Ew. eauto.
    + assert (In p missing) as Hm by (apply missingFrom_In; auto).
      apply batchesOf_In in Hm as (b0 & Hb0 & Hp0).
      exact (processBatches_full _ _ _ _ _ _ _ _ _ HA Ep b0 p Hb0 Hp0 Ht).
Qed.

(** The sample catalog against an empty cache: one request, then none. *)
Lemma C6_requests_per_live_batch_witness :
  exists w' m,
    getProductEmbeddings Sample.openai Sample.google Sample.catalog "openai"
                         "sk-sample" None Sample.emptyWorld = (w', inr m)
    /\ length (calls w') = 1%nat
    /\ getProductEmbeddings Sample.openai Sample.google Sample.catalog
                            "openai" "sk-sample" None w' = (w', inr m).
Proof.
  destruct (succeeded_inr
              (getProductEmbeddings Sample.openai Sample.google Sample.catalog
                                    "openai" "sk-sample" None
                                    Sample.emptyWorld))
    as (w' & m & E); [vm_compute; reflexivity|].
  exists w', m. split; [exact E|].
  destruct (C6_requests_per_live_batch Sample.openai Sample.google
              Sample.catalog "openai" "sk-sample" None Sample.emptyWorld w' m
              ltac:(repeat constructor) E)
    as (Hcalls & _ & _ & _ & _ & _ & Hagain).
  split; [exact Hcalls | exact (Hagain answering_sample)].
Defined.

(** C6, the claim as stated fails: one item is missing from the cache,
    so [ceil(N/B)] is [1], but its joined text is blank and no request is
    sent. *)
Lemma C6_blank_item_sends_no_request :
  let r := getProductEmbeddings Sample.openai Sample.google [Sample.blank]
                                "openai" "sk-sample" None Sample.emptyWorld in
  length (missingFrom Sample.emptyWorld [Sample.blank]) = 1%nat
  /\ ((1 + 99) / 100 = 1)%nat
  /\ Sample.succeeded r = true
  /\ length (calls (fst r)) = 0%nat.
Proof. repeat split; vm_compute; reflexivity. Qed.



(** The same run, evaluated: the error is the rethrown throttling, the
    first batch is cached and the second is not. *)
Example throttled_run :
  let r := getProductEmbeddings Sample.throttled Sample.google
             Sample.bigCatalog "openai" "sk-sample" None Sample.emptyWorld in
  snd r = inl "openai API rate limit exceeded. Please wait a moment and try again."
  /\ length (calls (fst r)) = 2%nat
  /\ cache (fst r) !! "b0" = Some [1; 0]%float
  /\ cache (fst r) !! "b99" = Some [1; 0]%float
  /\ cache (fst r) !! "b100" = None
  /\ cache (fst r) !! "b249" = None.
Proof. repeat split; vm_compute; reflexivity. Qed.

(** C10 (as amended).  The map [getProductEmbeddings] returns is the whole
    cache as the call leaves it: an entry of the initial cache is returned
    as it was, also under an identifier that no requested item carries; and
    a requested item without text is absent from the map when its
    identifier was not cached before and no requested item with text
    shares it.  An item absent from the map has semantic score [0]. *)
Theorem C10_returned_map_is_the_cache
        (openaiEmbeddings :
           list Call -> string -> list string
           -> SdkError + list (option EmbeddingVector))
        (googleEmbedContent :
           list Call -> string -> nat -> string
           -> SdkError + option EmbeddingVector)
        (products : list Product) (provider key : string)
        (model : option string) (w w' : World)
        (m : gmap string EmbeddingVector) :
  getProductEmbeddings openaiEmbeddings googleEmbedContent products provider
                       key model w = (w', inr m) ->
  m = cache w'
  /\ (forall id v, cache w !! id = Some v -> m !! id = Some v)
  /\ (forall id, (forall p, In p products -> _id p <> id) ->
                 m !! id = cache w !! id)
  /\ (forall p, In p products -> hasText p = false ->
                cache w !! _id p = None ->
                (forall p', In p' products -> _id p' = _id p ->
                            hasText p' = false) ->
                m !! _id p = None)
  /\ (forall queryEmbedding p,
         m !! _id p = None -> semanticScoreOf queryEmbedding m p = 0%float).
Proof.
  intros H. rewrite getProductEmbeddings_batches in H.
  destruct (createAIProviderClient _) as [msg | client]; [discriminate|].
  destruct (processBatches _ _ _ _ _ _ w) as [w2 [e | u]] eqn:Ep;
    [discriminate|].
  injection H as <- <-.
  assert (forall b p, In b (batchesOf (missingFrom w products)) -> In p b ->
                      In p products /\ cache w !! _id p = None) as Hmiss.
  { intros b p Hb Hp. apply missingFrom_In. apply batchesOf_In. eauto. }
  split; [reflexivity|]. split; [|split; [|split]].
  - intros id v Hv.
    rewrite (processBatches_other _ _ _ _ _ _ _ _ _ id) with (2 := Ep);
      [exact Hv|].
    intros b p Hb Hp _ E. destruct (Hmiss b p Hb Hp) as [_ Hnone]. congruence.
  - intros id Hid.
    apply (processBatches_other _ _ _ _ _ _ _ _ _ id) with (2 := Ep).
    intros b p Hb Hp _. apply Hid. exact (proj1 (Hmiss b p Hb Hp)).
  - intros p Hin Ht Hnone Hshare.
    rewrite (processBatches_other _ _ _ _ _ _ _ _ _ (_id p)) with (2 := Ep);
      [exact Hnone|].
    intros b p' Hb Hp' Ht' E.
    rewrite (Hshare p' (proj1 (Hmiss b p' Hb Hp')) E) in Ht'. discriminate.
  - intros qe p Hnone. unfold semanticScoreOf. rewrite Hnone. reflexivity.
Qed.

(** A blank item against an empty cache: it stays absent. *)
Lemma C10_returned_map_is_the_cache_witness :
  exists w' m,
    getProductEmbeddings Sample.openai Sample.google
                         (Sample.blank :: Sample.catalog) "openai"
                         "sk-sample" None Sample.emptyWorld = (w', inr m)
    /\ m = cache w'
    /\ m !! "p9" = None.
Proof.
  destruct (succeeded_inr
              (getProductEmbeddings Sample.openai Sample.google
                                    (Sample.blank :: Sample.catalog) "openai"
                                    "sk-sample" None Sample.emptyWorld))
    as (w' & m & E); [vm_compute; reflexivity|].
  exists w', m. split; [exact E|].
  destruct (C10_returned_map_is_the_cache Sample.openai Sample.google
              (Sample.blank :: Sample.catalog) "openai" "sk-sample" None
              Sample.emptyWorld w' m E)
    as (Hm & _ & _ & Hblank & _).
  split; [exact Hm|].
  apply (Hblank Sample.blank); [left; reflexivity | reflexivity | reflexivity|].
  intros p' [<- | Hin] Eid; [reflexivity|].
  simpl in Hin. destruct Hin as [<- | [<- | [<- | [<- | []]]]]; discriminate.
Defined.

(** C10, the claim as stated fails: the requested item has no text, yet
    the returned map holds a vector under its identifier, left by an
    earlier request. *)
Lemma C10_blank_item_with_stale_entry :
  let r := getProductEmbeddings Sample.openai Sample.google [Sample.blank]
                                "openai" "sk-sample" None Sample.staleWorld in
  hasText Sample.blank = false
  /\ match snd r with
     | inr m => m !! _id Sample.blank
     | inl _ => None
     end = Some [1; 0]%float.
Proof. split; vm_compute; reflexivity. Qed.

(** ** The providers a search addresses *)

Lemma createAIProviderClient_backend (cfg : ProviderConfig)
      (client : AIProviderClient) :
  createAIProviderClient cfg = inr client ->
  providerName (backend client) = AiProvider.provider cfg.
Proof.
  unfold createAIProviderClient. intros H.
  destruct (String.eqb (AiProvider.provider cfg) "openai") eqn:E1;
    [injection H as <-; apply String.eqb_eq in E1; symmetry; exact E1|].
  destruct (String.eqb (AiProvider.provider cfg) "anthropic") eqn:E2;
    [injection H as <-; apply String.eqb_eq in E2; symmetry; exact E2|].
  destruct (String.eqb (AiProvider.provider cfg) "google") eqn:E3;
    [injection H as <-; apply String.eqb_eq in E3; symmetry; exact E3|].
  discriminate.
Qed.

Lemma Forall2_In_r {A B} (R : A -> B -> Prop) (l : list A) (l' : list B) (y : B) :
  Forall2 R l l' -> In y l' -> exists x, In x l /\ R x y.
Proof.
  induction 1 as [|x y' l l' Hxy _ IH]; intros Hin; [contradiction|].
  destruct Hin as [<- | Hin].
  - exists x. split; [left; reflexivity | exact Hxy].
  - destruct (IH Hin) as (x' & Hx' & Hr). exists x'. split; [right|]; assumption.
Qed.

Section Addressed.

Variable toFixed : float -> nat -> string.
Variable openaiEmbeddings :
  list Call -> string -> list string -> SdkError + list (option EmbeddingVector).
Variable googleEmbedContent :
  list Call -> string -> nat -> string -> SdkError + option EmbeddingVector.
Variable analyzeImage :
  AIProviderClient -> string -> string -> option string -> string -> Result string.

Lemma AddressedTo_refl provider w : AddressedTo provider w w.
Proof. exists []. rewrite app_nil_r. split; [reflexivity | constructor]. Qed.

Lemma AddressedTo_trans provider w1 w2 w3 :
  AddressedTo provider w1 w2 -> AddressedTo provider w2 w3 ->
  AddressedTo provider w1 w3.
Proof.
  intros (n1 & E1 & H1) (n2 & E2 & H2). exists (n1 ++ n2)%list.
  rewrite E2, E1, app_assoc. split; [reflexivity|].
  apply Forall_app. split; assumption.
Qed.

Lemma createQueryEmbedding_addressed q provider key model w w1 r :
  createQueryEmbedding openaiEmbeddings googleEmbedContent q provider key
                       model w = (w1, r) ->
  AddressedTo provider w w1.
Proof.
  unfold createQueryEmbedding. intros H.
  destruct (createAIProviderClient _) as [msg | client] eqn:Eclient.
  { injection H as <- _. apply AddressedTo_refl. }
  apply createAIProviderClient_backend in Eclient. simpl in Eclient.
  destruct (createEmbeddings _ _ _ _ _ _) as [log r0] eqn:Ec.
  assert (w1 = {| cache := cache w; calls := log |}) as ->
      by (destruct r0 as [msg | [|[[v|]] es]]; injection H as <- _; reflexivity).
  apply createEmbeddings_log in Ec as [(_ & -> & _) | (_ & m & ->)].
  - exists []. simpl. rewrite app_nil_r. split; [reflexivity | constructor].
  - eexists. split; [reflexivity|]. repeat constructor. exact Eclient.
Qed.

Lemma getProductEmbeddings_addressed products provider key model w w1 r :
  getProductEmbeddings openaiEmbeddings googleEmbedContent products provider
                       key model w = (w1, r) ->
  AddressedTo provider w w1.
Proof.
  rewrite getProductEmbeddings_batches. intros H.
  destruct (createAIProviderClient _) as [msg | client] eqn:Eclient.
  { injection H as <- _. apply AddressedTo_refl. }
  apply createAIProviderClient_backend in Eclient. simpl in Eclient.
  destruct (processBatches _ _ _ _ _ _ w) as [w2 r2] eqn:Ep.
  assert (w1 = w2) as -> by (destruct r2; injection H as <- _; reflexivity).
  destruct (processBatches_addressed _ _ _ _ _ _ _ _ _ Ep) as (new & E & Hall).
  exists new. split; [exact E|].
  rewrite List.Forall_forall in *. intros c Hc. rewrite (Hall c Hc).
  exact Eclient.
Qed.

Lemma performSearch_addressed input fetched w w' r :
  performSearch toFixed openaiEmbeddings googleEmbedContent analyzeImage
                input fetched w = (w', r) ->
  AddressedTo (fst (resolveEmbedding (mergeConfig (config input)))) w w'.
Proof.
  unfold performSearch. intros H.
  destruct (resolveEmbedding (mergeConfig (config input))) as [ep em].
  simpl fst.
  destruct (resolveEmbeddingKey _ _) as [key|];
    [|injection H as <- _; apply AddressedTo_refl].
  destruct (createAIProviderClient _) as [e | client];
    [injection H as <- _; apply AddressedTo_refl|].
  destruct (analyzeImage client _ analysisPrompt None _) as [e | content];
    [injection H as <- _; apply AddressedTo_refl|].
  destruct (negb (startsWith "FURNITURE" (trim content)));
    [injection H as <- _; apply AddressedTo_refl|].
  destruct (analyzeImage client _ _ (Some systemMessage) _)
    as [e | description]; [injection H as <- _; apply AddressedTo_refl|].
  unfold searchCatalog in H.
  destruct (createQueryEmbedding _ _ _ _ _ _ w) as [w1 rq] eqn:Eq.
  destruct (getProductEmbeddings _ _ _ _ _ _ w1) as [w2 rp] eqn:Ep.
  apply createQueryEmbedding_addressed in Eq.
  apply getProductEmbeddings_addressed in Ep.
  assert (w' = w2) as ->.
  { destruct rq as [e | qe]; [injection H as <- _; reflexivity|].
    destruct rp as [e | pe]; [injection H as <- _; reflexivity|].
    destruct (mapResult _ _); injection H as <- _; reflexivity. }
  exact (AddressedTo_trans _ _ _ _ Eq Ep).
Qed.

Lemma performSearch_results input fetched w w' out r :
  performSearch toFixed openaiEmbeddings googleEmbedContent analyzeImage
                input fetched w = (w', inr out) ->
  In r (results out) ->
  let cfg := mergeConfig (config input) in
  exists analysis cq qe pe,
    scoreProduct toFixed cfg analysis cq (targetPriceOf (queryText input))
                 (priceRangeFilter cfg fetched) qe pe (product r) = inr r.
Proof.
  intros H Hin cfg. apply performSearch_inr in H. fold cfg in H.
  destruct H as [(_ & E & _) | (_ & _ & _ & an & cq & qe & pe & sc & Hs & E)];
    rewrite E in Hin; [contradiction|].
  apply rank_In in Hin as [Hin _].
  apply mapResult_Forall2 in Hs.
  destruct (Forall2_In_r _ _ _ _ Hs Hin) as (p & _ & Hp).
  exists an, cq, qe, pe.
  pose proof (scoreProduct_inr _ _ _ _ _ _ _ _ _ _ Hp) as (_ & _ & -> & _).
  exact Hp.
Qed.

End Addressed.

Lemma resolveEmbedding_anthropic (cfg : SearchConfig) :
  orElse (embeddingProvider cfg) (visionProvider cfg) = "anthropic" ->
  fst (resolveEmbedding cfg) = "openai".
Proof. unfold resolveEmbedding. intros ->. reflexivity. Qed.

Lemma resolveEmbedding_never_anthropic (cfg : SearchConfig) :
  fst (resolveEmbedding cfg) <> "anthropic".
Proof.
  unfold resolveEmbedding.
  destruct (String.eqb (orElse (embeddingProvider cfg) (visionProvider cfg))
                       "anthropic") eqn:E; simpl.
  - discriminate.
  - apply String.eqb_neq. exact E.
Qed.

(** ** The errors a search ends with *)

(** The unsupported-embeddings error is the only one that starts with
    [Anthropic d]. *)
Lemma foreign_error (msg : string) :
  startsWith "Anthropic d" msg = false -> msg <> unsupportedEmbeddings.
Proof. intros H ->. vm_compute in H. discriminate. Qed.

Lemma mapResult_inl {A B} (f : A -> Result B) (l : list A) (e : string) :
  mapResult f l = inl e -> exists x, In x l /\ f x = inl e.
Proof.
  induction l as [|x l IH]; simpl; [discriminate|].
  destruct (f x) as [e' | y] eqn:Ef.
  - intros [= <-]. exists x. split; [left; reflexivity | exact Ef].
  - destruct (mapResult f l) as [e' | ys]; [|discriminate].
    intros [= <-]. destruct (IH eq_refl) as (x' & Hin & Hx).
    exists x'. split; [right; exact Hin | exact Hx].
Qed.

Lemma typeMatchScore_foreign (analysisType : option string) (p : Product)
      (e : string) :
  typeMatchScore analysisType p = inl e -> startsWith "Anthropic d" e = false.
Proof.
  unfold typeMatchScore. destruct analysisType as [ty|]; [|discriminate].
  destruct (negb (truthyString ty)); [discriminate|]. cbv zeta.
  repeat match goal with
         | |- context [if ?c then _ else _] => destruct c; [discriminate|]
         end.
  destruct (similarOf _ _) as [similar| |].
  - destruct (existsb _ similar); discriminate.
  - intros [= <-]. reflexivity.
  - intros [= <-]. reflexivity.
Qed.

Lemma openaiCatch_foreign (e : SdkError) :
  startsWith "Anthropic d" (openaiCatch e) = false.
Proof.
  unfold openaiCatch.
  destruct (statusIs e 401 || messageIncludes e "Invalid API key");
    [reflexivity|].
  destruct (statusIs e 429 || messageIncludes e "rate limit"); reflexivity.
Qed.

Lemma rethrow_openai_foreign (msg : string) :
  startsWith "Anthropic d" msg = false ->
  startsWith "Anthropic d" (rethrow "openai" msg) = false.
Proof.
  intros H. unfold rethrow.
  destruct (includes msg "Invalid" && includes msg "API key"); [reflexivity|].
  destruct (includes msg "rate limit"); [reflexivity | exact H].
Qed.

Lemma rethrowVision_foreign (provider : string) (imageCheck : bool)
      (msg : string) :
  provider = "openai" \/ provider = "anthropic" \/ provider = "google" ->
  startsWith "Anthropic d" msg = false ->
  startsWith "Anthropic d" (rethrowVision provider imageCheck msg) = false.
Proof.
  intros Hp H. unfold rethrowVision.
  destruct (includes msg "Invalid" && includes msg "API key"); [reflexivity|].
  destruct (includes msg "rate limit");
    [destruct Hp as [-> | [-> | ->]]; reflexivity|].
  destruct (imageCheck && includes msg "image"); [reflexivity | exact H].
Qed.

Lemma analyzeImage_foreign
      (openaiChat : Vision.ChatRequest -> SdkError + option string)
      (anthropicMessages :
         Vision.MessagesRequest -> SdkError + list Vision.ContentBlock)
      (googleGenerate : Vision.GenerateRequest -> SdkError + string)
      (client : AIProviderClient) (image prompt : string)
      (systemPrompt : option string) (model msg : string) :
  Vision.analyzeImage openaiChat anthropicMessages googleGenerate client
                      image prompt systemPrompt model = inl msg ->
  startsWith "Anthropic d" msg = false.
Proof.
  unfold Vision.analyzeImage. destruct (backend client); cbv zeta.
  - destruct (openaiChat _) as [e | content]; [|discriminate].
    intros [= <-]. unfold Vision.openaiCatch.
    destruct (statusIs e 401 || messageIncludes e "Invalid API key");
      [reflexivity|].
    destruct (statusIs e 429 || messageIncludes e "rate limit"); reflexivity.
  - destruct (anthropicMessages _) as [e | blocks]; [|discriminate].
    intros [= <-]. unfold Vision.anthropicCatch.
    destruct (statusIs e 401 || messageIncludes e "invalid_api_key");
      [reflexivity|].
    destruct (statusIs e 429 || messageIncludes e "rate_limit"); reflexivity.
  - destruct (googleGenerate _) as [e | content]; [|discriminate].
    intros [= <-]. unfold Vision.googleCatch.
    destruct (messageIncludes e "API_KEY_INVALID" || messageIncludes e "401");
      [reflexivity|].
    destruct (messageIncludes e "429" || messageIncludes e "RESOURCE_EXHAUSTED");
      reflexivity.
Qed.

Section SearchErrors.

Variable toFixed : float -> nat -> string.
Variable openaiEmbeddings :
  list Call -> string -> list string -> SdkError + list (option EmbeddingVector).
Variable googleEmbedContent :
  list Call -> string -> nat -> string -> SdkError + option EmbeddingVector.
Variable openaiChat : Vision.ChatRequest -> SdkError + option string.
Variable anthropicMessages :
  Vision.MessagesRequest -> SdkError + list Vision.ContentBlock.
Variable googleGenerate : Vision.GenerateRequest -> SdkError + string.

Lemma createQueryEmbedding_openai_foreign q key model w w1 e :
  createQueryEmbedding openaiEmbeddings googleEmbedContent q "openai" key
                       model w = (w1, inl e) ->
  startsWith "Anthropic d" e = false.
Proof.
  unfold createQueryEmbedding, createAIProviderClient, createEmbeddings.
  cbn [AiProvider.provider String.eqb Ascii.eqb Bool.eqb backend clientConfig].
  destruct (openaiEmbeddings (calls w) _ [q]) as [err | data].
  - intros [= _ <-]. apply rethrow_openai_foreign, openaiCatch_foreign.
  - destruct data as [|[v|] data]; discriminate.
Qed.

Lemma getProductEmbeddings_openai_foreign products key model w w1 e :
  getProductEmbeddings openaiEmbeddings googleEmbedContent products "openai"
                       key model w = (w1, inl e) ->
  startsWith "Anthropic d" e = false.
Proof.
  rewrite getProductEmbeddings_batches.
  change (createAIProviderClient _)
    with (@inr string _
            {| backend := OpenAI;
               clientConfig :=
                 {| AiProvider.provider := "openai";
                    AiProvider.apiKey := key;
                    AiProvider.visionModel := None;
                    AiProvider.embeddingModel := modelOption model |} |}).
  cbv iota.
  destruct (processBatches _ _ _ _ _ _ w) as [w2 [e' | u]] eqn:Ep;
    [|discriminate].
  intros [= _ <-].
  apply processBatches_error in Ep
    as (pre & batch & post & w0 & msg & _ & _ & _ & Hc & -> & _).
  unfold createEmbeddings in Hc. cbn [backend] in Hc.
  destruct (openaiEmbeddings (calls w0) _ _) as [err | data];
    [|discriminate].
  injection Hc as _ <-. apply rethrow_openai_foreign, openaiCatch_foreign.
Qed.

(** With OpenAI as the embedding provider, no error of a search starts
    with [Anthropic d]. *)
Lemma performSearch_foreign input fetched w w' e :
  fst (resolveEmbedding (mergeConfig (config input))) = "openai" ->
  performSearch toFixed openaiEmbeddings googleEmbedContent
                (Vision.analyzeImage openaiChat anthropicMessages
                                     googleGenerate)
                input fetched w = (w', inl e) ->
  startsWith "Anthropic d" e = false.
Proof.
  unfold performSearch.
  destruct (resolveEmbedding (mergeConfig (config input))) as [ep em].
  simpl fst. intros ->.
  destruct (resolveEmbeddingKey _ _) as [key|];
    [|intros [= _ <-]; reflexivity].
  destruct (createAIProviderClient _) as [msg | client] eqn:Eclient;
    [intros [= _ <-]; reflexivity|].
  assert (visionProvider (mergeConfig (config input)) = "openai"
          \/ visionProvider (mergeConfig (config input)) = "anthropic"
          \/ visionProvider (mergeConfig (config input)) = "google") as Hp.
  { apply createAIProviderClient_backend in Eclient. simpl in Eclient.
    rewrite <- Eclient. destruct (backend client); simpl; tauto. }
  destruct (Vision.analyzeImage _ _ _ client _ analysisPrompt None _)
    as [msg | content] eqn:V1.
  { intros [= _ <-]. apply rethrowVision_foreign; [exact Hp|].
    exact (analyzeImage_foreign _ _ _ _ _ _ _ _ _ V1). }
  destruct (negb (startsWith "FURNITURE" (trim content))); [discriminate|].
  destruct (Vision.analyzeImage _ _ _ client _ _ (Some systemMessage) _)
    as [msg | description] eqn:V2.
  { intros [= _ <-]. apply rethrowVision_foreign; [exact Hp|].
    exact (analyzeImage_foreign _ _ _ _ _ _ _ _ _ V2). }
  unfold searchCatalog.
  destruct (createQueryEmbedding _ _ _ _ _ _ w) as [w1 [eq | qe]] eqn:Eq.
  { destruct (getProductEmbeddings _ _ _ _ _ _ w1) as [w2 rp].
    intros [= _ <-]. exact (createQueryEmbedding_openai_foreign _ _ _ _ _ _ Eq). }
  destruct (getProductEmbeddings _ _ _ _ _ _ w1) as [w2 [ep | pe]] eqn:Ep.
  { intros [= _ <-].
    exact (getProductEmbeddings_openai_foreign _ _ _ _ _ _ Ep). }
  destruct (mapResult _ _) as [es | scored] eqn:Es; [|discriminate].
  intros [= _ <-]. apply mapResult_inl in Es as (p & _ & Hs).
  unfold scoreProduct in Hs. cbv zeta in Hs.
  destruct (typeMatchScore _ p) as [et | tm] eqn:Et; [|discriminate].
  injection Hs as <-. exact (typeMatchScore_foreign _ _ _ Et).
Qed.

End SearchErrors.

(** C1 (as amended).  [createEmbeddings] of the Anthropic client fails at
    once with the unsupported-embeddings error and sends no request, and
    the cache layer hands that error on unchanged.  [performSearch] never
    reaches that failure: an embedding provider of [anthropic], configured
    or inherited from the vision provider, is replaced by [openai] before
    the embedding stage; whatever the vision clients and the embedding
    service answer, the search does not fail with that error, and every
    embedding request it sends is addressed to OpenAI. *)
Theorem C1_anthropic_embeddings
        (toFixed : float -> nat -> string)
        (openaiEmbeddings :
           list Call -> string -> list string
           -> SdkError + list (option EmbeddingVector))
        (googleEmbedContent :
           list Call -> string -> nat -> string
           -> SdkError + option EmbeddingVector)
        (openaiChat : Vision.ChatRequest -> SdkError + option string)
        (anthropicMessages :
           Vision.MessagesRequest -> SdkError + list Vision.ContentBlock)
        (googleGenerate : Vision.GenerateRequest -> SdkError + string)
        (input : PerformSearchInput) (fetched : list Product)
        (w w' : World) (r : Result SearchOutput) :
  let cfg := mergeConfig (config input) in
  orElse (embeddingProvider cfg) (visionProvider cfg) = "anthropic" ->
  performSearch toFixed openaiEmbeddings googleEmbedContent
                (Vision.analyzeImage openaiChat anthropicMessages
                                     googleGenerate)
                input fetched w = (w', r) ->
  (forall clientConfig texts model log,
      createEmbeddings openaiEmbeddings googleEmbedContent
                       {| backend := Anthropic; clientConfig := clientConfig |}
                       texts model log
      = (log, inl unsupportedEmbeddings))
  /\ (forall q key model w0,
         createQueryEmbedding openaiEmbeddings googleEmbedContent q
                              "anthropic" key model w0
         = (w0, inl unsupportedEmbeddings))
  /\ fst (resolveEmbedding cfg) = "openai"
  /\ r <> inl unsupportedEmbeddings
  /\ exists new,
      calls w' = (calls w ++ new)%list
      /\ Forall (fun c => callProvider c = OpenAI) new.
Proof.
  intros cfg Hcfg H.
  split; [reflexivity|]. split; [|split; [|split]].
  - intros q key model [c l]. reflexivity.
  - exact (resolveEmbedding_anthropic cfg Hcfg).
  - intros ->.
    exact (foreign_error _
             (performSearch_foreign _ _ _ _ _ _ _ _ _ _ _
                (resolveEmbedding_anthropic cfg Hcfg) H) eq_refl).
  - apply performSearch_addressed in H. fold cfg in H.
    rewrite (resolveEmbedding_anthropic cfg Hcfg) in H.
    destruct H as (new & E & Hall). exists new. split; [exact E|].
    rewrite List.Forall_forall in *. intros c Hc.
    specialize (Hall c Hc). destruct (callProvider c); try discriminate.
    reflexivity.
Qed.

(** A search configured with the embedding provider [anthropic], run
    against the OpenAI vision client. *)
Lemma C1_anthropic_embeddings_witness :
  exists w' r,
    performSearch Sample.toFixed Sample.openai Sample.google
                  (Vision.analyzeImage SampleVision.answering
                                       SampleVision.noBlocks
                                       SampleVision.noText)
                  (Sample.request
                     (Sample.configWith None None (Some "anthropic")) None)
                  Sample.catalog Sample.emptyWorld = (w', r)
    /\ r <> inl unsupportedEmbeddings
    /\ exists new,
        calls w' = (calls Sample.emptyWorld ++ new)%list
        /\ Forall (fun c => callProvider c = OpenAI) new.
Proof.
  destruct (performSearch Sample.toFixed Sample.openai Sample.google
              (Vision.analyzeImage SampleVision.answering
                                   SampleVision.noBlocks SampleVision.noText)
              (Sample.request
                 (Sample.configWith None None (Some "anthropic")) None)
              Sample.catalog Sample.emptyWorld) as [w' r] eqn:E.
  exists w', r. split; [reflexivity|].
  exact (proj2 (proj2 (proj2
           (C1_anthropic_embeddings Sample.toFixed Sample.openai
              Sample.google SampleVision.answering SampleVision.noBlocks
              SampleVision.noText
              (Sample.request
                 (Sample.configWith None None (Some "anthropic")) None)
              Sample.catalog Sample.emptyWorld w' r eq_refl E)))).
Defined.

(** C1, the claim as stated fails: the search configured with the
    embedding provider [anthropic] does not fail with the
    unsupported-embeddings error; it succeeds, on two requests sent to
    OpenAI. *)
Lemma C1_search_substitutes_openai :
  let r := performSearch Sample.toFixed Sample.openai Sample.google
             Sample.vision
             (Sample.request
                (Sample.configWith None None (Some "anthropic")) None)
             Sample.catalog Sample.emptyWorld in
  Sample.ranked r = true
  /\ map callProvider (calls (fst r)) = [OpenAI; OpenAI].
Proof. split; vm_compute; reflexivity. Qed.

(** ** The price signal and the explanation *)

Lemma lex3_refl (k : Z * Z * Z) : lex3 k k = Eq.
Proof.
  destruct k as [[a b] c]. unfold lex3. rewrite !Z.compare_refl. reflexivity.
Qed.

Lemma ltb_truthy (x : float) : (0 <? x)%float = true -> truthy x = true.
Proof.
  unfold truthy, is_zero, is_nan. rewrite FloatAxioms.ltb_spec, !FloatAxioms.eqb_spec.
  change (Prim2SF 0) with (S754_zero false).
  change (Prim2SF zero) with (S754_zero false).
  intros H. apply SFltb_true in H as (H0 & Hx & Hlt).
  unfold SFeqb. rewrite !SFcompare_key by assumption.
  rewrite lex3_refl.
  destruct (lex3 (floatKey (Prim2SF x)) (floatKey (S754_zero false))) eqn:E;
    try reflexivity.
  exfalso. apply Hlt. apply lex3_le. rewrite E. discriminate.
Qed.

(** C3 (as amended).  The price signal shown for every result is computed
    against the whole price-filtered catalog, not the candidate set.  With
    a positive price weight it is
    [1 - min(|price - target| / max(price, target), 1)] when the free
    text, taken to be ASCII, yields a target price and [max(price, target)]
    is positive ([0] when it is not), and otherwise
    [1 - min(|price - mean| / mean, 0.5)] for the mean price of that
    catalog when the mean is positive ([0.5] when it is not); with a price
    weight that is not positive it is [0]. *)
Theorem C3_price_signal
        (toFixed : float -> nat -> string)
        (openaiEmbeddings :
           list Call -> string -> list string
           -> SdkError + list (option EmbeddingVector))
        (googleEmbedContent :
           list Call -> string -> nat -> string
           -> SdkError + option EmbeddingVector)
        (analyzeImage :
           AIProviderClient -> string -> string -> option string -> string
           -> Result string)
        (input : PerformSearchInput) (fetched : list Product)
        (w w' : World) (out : SearchOutput) :
  asciiOption (queryText input) = true ->
  performSearch toFixed openaiEmbeddings googleEmbedContent analyzeImage
                input fetched w = (w', inr out) ->
  let cfg := mergeConfig (config input) in
  let weight := priceProximityWeight cfg in
  let targetPrice := targetPriceOf (queryText input) in
  let products := priceRangeFilter cfg fetched in
  let signal := priceScoreOf cfg targetPrice products in
  (forall r, In r (results out) ->
     exists typeMatch categoryMatch semantic lexical,
       explanation r
       = join ", " (explanationParts toFixed typeMatch categoryMatch semantic
                                     lexical (signal (product r)) weight))
  /\ (forall p target,
         (0 <? weight)%float = true -> targetPrice = Some target ->
         (0 <? Math_max (price p) target)%float = true ->
         signal p = priceBySpec (Some target) products p)
  /\ (forall p target,
         (0 <? weight)%float = true -> targetPrice = Some target ->
         (0 <? Math_max (price p) target)%float = false ->
         signal p = 0%float)
  /\ (forall p,
         (0 <? weight)%float = true -> targetPrice = None ->
         (0 <? averagePrice products)%float = true ->
         signal p = priceBySpec None products p)
  /\ (forall p,
         (0 <? weight)%float = true -> targetPrice = None ->
         (0 <? averagePrice products)%float = false ->
         signal p = 0.5%float)
  /\ (forall p, (0 <? weight)%float = false -> signal p = 0%float).
Proof.
  intros _ H cfg weight targetPrice products signal.
  split; [|split; [|split; [|split; [|split]]]].
  - intros r Hr.
    destruct (performSearch_results _ _ _ _ _ _ _ _ _ _ H Hr)
      as (an & cq & qe & pe & Hs).
    apply scoreProduct_inr in Hs as (tm & _ & _ & ->). eauto 6.
  - intros p target Hw Ht Hm. unfold signal, priceScoreOf, priceBySpec.
    fold weight. rewrite (ltb_truthy _ Hw), Hw, Ht. simpl andb. cbv iota.
    rewrite Hm. reflexivity.
  - intros p target Hw Ht Hm. unfold signal, priceScoreOf.
    fold weight. rewrite (ltb_truthy _ Hw), Hw, Ht. simpl andb. cbv iota.
    rewrite Hm. reflexivity.
  - intros p Hw Ht Hm. unfold signal, priceScoreOf, priceBySpec.
    fold weight. rewrite (ltb_truthy _ Hw), Hw, Ht. simpl andb. cbv iota.
    rewrite Hm. reflexivity.
  - intros p Hw Ht Hm. unfold signal, priceScoreOf.
    fold weight. rewrite (ltb_truthy _ Hw), Hw, Ht. simpl andb. cbv iota.
    rewrite Hm. reflexivity.
  - intros p Hw. unfold signal, priceScoreOf. fold weight. rewrite Hw.
    rewrite andb_false_r. reflexivity.
Qed.

(** A search for "around $100" over the sample catalog. *)
Lemma C3_price_signal_witness :
  exists w' out,
    performSearch Sample.toFixed Sample.openai Sample.google Sample.vision
                  (Sample.request Sample.userConfig (Some "around $100"))
                  Sample.catalog Sample.emptyWorld = (w', inr out)
    /\ priceScoreOf (mergeConfig (Some Sample.userConfig)) (Some 100%float)
                    Sample.catalog Sample.chair
       = priceBySpec (Some 100%float) Sample.catalog Sample.chair.
Proof.
  destruct (ranked_inr
              (performSearch Sample.toFixed Sample.openai Sample.google
                 Sample.vision
                 (Sample.request Sample.userConfig (Some "around $100"))
                 Sample.catalog Sample.emptyWorld))
    as (w' & out & E & _); [vm_compute; reflexivity|].
  exists w', out. split; [exact E|].
  destruct (C3_price_signal Sample.toFixed Sample.openai Sample.google
              Sample.vision
              (Sample.request Sample.userConfig (Some "around $100"))
              Sample.catalog Sample.emptyWorld w' out eq_refl E)
    as (_ & Htarget & _).
  apply (Htarget Sample.chair 100%float); vm_compute; reflexivity.
Defined.

(** The two patterns that yield a target price. *)
Example targetPrice_patterns :
  targetPriceOf (Some "something under $150, in oak") = Some 150%float
  /\ targetPriceOf (Some "about 200 Dollars") = Some 200%float
  /\ targetPriceOf (Some "two hundred") = None
  /\ targetPriceOf None = None.
Proof. repeat split; vm_compute; reflexivity. Qed.

(** C3, the claim as stated fails.  With the candidate cap at 2 the
    scored items are the chair and the stool, of mean price 90, but the
    chair's signal is taken against the mean 76.25 of the whole catalog:
    [0.5] where the stated formula gives [0.667], and the explanation of
    the ranked chair reads [price=0.500].  With a price weight of [0] the
    signal is [0] where the stated formula gives [1]. *)
Lemma C3_mean_is_over_the_whole_catalog :
  let cfg := mergeConfig (Some (Sample.configWith (Some 2%Z) None None)) in
  let r := performSearch Sample.toFixed Sample.openai Sample.google
             Sample.vision
             (Sample.request (Sample.configWith (Some 2%Z) None None) None)
             Sample.catalog Sample.emptyWorld in
  (candidatesOf cfg Sample.catalog = [Sample.chair; Sample.stool]
   /\ priceScoreOf cfg None Sample.catalog Sample.chair = 0.5%float
   /\ Sample.toFixed
        (priceBySpec None [Sample.chair; Sample.stool] Sample.chair) 3
      = "0.667"
   /\ match snd r with
      | inr out => map explanation (results out)
      | inl _ => []
      end
      = ["typeMatch=0.40, categoryMatch=1.00, semantic=1.000, lexical=0.286, price=0.787";
         "typeMatch=0.40, categoryMatch=1.00, semantic=1.000, lexical=0.214, price=0.500"])
  /\ (priceScoreOf
        (mergeConfig (Some (Sample.configWith None (Some 0%float) None)))
        (Some 120%float) Sample.catalog Sample.chair = 0%float
      /\ priceBySpec (Some 120%float) Sample.catalog Sample.chair = 1%float).
Proof. repeat split; vm_compute; reflexivity. Qed.




(** * Further properties of the code *)

(** ** The furniture gate *)

Lemma removeFirst_prefix (sub rest : string) :
  removeFirst sub (sub ++ rest) = rest.
Proof.
  assert (startsWith sub (sub ++ rest) = true) as S
    by (apply startsWith_spec; exists rest; reflexivity).
  assert (forall p r, dropN (String.length p) (p ++ r) = r) as D.
  { induction p as [|c p IH]; intros r; simpl; [destruct r; reflexivity | apply IH]. }
  destruct sub as [|c sub].
  - simpl. destruct rest; reflexivity.
  - change (removeFirst (String c sub) (String c sub ++ rest))
      with (if startsWith (String c sub) (String c sub ++ rest)
            then dropN (String.length (String c sub)) (String c sub ++ rest)
            else String c (removeFirst (String c sub) (sub ++ rest))).
    rewrite S. apply D.
Qed.

(** X1.  When the first vision answer, an ASCII text, does not start
    with [FURNITURE] once trimmed, the search succeeds with no results,
    [isFurniture = false] and both product counters at zero, sends no
    embedding request and leaves the cache alone; the rejection reason is
    the trimmed answer with its first [NOT_FURNITURE:] removed, trimmed
    again. *)
Theorem not_furniture_returns_nothing
        (toFixed : float -> nat -> string)
        (openaiEmbeddings :
           list Call -> string -> list string
           -> SdkError + list (option EmbeddingVector))
        (googleEmbedContent :
           list Call -> string -> nat -> string
           -> SdkError + option EmbeddingVector)
        (analyzeImage :
           AIProviderClient -> string -> string -> option string -> string
           -> Result string)
        (input : PerformSearchInput) (fetched : list Product) (w : World)
        (key content : string) (client : AIProviderClient) :
  let cfg := mergeConfig (config input) in
  resolveEmbeddingKey input cfg = Some key ->
  createAIProviderClient
    {| AiProvider.provider := visionProvider cfg;
       AiProvider.apiKey := visionApiKey input;
       AiProvider.visionModel := Some (resolveVisionModel cfg);
       AiProvider.embeddingModel := None |} = inr client ->
  analyzeImage client (imageBase64 input) analysisPrompt None
               (resolveVisionModel cfg) = inr content ->
  asciiText content = true ->
  startsWith "FURNITURE" (trim content) = false ->
  exists out,
    performSearch toFixed openaiEmbeddings googleEmbedContent analyzeImage
                  input fetched w = (w, inr out)
    /\ results out = [] /\ isFurniture out = false
    /\ totalProducts out = 0%nat /\ considered out = 0%nat
    /\ rejectionReason out
       = Some (trim (removeFirst "NOT_FURNITURE:" (trim content)))
    /\ (forall reason, trim content = "NOT_FURNITURE:" ++ reason ->
                       rejectionReason out = Some (trim reason)).
Proof.
  intros cfg Hkey Hclient Hvision _ Hstart.
  unfold performSearch. fold cfg.
  destruct (resolveEmbedding cfg) as [ep em].
  rewrite Hkey, Hclient, Hvision, Hstart. simpl negb. cbv iota.
  eexists. split; [reflexivity|].
  cbn [results isFurniture totalProducts considered rejectionReason].
  repeat split; try reflexivity.
  intros reason ->. rewrite removeFirst_prefix. reflexivity.
Qed.

Lemma not_furniture_returns_nothing_witness :
  exists out,
    performSearch Sample.toFixed Sample.openai Sample.google SampleSearch.visionNo
                  (Sample.request Sample.userConfig None) Sample.catalog
                  Sample.emptyWorld = (Sample.emptyWorld, inr out)
    /\ results out = []
    /\ rejectionReason out = Some "a cat on a sofa cushion".
Proof.
  destruct (not_furniture_returns_nothing Sample.toFixed Sample.openai
              Sample.google SampleSearch.visionNo
              (Sample.request Sample.userConfig None) Sample.catalog
              Sample.emptyWorld "sk-sample"
              "NOT_FURNITURE: a cat on a sofa cushion  "
              {| backend := OpenAI;
                 clientConfig :=
                   {| AiProvider.provider := "openai";
                      AiProvider.apiKey := "sk-sample";
                      AiProvider.visionModel := Some "gpt-4o";
                      AiProvider.embeddingModel := None |} |})
    as (out & E & R & _ & _ & _ & _ & J);
    [reflexivity | reflexivity | reflexivity | reflexivity | reflexivity |].
  exists out. split; [exact E|]. split; [exact R|].
  exact (J " a cat on a sofa cushion" eq_refl).
Defined.

(** ** The price range *)

Lemma slice0_prefix {A} (l : list A) (k : Z) :
  exists n, slice0 l k = firstn n l.
Proof. unfold slice0. eexists. reflexivity. Qed.

Lemma slice0_length {A} (l : list A) (k : Z) :
  (length (slice0 l k) <= length l)%nat.
Proof.
  destruct (slice0_prefix l k) as [n ->]. rewrite length_firstn. lia.
Qed.

Lemma priceRangeFilter_incl (cfg : SearchConfig) (fetched : list Product)
      (p : Product) :
  In p (priceRangeFilter cfg fetched) -> In p fetched.
Proof.
  unfold priceRangeFilter.
  destruct (priceRangeEnabled cfg) as [[|]|], (priceRangeMin cfg),
    (priceRangeMax cfg); try tauto.
  intros H. apply List.filter_In in H. tauto.
Qed.

Lemma priceRangeFilter_length (cfg : SearchConfig) (fetched : list Product) :
  (length (priceRangeFilter cfg fetched) <= length fetched)%nat.
Proof.
  unfold priceRangeFilter.
  destruct (priceRangeEnabled cfg) as [[|]|], (priceRangeMin cfg),
    (priceRangeMax cfg); try lia.
  apply List.filter_length_le.
Qed.

Section Outcome.

Variable toFixed : float -> nat -> string.
Variable openaiEmbeddings :
  list Call -> string -> list string -> SdkError + list (option EmbeddingVector).
Variable googleEmbedContent :
  list Call -> string -> nat -> string -> SdkError + option EmbeddingVector.
Variable analyzeImage :
  AIProviderClient -> string -> string -> option string -> string -> Result string.

(** Every product a search returns is one of its candidates. *)
Lemma performSearch_candidates input fetched w w' out r :
  performSearch toFixed openaiEmbeddings googleEmbedContent analyzeImage
                input fetched w = (w', inr out) ->
  In r (results out) ->
  In (product r) (candidatesOf (mergeConfig (config input)) fetched).
Proof.
  intros H Hin. apply performSearch_inr in H. cbv zeta in H.
  destruct H as [(_ & E & _) | (_ & _ & _ & an & cq & qe & pe & scored & M & E)].
  - rewrite E in Hin. destruct Hin.
  - rewrite E in Hin. apply rank_In in Hin as [Hin _].
    apply scored_products in M. rewrite <- M. apply in_map. exact Hin.
Qed.

End Outcome.

(** X4.  With the price range enabled and both bounds set, every product
    a successful search returns is a fetched product whose price lies
    within the bounds, inclusive; a range whose lower bound is not below
    or equal to its upper bound returns nothing. *)
Theorem results_within_price_range
        (toFixed : float -> nat -> string)
        (openaiEmbeddings :
           list Call -> string -> list string
           -> SdkError + list (option EmbeddingVector))
        (googleEmbedContent :
           list Call -> string -> nat -> string
           -> SdkError + option EmbeddingVector)
        (analyzeImage :
           AIProviderClient -> string -> string -> option string -> string
           -> Result string)
        (input : PerformSearchInput) (fetched : list Product)
        (w w' : World) (out : SearchOutput) (lo hi : float) :
  let cfg := mergeConfig (config input) in
  priceRangeEnabled cfg = Some true ->
  priceRangeMin cfg = Some lo ->
  priceRangeMax cfg = Some hi ->
  performSearch toFixed openaiEmbeddings googleEmbedContent analyzeImage
                input fetched w = (w', inr out) ->
  Forall (fun r => (lo <=? price (product r))%float = true
                   /\ (price (product r) <=? hi)%float = true
                   /\ In (product r) fetched) (results out)
  /\ ((lo <=? hi)%float = false -> results out = []).
Proof.
  intros cfg He Hlo Hhi H.
  assert (forall r, In r (results out) ->
            (lo <=? price (product r))%float = true
            /\ (price (product r) <=? hi)%float = true
            /\ In (product r) fetched) as A.
  { intros r Hin.
    pose proof (performSearch_candidates _ _ _ _ _ _ _ _ _ _ H Hin) as C.
    fold cfg in C. unfold candidatesOf in C. apply slice0_incl in C.
    split; [|split; [|exact (priceRangeFilter_incl _ _ _ C)]];
    unfold priceRangeFilter in C; rewrite He, Hlo, Hhi in C;
    apply List.filter_In in C as [_ C]; apply andb_true_iff in C; tauto. }
  split.
  - apply List.Forall_forall. exact A.
  - intros N. destruct (results out) as [|r rest] eqn:E; [reflexivity|].
    destruct (A r (or_introl eq_refl)) as (L & U & _).
    rewrite (leb_trans _ _ _ L U) in N. discriminate.
Qed.

Lemma results_within_price_range_witness :
  exists w' out,
    performSearch Sample.toFixed Sample.openai Sample.google Sample.vision
                  (Sample.request SampleSearch.pricedConfig None) Sample.catalog
                  Sample.emptyWorld = (w', inr out)
    /\ Forall (fun r => (50 <=? price (product r))%float = true
                        /\ (price (product r) <=? 100)%float = true
                        /\ In (product r) Sample.catalog) (results out).
Proof.
  destruct (ranked_inr
              (performSearch Sample.toFixed Sample.openai Sample.google
                 Sample.vision (Sample.request SampleSearch.pricedConfig None)
                 Sample.catalog Sample.emptyWorld))
    as (w' & out & E & _); [vm_compute; reflexivity|].
  exists w', out. split; [exact E|].
  exact (proj1 (results_within_price_range Sample.toFixed Sample.openai
                  Sample.google Sample.vision
                  (Sample.request SampleSearch.pricedConfig None) Sample.catalog
                  Sample.emptyWorld w' out 50%float 100%float
                  eq_refl eq_refl eq_refl E)).
Defined.

(** ** The counters of the debug information *)

Lemma insertSorted_length (x : ScoredProduct) (l : list ScoredProduct) :
  length (insertSorted x l) = S (length l).
Proof.
  induction l as [|y l IH]; simpl; [reflexivity|].
  destruct (0 <? compareFn x y)%float; simpl; [rewrite IH|]; reflexivity.
Qed.

Lemma sort_length (l : list ScoredProduct) : length (sort l) = length l.
Proof.
  induction l as [|x l IH]; simpl; [reflexivity|].
  rewrite insertSorted_length, IH. reflexivity.
Qed.

Lemma rank_length_le (cfg : SearchConfig) (scored : list ScoredProduct) :
  (length (rank cfg scored) <= length scored)%nat.
Proof.
  unfold rank. etransitivity; [apply slice0_length|].
  rewrite sort_length. apply List.filter_length_le.
Qed.

Lemma filter_comparable (cfg : SearchConfig) (scored : list ScoredProduct) :
  Forall (fun y => comparable (score y))
         (List.filter (fun s => (minScore cfg <=? score s)%float) scored).
Proof.
  apply List.Forall_forall. intros y Hy. apply List.filter_In in Hy as [_ Hy].
  apply leb_comparable in Hy. tauto.
Qed.

(** The ranking is sorted whatever [topK] is: [slice] keeps a prefix. *)
Lemma rank_prefix_sorted (cfg : SearchConfig) (scored : list ScoredProduct) :
  StronglySorted descending (rank cfg scored).
Proof.
  unfold rank.
  destruct (slice0_prefix
              (sort (List.filter (fun s => (minScore cfg <=? score s)%float)
                                 scored)) (topK cfg)) as [n ->].
  apply StronglySorted_firstn, sort_sorted, filter_comparable.
Qed.

(** X5.  In the output of a successful search there are no more results
    than candidates considered, no more candidates considered than
    [totalProducts], and [totalProducts] is at most the number of fetched
    products.  When the image was furniture, [resultsCount] is the number
    of results, [topScore] is the score of the first result (0 when there
    is none), and no result scores above it. *)
Theorem search_counters_consistent
        (toFixed : float -> nat -> string)
        (openaiEmbeddings :
           list Call -> string -> list string
           -> SdkError + list (option EmbeddingVector))
        (googleEmbedContent :
           list Call -> string -> nat -> string
           -> SdkError + option EmbeddingVector)
        (analyzeImage :
           AIProviderClient -> string -> string -> option string -> string
           -> Result string)
        (input : PerformSearchInput) (fetched : list Product)
        (w w' : World) (out : SearchOutput) :
  performSearch toFixed openaiEmbeddings googleEmbedContent analyzeImage
                input fetched w = (w', inr out) ->
  (length (results out) <= considered out)%nat
  /\ (considered out <= totalProducts out)%nat
  /\ (totalProducts out <= length fetched)%nat
  /\ (isFurniture out = true ->
      resultsCount out = length (results out)
      /\ topScore out = match results out with
                        | top :: _ => score top
                        | [] => 0%float
                        end
      /\ Forall (fun r => (score r <=? topScore out)%float = true)
                (results out)).
Proof.
  intros H. pose proof (performSearch_inr _ _ _ _ _ _ _ _ _ H) as S.
  cbv zeta in S. revert H. unfold performSearch.
  destruct (resolveEmbedding (mergeConfig (config input))) as [ep em].
  destruct (resolveEmbeddingKey input (mergeConfig (config input)));
    [|discriminate].
  destruct (createAIProviderClient _) as [|client]; [discriminate|].
  destruct (analyzeImage client _ analysisPrompt None _) as [|content];
    [discriminate|].
  destruct (negb (startsWith "FURNITURE" (trim content))).
  { intros [= _ <-]. simpl. repeat split; try lia; discriminate. }
  destruct (analyzeImage client _ _ (Some systemMessage) _) as [|vd];
    [discriminate|].
  unfold searchCatalog.
  destruct (createQueryEmbedding _ _ _ _ _ _ _) as [w1 [e|qe]];
    destruct (getProductEmbeddings _ _ _ _ _ _ _) as [w2 [e'|pe]];
    try discriminate.
  destruct (mapResult _ _) as [e|scored] eqn:M; [discriminate|].
  intros [= _ <-]. cbn [results resultsCount considered totalProducts topScore].
  apply scored_products in M.
  assert (length scored
          = length (slice0 (priceRangeFilter (mergeConfig (config input)) fetched)
                           (maxCandidates (mergeConfig (config input))))) as L
    by (rewrite <- M, length_map; reflexivity).
  split; [rewrite <- L; apply rank_length_le|].
  split; [apply slice0_length|]. split; [apply priceRangeFilter_length|].
  intros _. split; [reflexivity|]. split; [reflexivity|].
  pose proof (rank_prefix_sorted (mergeConfig (config input)) scored) as Sd.
  assert (forall r, In r (rank (mergeConfig (config input)) scored) ->
                    comparable (score r)) as C.
  { intros r Hin. apply rank_In in Hin as [_ Hin].
    apply leb_comparable in Hin. tauto. }
  destruct (rank (mergeConfig (config input)) scored) as [|top rest];
    [constructor|].
  constructor.
  - apply (C top). left. reflexivity.
  - apply StronglySorted_inv in Sd as [_ Sd]. exact Sd.
Qed.

Lemma search_counters_consistent_witness :
  exists w' out,
    performSearch Sample.toFixed Sample.openai Sample.google Sample.vision
                  (Sample.request Sample.userConfig (Some "around $100"))
                  Sample.catalog Sample.emptyWorld = (w', inr out)
    /\ (length (results out) <= considered out)%nat
    /\ (considered out <= totalProducts out)%nat
    /\ (totalProducts out <= 4)%nat.
Proof.
  destruct (ranked_inr
              (performSearch Sample.toFixed Sample.openai Sample.google
                 Sample.vision
                 (Sample.request Sample.userConfig (Some "around $100"))
                 Sample.catalog Sample.emptyWorld))
    as (w' & out & E & _); [vm_compute; reflexivity|].
  exists w', out. split; [exact E|].
  destruct (search_counters_consistent Sample.toFixed Sample.openai
              Sample.google Sample.vision
              (Sample.request Sample.userConfig (Some "around $100"))
              Sample.catalog Sample.emptyWorld w' out E)
    as (A & B & C & _).
  exact (conj A (conj B C)).
Defined.

(** ** Vision providers the factory does not know *)

Lemma createAIProviderClient_unsupported (cfg : ProviderConfig) :
  AiProvider.provider cfg <> "openai" ->
  AiProvider.provider cfg <> "anthropic" ->
  AiProvider.provider cfg <> "google" ->
  createAIProviderClient cfg
  = inl ("Unsupported provider: " ++ AiProvider.provider cfg).
Proof.
  intros A B C. unfold createAIProviderClient.
  destruct (String.eqb_spec (AiProvider.provider cfg) "openai"); [contradiction|].
  destruct (String.eqb_spec (AiProvider.provider cfg) "anthropic"); [contradiction|].
  destruct (String.eqb_spec (AiProvider.provider cfg) "google"); [contradiction|].
  reflexivity.
Qed.

(** X6.  A search whose vision provider is none of [openai],
    [anthropic] and [google] fails before any remote call: with the
    missing-embedding-key error when no embedding key resolves, and
    otherwise with [Failed to initialize <provider> client: Unsupported
    provider: <provider>]. *)
Theorem unsupported_vision_provider_refused
        (toFixed : float -> nat -> string)
        (openaiEmbeddings :
           list Call -> string -> list string
           -> SdkError + list (option EmbeddingVector))
        (googleEmbedContent :
           list Call -> string -> nat -> string
           -> SdkError + option EmbeddingVector)
        (analyzeImage :
           AIProviderClient -> string -> string -> option string -> string
           -> Result string)
        (input : PerformSearchInput) (fetched : list Product) (w : World) :
  let cfg := mergeConfig (config input) in
  let p := visionProvider cfg in
  p <> "openai" -> p <> "anthropic" -> p <> "google" ->
  performSearch toFixed openaiEmbeddings googleEmbedContent analyzeImage
                input fetched w
  = (w, inl (match resolveEmbeddingKey input cfg with
             | None =>
                 "Missing API key for embedding provider: "
                 ++ fst (resolveEmbedding cfg)
                 ++ ". Please provide an embedding API key."
             | Some _ =>
                 "Failed to initialize " ++ p
                 ++ " client: Unsupported provider: " ++ p
             end)).
Proof.
  intros cfg p A B C. unfold performSearch. fold cfg.
  destruct (resolveEmbedding cfg) as [ep em]. simpl fst.
  destruct (resolveEmbeddingKey input cfg); [|reflexivity].
  rewrite createAIProviderClient_unsupported by assumption. reflexivity.
Qed.

Lemma unsupported_vision_provider_refused_witness :
  performSearch Sample.toFixed Sample.openai Sample.google Sample.vision
                (Sample.request (SampleSearch.providerConfig "mistral") None)
                Sample.catalog Sample.emptyWorld
  = (Sample.emptyWorld,
     inl "Failed to initialize mistral client: Unsupported provider: mistral").
Proof.
  exact (unsupported_vision_provider_refused Sample.toFixed Sample.openai
           Sample.google Sample.vision
           (Sample.request (SampleSearch.providerConfig "mistral") None)
           Sample.catalog Sample.emptyWorld
           ltac:(vm_compute; discriminate) ltac:(vm_compute; discriminate)
           ltac:(vm_compute; discriminate)).
Defined.

(** ** Parsing the vision answer *)

Lemma isSpace_cases (c : ascii) :
  isSpace c = true ->
  c = "009"%char \/ c = "010"%char \/ c = "011"%char \/ c = "012"%char
  \/ c = "013"%char \/ c = " "%char.
Proof.
  destruct c as [[] [] [] [] [] [] [] []]; vm_compute; intros H;
    try discriminate; tauto.
Qed.

Lemma lowerChar_newline (a : ascii) :
  Ascii.eqb (lowerChar a) "010" = Ascii.eqb a "010".
Proof. destruct a as [[] [] [] [] [] [] [] []]; reflexivity. Qed.

Lemma takeLine_app (u tail : string) :
  singleLine u = true -> lineEnd tail = true -> takeLine (u ++ tail) = u.
Proof.
  intros Hu Ht. induction u as [|c u IH]; simpl in *.
  - destruct tail as [|c r]; [reflexivity|]. simpl in Ht. simpl. rewrite Ht.
    reflexivity.
  - apply andb_true_iff in Hu as [Hc Hu]. apply negb_true_iff in Hc.
    rewrite Hc, IH by exact Hu. reflexivity.
Qed.

Lemma captureAfterSpace_line (u tail : string) :
  singleLine u = true -> isBlank u = false -> lineEnd tail = true ->
  captureAfterSpace (u ++ tail) = Some (trimStart u).
Proof.
  intros Hu Hb Ht. induction u as [|c u IH]; [discriminate|].
  simpl in Hu, Hb. apply andb_true_iff in Hu as [Hc Hu].
  change (String c u ++ tail) with (String c (u ++ tail)).
  cbn [captureAfterSpace trimStart].
  destruct (isSpace c) eqn:S.
  - simpl in Hb. rewrite (IH Hu Hb). reflexivity.
  - change (String c (u ++ tail)) with (String c u ++ tail).
    rewrite takeLine_app; [reflexivity | simpl; rewrite Hc; exact Hu | exact Ht].
Qed.

Lemma captureAfterSpace_blank (sp s : string) (cap : string) :
  isBlank sp = true -> captureAfterSpace s = Some cap ->
  captureAfterSpace (sp ++ s) = Some cap.
Proof.
  intros Hb Hs. induction sp as [|c sp IH]; [exact Hs|].
  simpl in Hb. apply andb_true_iff in Hb as [Hc Hb].
  change (String c sp ++ s) with (String c (sp ++ s)).
  cbn [captureAfterSpace]. rewrite Hc, (IH Hb). reflexivity.
Qed.

Lemma trimStart_idem (s : string) : trimStart (trimStart s) = trimStart s.
Proof.
  induction s as [|c s IH]; [reflexivity|]. simpl.
  destruct (isSpace c) eqn:S; [exact IH|]. simpl. rewrite S. reflexivity.
Qed.

Lemma trim_trimStart (s : string) : trim (trimStart s) = trim s.
Proof. unfold trim. rewrite trimStart_idem. reflexivity. Qed.

Lemma startsWithCI_app_newline (label u rest : string) :
  singleLine label = true ->
  startsWithCI label (u ++ String "010" rest) = startsWithCI label u.
Proof.
  revert u. induction label as [|a label IH]; intros u Hl; [reflexivity|].
  simpl in Hl. apply andb_true_iff in Hl as [Ha Hl].
  destruct u as [|b u].
  - simpl. change (lowerChar "010") with "010"%char.
    rewrite lowerChar_newline. unfold isNewline in Ha.
    apply negb_true_iff in Ha. rewrite Ha. reflexivity.
  - simpl. rewrite (IH u Hl). reflexivity.
Qed.

Lemma startsWithCI_lower (label u : string) :
  startsWithCI label u = startsWith (toLowerCase label) (toLowerCase u).
Proof.
  revert u. induction label as [|a label IH]; intros u; [reflexivity|].
  destruct u as [|b u]; [reflexivity|]. simpl. rewrite IH. reflexivity.
Qed.

(** No match of the field pattern starts in a text that does not hold the
    label, when a line feed follows the text. *)
Lemma matchField_skip (label c rest : string) :
  singleLine label = true ->
  includes (toLowerCase c) (toLowerCase label) = false ->
  matchField label (c ++ String "010" rest)
  = matchField label (String "010" rest).
Proof.
  intros Hl. induction c as [|a c IH]; intros Hc; [reflexivity|].
  simpl toLowerCase in Hc. simpl includes in Hc.
  apply orb_false_iff in Hc as [Hs Hc].
  change (String a c ++ String "010" rest)
    with (String a (c ++ String "010" rest)).
  cbn [matchField].
  change (String a (c ++ String "010" rest))
    with (String a c ++ String "010" rest).
  rewrite startsWithCI_app_newline by exact Hl.
  rewrite startsWithCI_lower. simpl toLowerCase. rewrite Hs.
  apply IH. exact Hc.
Qed.

Lemma isBlank_no_label (sp : string) :
  isBlank sp = true -> includes (toLowerCase sp) "type:" = false.
Proof.
  induction sp as [|c sp IH]; [reflexivity|]. simpl isBlank.
  intros H. apply andb_true_iff in H as [Hc Hb].
  simpl toLowerCase. simpl includes. rewrite (IH Hb), orb_false_r.
  apply isSpace_cases in Hc.
  destruct Hc as [-> | [-> | [-> | [-> | [-> | ->]]]]]; reflexivity.
Qed.

Lemma matchField_category (c rest : string) :
  matchField "Category:" ("FURNITURE" ++ newline ++ "Category:" ++ c ++ rest)
  = match captureAfterSpace (c ++ rest) with
    | Some cap => Some cap
    | None => matchField "Category:" ("ategory:" ++ c ++ rest)
    end.
Proof. reflexivity. Qed.

Lemma matchField_type_here (t rest : string) (cap : string) :
  captureAfterSpace (t ++ rest) = Some cap ->
  matchField "Type:" (String "010" ("Type:" ++ t ++ rest)) = Some cap.
Proof.
  intros H. simpl. change ("" ++ t ++ rest) with (t ++ rest).
  rewrite H. reflexivity.
Qed.

Lemma matchField_type (c t rest : string) (cap : string) :
  includes (toLowerCase c) "type:" = false ->
  captureAfterSpace (t ++ rest) = Some cap ->
  matchField "Type:" ("FURNITURE" ++ newline ++ "Category:" ++ c ++ newline
                      ++ "Type:" ++ t ++ rest) = Some cap.
Proof.
  intros Hc Ht.
  transitivity (matchField "Type:" (c ++ String "010" ("Type:" ++ t ++ rest)));
    [reflexivity|].
  rewrite matchField_skip by (try reflexivity; exact Hc).
  apply matchField_type_here. exact Ht.
Qed.

(** X2.  From an answer in the requested format ([FURNITURE], then a
    [Category:] line, then a [Type:] line) whose category and type are
    ASCII texts, not blank, and whose category does not hold [type:],
    [parseAnalysis] reads both fields trimmed and in lower case, whatever
    follows the type line. *)
Theorem parseAnalysis_requested_format (c t tail : string) :
  asciiText c = true -> asciiText t = true ->
  singleLine c = true -> isBlank c = false ->
  singleLine t = true -> isBlank t = false ->
  includes (toLowerCase c) "type:" = false ->
  lineEnd tail = true ->
  parseAnalysis (structuredAnswer c t tail)
  = {| analysisCategory := Some (toLowerCase (trim c));
       analysisType := Some (toLowerCase (trim t)) |}.
Proof.
  intros _ _ Hc Hcb Ht Htb Hno Htail. unfold parseAnalysis, structuredAnswer.
  rewrite matchField_category.
  rewrite (captureAfterSpace_line c (newline ++ "Type:" ++ t ++ tail)
             Hc Hcb eq_refl).
  rewrite (matchField_type c t tail (trimStart t) Hno
             (captureAfterSpace_line t tail Ht Htb Htail)).
  simpl option_map. rewrite !trim_trimStart. reflexivity.
Qed.

Lemma parseAnalysis_requested_format_witness :
  parseAnalysis (structuredAnswer " Seating" "  Bench " "
Description: a long oak bench")
  = {| analysisCategory := Some "seating"; analysisType := Some "bench" |}.
Proof.
  rewrite parseAnalysis_requested_format by (vm_compute; reflexivity).
  vm_compute. reflexivity.
Defined.

(** X3.  When the category line holds white space only, the category
    pattern reads on into the next line: for an ASCII type, the parsed
    category is the whole [Type:] line, label included, in lower case. *)
Theorem blank_category_takes_the_type_line (sp t tail : string) :
  asciiText t = true ->
  isBlank sp = true ->
  singleLine t = true -> isBlank t = false -> lineEnd tail = true ->
  parseAnalysis (structuredAnswer sp t tail)
  = {| analysisCategory := Some (toLowerCase (trim ("Type:" ++ t)));
       analysisType := Some (toLowerCase (trim t)) |}.
Proof.
  intros _ Hsp Ht Htb Htail. unfold parseAnalysis, structuredAnswer.
  rewrite matchField_category.
  assert (captureAfterSpace (sp ++ newline ++ "Type:" ++ t ++ tail)
          = Some ("Type:" ++ t)) as C.
  { apply captureAfterSpace_blank; [exact Hsp|].
    change (newline ++ "Type:" ++ t ++ tail)
      with (String "010" (("Type:" ++ t) ++ tail)).
    cbn [captureAfterSpace]. change (isSpace "010") with true. cbv iota.
    rewrite (captureAfterSpace_line ("Type:" ++ t) tail);
      [reflexivity | exact Ht | reflexivity | exact Htail]. }
  rewrite C.
  rewrite (matchField_type sp t tail (trimStart t) (isBlank_no_label sp Hsp)
             (captureAfterSpace_line t tail Ht Htb Htail)).
  simpl option_map. rewrite trim_trimStart. reflexivity.
Qed.

Lemma blank_category_takes_the_type_line_witness :
  parseAnalysis (structuredAnswer "" " bench" "")
  = {| analysisCategory := Some "type: bench"; analysisType := Some "bench" |}.
Proof.
  rewrite blank_category_takes_the_type_line by (vm_compute; reflexivity).
  vm_compute. reflexivity.
Defined.

(** ** Tokens *)

Lemma alnum_not_space (c : ascii) :
  isLower c || isDigit c = true -> isSpace c = false.
Proof. destruct c as [[] [] [] [] [] [] [] []]; vm_compute; congruence. Qed.

Lemma alnum_lowerChar (c : ascii) :
  isLower c || isDigit c = true -> lowerChar c = c.
Proof. destruct c as [[] [] [] [] [] [] [] []]; vm_compute; congruence. Qed.

Lemma lowerChar_idem (c : ascii) : lowerChar (lowerChar c) = lowerChar c.
Proof. destruct c as [[] [] [] [] [] [] [] []]; reflexivity. Qed.

Lemma toLowerCase_idem (s : string) :
  toLowerCase (toLowerCase s) = toLowerCase s.
Proof.
  induction s as [|c s IH]; simpl; [reflexivity|].
  rewrite lowerChar_idem, IH. reflexivity.
Qed.

Lemma cleanChar_cases (c : ascii) :
  isSpace (cleanChar c) = true
  \/ (isLower (cleanChar c) || isDigit (cleanChar c) = true).
Proof. destruct c as [[] [] [] [] [] [] [] []]; vm_compute; tauto. Qed.

Lemma alphanumeric_app (a b : string) :
  alphanumeric (a ++ b) = alphanumeric a && alphanumeric b.
Proof.
  induction a as [|c a IH]; [reflexivity|].
  change (String c a ++ b) with (String c (a ++ b)). simpl.
  rewrite IH, andb_assoc. reflexivity.
Qed.

Lemma append_nil_r (a : string) : a ++ "" = a.
Proof.
  induction a as [|c a IH]; [reflexivity|].
  change (String c a ++ "") with (String c (a ++ "")). rewrite IH. reflexivity.
Qed.

Lemma append_assoc (a b c : string) : (a ++ b) ++ c = a ++ b ++ c.
Proof.
  induction a as [|x a IH]; [reflexivity|].
  change (String x (a ++ b) ++ c = String x (a ++ b ++ c)).
  change (String x ((a ++ b) ++ c) = String x (a ++ b ++ c)).
  rewrite IH. reflexivity.
Qed.

(** The tokens [splitSpaces] cuts out of a cleaned text. *)
Lemma splitSpaces_tokens (s cur : string) :
  alphanumeric cur = true ->
  Forall (fun t => isToken t = true) (splitSpaces cur (cleanText s)).
Proof.
  revert cur. induction s as [|c s IH]; intros cur Hcur; simpl.
  - destruct (isEmpty cur) eqn:E; constructor; [|constructor].
    unfold isToken. rewrite E, Hcur. reflexivity.
  - destruct (cleanChar_cases c) as [S | A].
    + rewrite S. destruct (isEmpty cur) eqn:E.
      * apply (IH EmptyString). reflexivity.
      * constructor; [|apply (IH EmptyString); reflexivity].
        unfold isToken. rewrite E, Hcur. reflexivity.
    + rewrite (alnum_not_space _ A). apply IH.
      rewrite alphanumeric_app, Hcur. simpl. rewrite A. reflexivity.
Qed.

Lemma cleanText_alphanumeric (t : string) :
  alphanumeric t = true -> cleanText (toLowerCase t) = t.
Proof.
  induction t as [|c t IH]; [reflexivity|]. simpl. intros H.
  apply andb_true_iff in H as [Hc Ht].
  rewrite (alnum_lowerChar c Hc), (IH Ht). unfold cleanChar.
  apply orb_true_iff in Hc as [-> | ->]; [reflexivity|].
  rewrite orb_true_r. reflexivity.
Qed.

Lemma toLowerCase_app (a b : string) :
  toLowerCase (a ++ b) = toLowerCase a ++ toLowerCase b.
Proof.
  induction a as [|c a IH]; [reflexivity|].
  change (String c a ++ b) with (String c (a ++ b)). simpl.
  rewrite IH. reflexivity.
Qed.

Lemma cleanText_app (a b : string) :
  cleanText (a ++ b) = cleanText a ++ cleanText b.
Proof.
  induction a as [|c a IH]; [reflexivity|].
  change (String c a ++ b) with (String c (a ++ b)). simpl.
  rewrite IH. reflexivity.
Qed.

Lemma splitSpaces_app (t s cur : string) :
  alphanumeric t = true ->
  splitSpaces cur (t ++ s) = splitSpaces (cur ++ t) s.
Proof.
  revert cur. induction t as [|c t IH]; intros cur H.
  - rewrite append_nil_r. reflexivity.
  - simpl in H. apply andb_true_iff in H as [Hc Ht].
    change (String c t ++ s) with (String c (t ++ s)).
    cbn [splitSpaces]. rewrite (alnum_not_space c Hc), (IH _ Ht).
    rewrite append_assoc. reflexivity.
Qed.

Lemma splitSpaces_join (ts : list string) :
  Forall (fun t => isToken t = true) ts ->
  splitSpaces EmptyString (join " " ts) = ts.
Proof.
  induction 1 as [|t ts Ht Hts IH]; [reflexivity|].
  unfold isToken in Ht. apply andb_true_iff in Ht as [Hne Ha].
  apply negb_true_iff in Hne.
  destruct ts as [|t' ts].
  - simpl join. rewrite <- (append_nil_r t) at 1.
    rewrite (splitSpaces_app t "" "" Ha). change ("" ++ t) with t.
    cbn [splitSpaces]. rewrite Hne. reflexivity.
  - change (join " " (t :: t' :: ts)) with (t ++ " " ++ join " " (t' :: ts)).
    rewrite (splitSpaces_app t _ "" Ha).
    change (" " ++ join " " (t' :: ts))
      with (String " " (join " " (t' :: ts))).
    cbn [splitSpaces]. change (isSpace " ") with true. cbv iota.
    change ("" ++ t) with t. rewrite Hne, IH. reflexivity.
Qed.

Lemma join_clean (ts : list string) :
  Forall (fun t => isToken t = true) ts ->
  cleanText (toLowerCase (join " " ts)) = join " " ts.
Proof.
  induction 1 as [|t ts Ht Hts IH]; [reflexivity|].
  unfold isToken in Ht. apply andb_true_iff in Ht as [_ Ha].
  destruct ts as [|t' ts].
  - simpl join. apply cleanText_alphanumeric. exact Ha.
  - change (join " " (t :: t' :: ts)) with (t ++ " " ++ join " " (t' :: ts)).
    rewrite toLowerCase_app, cleanText_app, (cleanText_alphanumeric t Ha).
    change (" " ++ join " " (t' :: ts))
      with (String " " (join " " (t' :: ts))).
    change (cleanText (toLowerCase (String " " (join " " (t' :: ts)))))
      with (String " " (cleanText (toLowerCase (join " " (t' :: ts))))).
    rewrite IH. reflexivity.
Qed.

(** X7.  Every token [tokenize] returns of an ASCII text is a non-empty
    run of lower-case letters and digits; the tokens do not depend on the
    case of the text; and tokenizing tokens joined by single spaces gives
    them back. *)
Theorem tokenize_tokens (text : string) (ts : list string) :
  asciiText text = true ->
  Forall (fun t => isToken t = true) (tokenize text)
  /\ tokenize (toLowerCase text) = tokenize text
  /\ (Forall (fun t => isToken t = true) ts -> tokenize (join " " ts) = ts).
Proof.
  intros _. unfold tokenize. split; [|split].
  - apply splitSpaces_tokens. reflexivity.
  - rewrite toLowerCase_idem. reflexivity.
  - intros H. rewrite (join_clean ts H). apply splitSpaces_join. exact H.
Qed.

Lemma tokenize_tokens_witness :
  tokenize (toLowerCase "Mid-century OAK bench, 120cm!")
  = tokenize "Mid-century OAK bench, 120cm!"
  /\ tokenize (join " " ["mid"; "century"; "oak"; "bench"; "120cm"])
     = ["mid"; "century"; "oak"; "bench"; "120cm"].
Proof.
  destruct (tokenize_tokens "Mid-century OAK bench, 120cm!"
              ["mid"; "century"; "oak"; "bench"; "120cm"] eq_refl)
    as (_ & Hcase & Hjoin).
  split; [exact Hcase|]. apply Hjoin. repeat constructor.
Defined.

Example tokenize_sample :
  tokenize "Mid-century OAK bench, 120cm!" = ["mid"; "century"; "oak"; "bench"; "120cm"].
Proof. vm_compute. reflexivity. Qed.

(** ** The target price *)

Lemma startsWithDigit_app (r s : string) :
  r <> "" -> startsWithDigit (r ++ s) = startsWithDigit r.
Proof. destruct r; [congruence | reflexivity]. Qed.

Lemma takeDigits_app (ds post : string) :
  allDigits ds = true -> startsWithDigit post = false ->
  takeDigits (ds ++ post) = ds.
Proof.
  intros Hd Hp. induction ds as [|c ds IH].
  - destruct post as [|c r]; [reflexivity|]. simpl in *. rewrite Hp. reflexivity.
  - simpl in Hd. apply andb_true_iff in Hd as [Hc Hd].
    change (String c ds ++ post) with (String c (ds ++ post)). simpl.
    rewrite Hc, (IH Hd). reflexivity.
Qed.

Lemma matchDollarSign_first (pre ds post : string) :
  matchDollarSign pre = None ->
  allDigits ds = true -> ds <> "" -> startsWithDigit post = false ->
  matchDollarSign (pre ++ "$" ++ ds ++ post) = Some ds.
Proof.
  intros Hpre Hd Hne Hp. induction pre as [|c pre IH].
  - change ("" ++ "$" ++ ds ++ post) with (String "$" (ds ++ post)).
    cbn [matchDollarSign]. change (Ascii.eqb "$" "$") with true.
    rewrite (startsWithDigit_app ds post Hne).
    destruct ds as [|d ds]; [congruence|]. simpl in Hd.
    apply andb_true_iff in Hd as [Hd1 Hd2]. simpl startsWithDigit.
    rewrite Hd1. simpl andb. cbv iota.
    rewrite takeDigits_app; [reflexivity | simpl; rewrite Hd1; exact Hd2 | exact Hp].
  - change (String c pre ++ "$" ++ ds ++ post)
      with (String c (pre ++ "$" ++ ds ++ post)).
    cbn [matchDollarSign] in *.
    destruct (Ascii.eqb c "$") eqn:E.
    + destruct pre as [|c' pre].
      * simpl. apply (IH eq_refl).
      * change (String c' pre ++ "$" ++ ds ++ post)
          with (String c' (pre ++ "$" ++ ds ++ post)) in *.
        simpl startsWithDigit in *. simpl andb in *.
        destruct (isDigit c'); [discriminate|]. apply IH. exact Hpre.
    + simpl andb in *. apply IH. exact Hpre.
Qed.

(** X9.  The target price of a query is the run of digits after its
    first dollar sign that a digit follows, wherever an amount in
    [dollars] stands in the query; a fraction after the digits is not
    read. *)
Theorem targetPrice_after_dollar_sign (pre ds post : string) :
  matchDollarSign pre = None ->
  allDigits ds = true -> ds <> "" -> startsWithDigit post = false ->
  targetPriceOf (Some (pre ++ "$" ++ ds ++ post))
  = Some (numberOfZ (digitsValue 0 ds)).
Proof.
  intros Hpre Hd Hne Hp. unfold targetPriceOf.
  rewrite (matchDollarSign_first pre ds post Hpre Hd Hne Hp). reflexivity.
Qed.

Lemma targetPrice_after_dollar_sign_witness :
  targetPriceOf (Some ("300 dollars at most, ideally " ++ "$" ++ "250"
                       ++ ".99 or so"))
  = Some 250%float.
Proof.
  rewrite targetPrice_after_dollar_sign;
    [vm_compute; reflexivity | vm_compute; reflexivity
     | vm_compute; reflexivity | discriminate | vm_compute; reflexivity].
Defined.

(** ** Products without a type or a category *)

Lemma stripTrailingS_empty (q : string) :
  stripTrailingS q = "" -> q = "" \/ q = "s".
Proof.
  destruct q as [|c r]; [tauto|]. simpl.
  destruct r as [|c' r']; simpl.
  - destruct (Ascii.eqb_spec c "s"); [subst; tauto | discriminate].
  - discriminate.
Qed.

(** X10.  A product whose type is blank matches every detected type
    that is not blank, with score 0.8 (1 when the detected type is [s]),
    and a product whose category is empty scores 0.7 against every
    detected category: the empty string is contained in every string. *)
Theorem blank_fields_match_every_query (ty cat : string) (p p' : Product) :
  trim (toLowerCase ty) <> "" ->
  trim (toLowerCase (type p)) = "" ->
  cat <> "" ->
  category p' = "" ->
  typeMatchScore (Some ty) p
  = inr (if String.eqb (trim (toLowerCase ty)) "s" then 1 else 0.8)%float
  /\ categoryMatchScore (Some cat) p' = 0.7%float.
Proof.
  intros Hq Hp Hcat Hp'. split.
  - assert (truthyString ty = true) as Hty
      by (destruct ty; [exfalso; apply Hq; reflexivity | reflexivity]).
    unfold typeMatchScore. rewrite Hty. cbv zeta. rewrite Hp.
    set (q := trim (toLowerCase ty)) in *. simpl negb. cbv iota.
    change (stripTrailingS "") with "".
    assert (forall s, includes s "" = true) as I by (destruct s; reflexivity).
    destruct (String.eqb_spec "" q) as [E|_]; [symmetry in E; contradiction|].
    destruct (String.eqb_spec q "s") as [E|N].
    + rewrite E. reflexivity.
    + destruct (String.eqb_spec "" (stripTrailingS q)) as [E|_].
      * symmetry in E. apply stripTrailingS_empty in E as [E|E]; contradiction.
      * simpl orb. rewrite (I q), orb_true_r. reflexivity.
  - unfold categoryMatchScore.
    destruct cat as [|a cat]; [congruence|]. cbn [truthyString isEmpty negb].
    cbv iota. rewrite Hp'. reflexivity.
Qed.

Lemma blank_fields_match_every_query_witness :
  typeMatchScore (Some "Wardrobe") Sample.blank = inr 0.8%float
  /\ categoryMatchScore (Some "storage") Sample.blank = 0.7%float.
Proof.
  exact (blank_fields_match_every_query "Wardrobe" "storage" Sample.blank
           Sample.blank ltac:(vm_compute; discriminate) eq_refl
           ltac:(discriminate) eq_refl).
Defined.

(** ** Storing a batch of responses *)

Lemma storeBatch_nil_indices (batch : list Product) (es : list EmbeddingResponse)
      (c : gmap string EmbeddingVector) :
  storeBatch batch es [] c = c.
Proof. destruct es; reflexivity. Qed.

Lemma storeBatch_from (pre batch : list Product) (es : list EmbeddingResponse)
      (c : gmap string EmbeddingVector) :
  storeBatch (pre ++ batch) es
             (map fst (validFrom (length pre) (map productText batch))) c
  = fold_left storeResponse (combine (List.filter hasText batch) es) c.
Proof.
  revert pre es c. induction batch as [|p batch IH]; intros pre es c.
  - simpl. apply storeBatch_nil_indices.
  - assert ((pre ++ p :: batch) = ((pre ++ [p]) ++ batch))%list as R
      by (rewrite <- List.app_assoc; reflexivity).
    assert (S (length pre) = length (pre ++ [p])%list) as L
      by (rewrite List.length_app; simpl; lia).
    simpl map. cbn [validFrom List.filter]. unfold hasText at 1.
    destruct (0 <? String.length (trim (productText p)))%nat.
    + destruct es as [|e es]; [reflexivity|].
      cbn [map fst storeBatch combine fold_left].
      assert (nth_error (pre ++ p :: batch) (length pre) = Some p) as N.
      { rewrite List.nth_error_app2 by lia. rewrite Nat.sub_diag. reflexivity. }
      rewrite N, R, L, IH. destruct e as [[v|]]; reflexivity.
    + rewrite R, L. apply IH.
Qed.

Lemma fold_storeResponse_lookup (l : list (Product * EmbeddingResponse))
      (c : gmap string EmbeddingVector) (id : string) (v : EmbeddingVector) :
  fold_left storeResponse l c !! id = Some v ->
  c !! id = Some v
  \/ exists k p, nth_error l k = Some (p, {| embedding := Some v |})
                 /\ _id p = id.
Proof.
  revert c. induction l as [|[p e] l IH]; intros c H; [left; exact H|].
  simpl in H. apply IH in H as [H | (k & p' & N & E)].
  - unfold storeResponse in H. simpl in H. destruct e as [[e|]]; simpl in H.
    + destruct (decide (_id p = id)) as [<- | Ne].
      * rewrite lookup_insert_eq in H. injection H as ->.
        right. exists 0%nat, p. split; reflexivity.
      * rewrite lookup_insert_ne in H by exact Ne. left. exact H.
    + left. exact H.
  - right. exists (S k), p'. split; assumption.
Qed.

Lemma combine_nth_error_inv {A B} (l : list A) (l' : list B) (k : nat)
      (a : A) (b : B) :
  nth_error (combine l l') k = Some (a, b) ->
  nth_error l k = Some a /\ nth_error l' k = Some b.
Proof.
  revert l' k. induction l as [|x l IH]; intros [|y l'] [|k] H;
    try discriminate.
  - injection H as -> ->. split; reflexivity.
  - apply (IH l' k). exact H.
Qed.

Lemma combine_surplus {A B} (l : list A) (l' extra : list B) :
  (length l <= length l')%nat -> combine l (l' ++ extra) = combine l l'.
Proof.
  revert l'. induction l as [|x l IH]; intros [|y l'] H; simpl in *;
    try reflexivity; try lia.
  rewrite IH by lia. reflexivity.
Qed.

(** X12.  The responses to a batch of products with ASCII texts are
    stored by position: the k-th response goes under the identifier of
    the k-th product of the batch that has text, a response without a
    vector stores nothing, and responses beyond the products with text
    are ignored.  So every entry the batch adds or replaces holds the
    vector of such a pair. *)
Theorem storeBatch_pairs_by_position (batch : list Product)
        (es : list EmbeddingResponse) (c : gmap string EmbeddingVector) :
  Forall (fun p => asciiProduct p = true) batch ->
  storeBatch batch es (validIndices batch) c
  = fold_left storeResponse (combine (List.filter hasText batch) es) c
  /\ (forall id v,
         storeBatch batch es (validIndices batch) c !! id = Some v ->
         c !! id = Some v
         \/ exists k p,
             nth_error (List.filter hasText batch) k = Some p
             /\ nth_error es k = Some {| embedding := Some v |}
             /\ _id p = id)
  /\ (forall surplus,
         length (List.filter hasText batch) <= length es ->
         storeBatch batch (es ++ surplus) (validIndices batch) c
         = storeBatch batch es (validIndices batch) c)%nat.
Proof.
  intros _.
  assert (forall es',
            storeBatch batch es' (validIndices batch) c
            = fold_left storeResponse
                        (combine (List.filter hasText batch) es') c) as E
    by (intros es'; exact (storeBatch_from [] batch es' c)).
  split; [apply E|]. split.
  - intros id v H. rewrite E in H.
    apply fold_storeResponse_lookup in H as [H | (k & p & N & I)];
      [left; exact H|].
    right. exists k, p. apply combine_nth_error_inv in N as [N1 N2].
    repeat split; assumption.
  - intros surplus L. rewrite !E, combine_surplus by exact L. reflexivity.
Qed.

Lemma storeBatch_pairs_by_position_witness :
  storeBatch [Sample.blank; Sample.chair]
             [{| embedding := Some [1; 0]%float |}]
             (validIndices [Sample.blank; Sample.chair]) ∅
  = fold_left storeResponse
              [(Sample.chair, {| embedding := Some [1; 0]%float |})] ∅.
Proof.
  exact (proj1 (storeBatch_pairs_by_position
                  [Sample.blank; Sample.chair]
                  [{| embedding := Some [1; 0]%float |}] ∅
                  ltac:(repeat constructor))).
Defined.

(** ** The embedding of the query *)

Lemma orElse_modelOption (model : option string) (d : string) :
  orElse model (orElse (modelOption model) d) = orElse model d.
Proof.
  destruct model as [m|]; [|reflexivity]. simpl.
  destruct (truthyString m) eqn:T; simpl; rewrite ?T; reflexivity.
Qed.

Section QueryEmbedding.

Variable openaiEmbeddings :
  list Call -> string -> list string -> SdkError + list (option EmbeddingVector).
Variable googleEmbedContent :
  list Call -> string -> nat -> string -> SdkError + option EmbeddingVector.

Lemma createQueryEmbedding_openai (queryText key : string)
      (model : option string) (w : World) :
  let small := requestedModel model "text-embedding-3-small" in
  createQueryEmbedding openaiEmbeddings googleEmbedContent queryText "openai"
                       key model w
  = ({| cache := cache w;
        calls := (calls w ++ [{| callProvider := OpenAI; callModel := small;
                                 callTexts := [queryText] |}])%list |},
     match openaiEmbeddings (calls w) small [queryText] with
     | inl e => inl (rethrow "openai" (openaiCatch e))
     | inr data => inr (firstVector data)
     end).
Proof.
  unfold requestedModel. cbv zeta.
  unfold createQueryEmbedding, createAIProviderClient, createEmbeddings.
  cbn [AiProvider.provider String.eqb Ascii.eqb Bool.eqb backend clientConfig
       AiProvider.embeddingModel].
  rewrite orElse_modelOption.
  destruct (openaiEmbeddings (calls w) _ [queryText]) as [e|data];
    [reflexivity|].
  destruct data as [|[v|] data]; reflexivity.
Qed.

Lemma createQueryEmbedding_google (queryText key : string)
      (model : option string) (w : World) :
  let gecko := requestedModel model "text-embedding-004" in
  createQueryEmbedding openaiEmbeddings googleEmbedContent queryText "google"
                       key model w
  = ({| cache := cache w;
        calls := (calls w ++ [{| callProvider := Google; callModel := gecko;
                                 callTexts := [queryText] |}])%list |},
     match googleEmbedContent (calls w) gecko 0 queryText with
     | inl e => inl (rethrow "google" (googleCatch e))
     | inr v => inr (firstVector [v])
     end).
Proof.
  unfold requestedModel. cbv zeta.
  unfold createQueryEmbedding, createAIProviderClient, createEmbeddings.
  cbn [AiProvider.provider String.eqb Ascii.eqb Bool.eqb backend clientConfig
       AiProvider.embeddingModel].
  rewrite orElse_modelOption. cbn [googleLoop].
  destruct (googleEmbedContent (calls w) _ 0 queryText) as [e|v];
    [reflexivity|].
  destruct v; reflexivity.
Qed.

End QueryEmbedding.

(** X11.  The embedding of the query is one request for the one text,
    sent whatever the cache holds and stored nowhere: the cache is left
    as it was, the model is the configured one or else the default of
    the vendor, and a response without a vector gives the empty vector,
    against which every product has semantic score 0. *)
Theorem query_embedding_is_one_uncached_request
        (openaiEmbeddings :
           list Call -> string -> list string
           -> SdkError + list (option EmbeddingVector))
        (googleEmbedContent :
           list Call -> string -> nat -> string
           -> SdkError + option EmbeddingVector)
        (queryText key : string) (model : option string) (w : World) :
  let small := requestedModel model "text-embedding-3-small" in
  let gecko := requestedModel model "text-embedding-004" in
  let sent backend m :=
    {| cache := cache w;
       calls := (calls w ++ [{| callProvider := backend; callModel := m;
                                callTexts := [queryText] |}])%list |} in
  createQueryEmbedding openaiEmbeddings googleEmbedContent queryText "openai"
                       key model w
  = (sent OpenAI small,
     match openaiEmbeddings (calls w) small [queryText] with
     | inl e => inl (rethrow "openai" (openaiCatch e))
     | inr data => inr (firstVector data)
     end)
  /\ createQueryEmbedding openaiEmbeddings googleEmbedContent queryText
                          "google" key model w
     = (sent Google gecko,
        match googleEmbedContent (calls w) gecko 0 queryText with
        | inl e => inl (rethrow "google" (googleCatch e))
        | inr v => inr (firstVector [v])
        end)
  /\ (forall productEmbeddings p,
         semanticScoreOf (firstVector []) productEmbeddings p = 0%float
         /\ semanticScoreOf (firstVector [None]) productEmbeddings p = 0%float).
Proof.
  cbv zeta. split; [|split].
  - apply createQueryEmbedding_openai.
  - apply createQueryEmbedding_google.
  - intros pe p. unfold semanticScoreOf, firstVector.
    destruct (pe !! _id p); split; reflexivity.
Qed.

(** ** The Google client *)

Section GoogleClient.

Variable openaiEmbeddings :
  list Call -> string -> list string -> SdkError + list (option EmbeddingVector).
Variable googleEmbedContent :
  list Call -> string -> nat -> string -> SdkError + option EmbeddingVector.

Lemma googleLoop_inr log model i texts out :
  googleLoop googleEmbedContent log model i texts = inr out ->
  length out = length texts
  /\ forall k text, nth_error texts k = Some text ->
       exists v, googleEmbedContent log model (i + k) text = inr v
                 /\ nth_error out k = Some {| embedding := v |}.
Proof.
  revert i out. induction texts as [|t texts IH]; intros i out H; simpl in H.
  - injection H as <-. split; [reflexivity|]. intros [|k] text; discriminate.
  - destruct (googleEmbedContent log model i t) as [e|v] eqn:E; [discriminate|].
    destruct (googleLoop googleEmbedContent log model (S i) texts)
      as [e|out'] eqn:G; [discriminate|].
    injection H as <-. destruct (IH _ _ G) as [L K]. split.
    + simpl. rewrite L. reflexivity.
    + intros [|k] text N; simpl in N.
      * injection N as <-. exists v. rewrite Nat.add_0_r. split; [exact E|].
        reflexivity.
      * destruct (K k text N) as (v' & E' & N'). exists v'.
        rewrite Nat.add_succ_r. split; assumption.
Qed.

Lemma googleLoop_inl log model i texts e :
  googleLoop googleEmbedContent log model i texts = inl e ->
  exists k text,
    nth_error texts k = Some text
    /\ googleEmbedContent log model (i + k) text = inl e
    /\ forall j text', (j < k)%nat -> nth_error texts j = Some text' ->
         exists v, googleEmbedContent log model (i + j) text' = inr v.
Proof.
  revert i. induction texts as [|t texts IH]; intros i H; simpl in H;
    [discriminate|].
  destruct (googleEmbedContent log model i t) as [e'|v] eqn:E.
  - injection H as ->. exists 0%nat, t. rewrite Nat.add_0_r.
    repeat split; try assumption. intros j text' Hj. lia.
  - destruct (googleLoop googleEmbedContent log model (S i) texts)
      as [e'|out'] eqn:G; [|discriminate].
    injection H as ->. destruct (IH _ G) as (k & text & N & F & P).
    exists (S k), text. rewrite Nat.add_succ_r. repeat split; try assumption.
    intros [|j] text' Hj N'; simpl in N'.
    + injection N' as <-. exists v. rewrite Nat.add_0_r. exact E.
    + rewrite Nat.add_succ_r. apply (P j text'); [lia | exact N'].
Qed.

End GoogleClient.

(** X13.  The Google client logs one call for the texts and then asks for
    them one at a time, in order.  It succeeds with one response per
    text, the k-th holding the answer to the k-th text, or fails with the
    translated error of the first text that fails, every text before it
    having been answered. *)
Theorem google_embeds_text_by_text
        (openaiEmbeddings :
           list Call -> string -> list string
           -> SdkError + list (option EmbeddingVector))
        (googleEmbedContent :
           list Call -> string -> nat -> string
           -> SdkError + option EmbeddingVector)
        (clientConfig : ProviderConfig) (texts : list string)
        (model : option string) (log : list Call) :
  let m := orElse model
             (orElse (AiProvider.embeddingModel clientConfig)
                     "text-embedding-004") in
  let answer := googleEmbedContent log m in
  exists r,
    createEmbeddings openaiEmbeddings googleEmbedContent
                     {| backend := Google; clientConfig := clientConfig |}
                     texts model log
    = ((log ++ [{| callProvider := Google; callModel := m;
                   callTexts := texts |}])%list, r)
    /\ match r with
       | inr out =>
           length out = length texts
           /\ forall k text, nth_error texts k = Some text ->
                exists v, answer k text = inr v
                          /\ nth_error out k = Some {| embedding := v |}
       | inl msg =>
           exists k text e,
             nth_error texts k = Some text
             /\ answer k text = inl e
             /\ msg = googleCatch e
             /\ forall j text', (j < k)%nat -> nth_error texts j = Some text' ->
                  exists v, answer j text' = inr v
       end.
Proof.
  intros m answer. unfold createEmbeddings. cbn [backend AiProvider.clientConfig].
  fold m. eexists. split; [reflexivity|].
  destruct (googleLoop googleEmbedContent log m 0 texts) as [e|out] eqn:G.
  - apply googleLoop_inl in G as (k & text & N & F & P).
    exists k, text, e. repeat split; assumption.
  - apply googleLoop_inr in G. exact G.
Qed.

(** ** Anthropic as the provider of product embeddings *)

Lemma existsb_concat {A} (f : A -> bool) (ls : list (list A)) :
  existsb f (concat ls) = existsb (existsb f) ls.
Proof.
  induction ls as [|l ls IH]; [reflexivity|]. simpl.
  rewrite List.existsb_app, IH. reflexivity.
Qed.

Lemma processBatches_anthropic
      (openaiEmbeddings :
         list Call -> string -> list string
         -> SdkError + list (option EmbeddingVector))
      (googleEmbedContent :
         list Call -> string -> nat -> string
         -> SdkError + option EmbeddingVector)
      (cfg : ProviderConfig) (model : option string)
      (batches : list (list Product)) (w : World) :
  processBatches openaiEmbeddings googleEmbedContent
                 {| backend := Anthropic; clientConfig := cfg |} "anthropic"
                 model batches w
  = (w, if existsb (existsb hasText) batches
        then inl unsupportedEmbeddings else inr tt).
Proof.
  induction batches as [|b batches IH]; [reflexivity|].
  rewrite processBatches_cons. cbn [existsb].
  destruct (existsb hasText b); simpl negb; cbv iota.
  - destruct w. reflexivity.
  - exact IH.
Qed.

(** X15.  Called for [anthropic] with products whose texts are ASCII,
    [getProductEmbeddings] sends nothing and changes nothing; it fails
    with the unsupported-embeddings error exactly when some product
    without a cache entry has text, and otherwise returns the cache. *)
Theorem anthropic_embeds_nothing
        (openaiEmbeddings :
           list Call -> string -> list string
           -> SdkError + list (option EmbeddingVector))
        (googleEmbedContent :
           list Call -> string -> nat -> string
           -> SdkError + option EmbeddingVector)
        (products : list Product) (key : string) (model : option string)
        (w : World) :
  Forall (fun p => asciiProduct p = true) products ->
  getProductEmbeddings openaiEmbeddings googleEmbedContent products
                       "anthropic" key model w
  = (w, if existsb hasText (missingFrom w products)
        then inl unsupportedEmbeddings
        else inr (cache w)).
Proof.
  intros _. rewrite getProductEmbeddings_batches.
  change (createAIProviderClient _)
    with (@inr string _
            {| backend := Anthropic;
               clientConfig :=
                 {| AiProvider.provider := "anthropic";
                    AiProvider.apiKey := key;
                    AiProvider.visionModel := None;
                    AiProvider.embeddingModel := modelOption model |} |}).
  cbv iota. rewrite processBatches_anthropic.
  rewrite <- existsb_concat. unfold batchesOf.
  rewrite chunksFrom_concat by (unfold BATCH_SIZE; lia).
  destruct (existsb hasText (missingFrom w products)); reflexivity.
Qed.

Lemma anthropic_embeds_nothing_witness :
  getProductEmbeddings Sample.openai Sample.google Sample.catalog
                       "anthropic" "sk-ant-sample" None Sample.emptyWorld
  = (Sample.emptyWorld, inl unsupportedEmbeddings)
  /\ getProductEmbeddings Sample.openai Sample.google [Sample.blank]
                          "anthropic" "sk-ant-sample" None Sample.emptyWorld
     = (Sample.emptyWorld, inr ∅).
Proof.
  split.
  - exact (anthropic_embeds_nothing Sample.openai Sample.google
             Sample.catalog "sk-ant-sample" None Sample.emptyWorld
             ltac:(repeat constructor)).
  - exact (anthropic_embeds_nothing Sample.openai Sample.google
             [Sample.blank] "sk-ant-sample" None Sample.emptyWorld
             ltac:(repeat constructor)).
Defined.

(** ** How a failed embedding request surfaces *)

Lemma includes_after_openai_prefix (m : string) :
  includes ("OpenAI embeddings API error: " ++ m) "Invalid" = includes m "Invalid"
  /\ includes ("OpenAI embeddings API error: " ++ m) "API key"
     = includes m "API key"
  /\ includes ("OpenAI embeddings API error: " ++ m) "rate limit"
     = includes m "rate limit".
Proof. repeat split; vm_compute; reflexivity. Qed.

Lemma includes_after_google_prefix (m : string) :
  includes ("Google embeddings API error: " ++ m) "Invalid" = includes m "Invalid"
  /\ includes ("Google embeddings API error: " ++ m) "API key"
     = includes m "API key"
  /\ includes ("Google embeddings API error: " ++ m) "rate limit"
     = includes m "rate limit".
Proof. repeat split; vm_compute; reflexivity. Qed.

Lemma rethrow_openaiCatch (provider : string) (e : SdkError) :
  rethrow provider (openaiCatch e)
  = if statusIs e 401 || messageIncludes e "Invalid API key"
    then invalidKeyMessage provider
    else if statusIs e 429 || messageIncludes e "rate limit"
    then rateLimitMessage provider
    else if messageIncludes e "Invalid" && messageIncludes e "API key"
    then invalidKeyMessage provider
    else "OpenAI embeddings API error: " ++ orElse (message e) "Unknown error".
Proof.
  unfold openaiCatch.
  destruct (statusIs e 401 || messageIncludes e "Invalid API key");
    [reflexivity|].
  destruct (statusIs e 429 || messageIncludes e "rate limit") eqn:R;
    [reflexivity|].
  apply orb_false_iff in R as [_ R]. unfold rethrow.
  destruct (includes_after_openai_prefix (orElse (message e) "Unknown error"))
    as (-> & -> & ->).
  unfold messageIncludes, orElse in *. destruct (message e) as [m|].
  - destruct (truthyString m) eqn:T.
    + rewrite R. reflexivity.
    + destruct m; [|discriminate]. reflexivity.
  - reflexivity.
Qed.

Lemma rethrow_googleCatch (provider : string) (e : SdkError) :
  rethrow provider (googleCatch e)
  = if messageIncludes e "API_KEY_INVALID" || messageIncludes e "401"
    then invalidKeyMessage provider
    else if messageIncludes e "429" || messageIncludes e "RESOURCE_EXHAUSTED"
    then rateLimitMessage provider
    else if messageIncludes e "Invalid" && messageIncludes e "API key"
    then invalidKeyMessage provider
    else if messageIncludes e "rate limit"
    then rateLimitMessage provider
    else "Google embeddings API error: " ++ orElse (message e) "Unknown error".
Proof.
  unfold googleCatch.
  destruct (messageIncludes e "API_KEY_INVALID" || messageIncludes e "401");
    [reflexivity|].
  destruct (messageIncludes e "429" || messageIncludes e "RESOURCE_EXHAUSTED");
    [reflexivity|].
  unfold rethrow.
  destruct (includes_after_google_prefix (orElse (message e) "Unknown error"))
    as (-> & -> & ->).
  unfold messageIncludes, orElse in *. destruct (message e) as [m|].
  - destruct (truthyString m) eqn:T; [reflexivity|].
    destruct m; [|discriminate]. reflexivity.
  - reflexivity.
Qed.

(** X14.  What the cache layer makes of an error of the embeddings
    endpoint.  For OpenAI: the invalid-key message for status 401 or a
    message holding [Invalid API key], the rate-limit message for status
    429 or a message holding [rate limit], the invalid-key message again
    for a message holding both [Invalid] and [API key], and otherwise
    [OpenAI embeddings API error: ] followed by the message ([Unknown
    error] when there is none).  For Google the status is read off the
    message ([API_KEY_INVALID] or [401]; [429] or [RESOURCE_EXHAUSTED]),
    and a message holding [rate limit] gives the rate-limit message too.
    Both messages name the provider as the caller spelt it.  A failing
    query embedding fails with exactly that message. *)
Theorem embedding_failure_surfaces
        (openaiEmbeddings :
           list Call -> string -> list string
           -> SdkError + list (option EmbeddingVector))
        (googleEmbedContent :
           list Call -> string -> nat -> string
           -> SdkError + option EmbeddingVector)
        (provider queryText key : string) (model : option string) (w : World)
        (e : SdkError) :
  rethrow provider (openaiCatch e)
  = (if statusIs e 401 || messageIncludes e "Invalid API key"
     then invalidKeyMessage provider
     else if statusIs e 429 || messageIncludes e "rate limit"
     then rateLimitMessage provider
     else if messageIncludes e "Invalid" && messageIncludes e "API key"
     then invalidKeyMessage provider
     else "OpenAI embeddings API error: " ++ orElse (message e) "Unknown error")
  /\ rethrow provider (googleCatch e)
     = (if messageIncludes e "API_KEY_INVALID" || messageIncludes e "401"
        then invalidKeyMessage provider
        else if messageIncludes e "429"
                || messageIncludes e "RESOURCE_EXHAUSTED"
        then rateLimitMessage provider
        else if messageIncludes e "Invalid" && messageIncludes e "API key"
        then invalidKeyMessage provider
        else if messageIncludes e "rate limit"
        then rateLimitMessage provider
        else "Google embeddings API error: "
             ++ orElse (message e) "Unknown error")
  /\ (openaiEmbeddings (calls w)
                       (requestedModel model "text-embedding-3-small")
                       [queryText] = inl e ->
      snd (createQueryEmbedding openaiEmbeddings googleEmbedContent queryText
                                "openai" key model w)
      = inl (rethrow "openai" (openaiCatch e)))
  /\ (googleEmbedContent (calls w) (requestedModel model "text-embedding-004")
                         0 queryText = inl e ->
      snd (createQueryEmbedding openaiEmbeddings googleEmbedContent queryText
                                "google" key model w)
      = inl (rethrow "google" (googleCatch e))).
Proof.
  split; [apply rethrow_openaiCatch|]. split; [apply rethrow_googleCatch|].
  pose proof (createQueryEmbedding_openai openaiEmbeddings googleEmbedContent
                queryText key model w) as O.
  pose proof (createQueryEmbedding_google openaiEmbeddings googleEmbedContent
                queryText key model w) as G.
  cbv zeta in O, G. split; intros H.
  - rewrite O, H. reflexivity.
  - rewrite G, H. reflexivity.
Qed.

(** ** The image sent to Anthropic and to Google *)

Lemma includes_comma_cons (c : ascii) (r : string) :
  includes (String c r) "," = Ascii.eqb "," c || includes r ",".
Proof. simpl. rewrite andb_true_r. reflexivity. Qed.

Lemma split_no_comma (s cur : string) :
  includes s "," = false -> Vision.split "," cur s = [cur ++ s].
Proof.
  revert cur. induction s as [|c s IH]; intros cur H.
  - simpl. rewrite append_nil_r. reflexivity.
  - rewrite includes_comma_cons in H. apply orb_false_iff in H as [Hc Hs].
    cbn [Vision.split]. rewrite Ascii.eqb_sym, Hc, (IH _ Hs).
    rewrite append_assoc. reflexivity.
Qed.

Lemma split_at_comma (h rest cur : string) :
  includes h "," = false ->
  Vision.split "," cur (h ++ "," ++ rest)
  = (cur ++ h) :: Vision.split "," EmptyString rest.
Proof.
  revert cur. induction h as [|c h IH]; intros cur H.
  - rewrite append_nil_r. reflexivity.
  - rewrite includes_comma_cons in H. apply orb_false_iff in H as [Hc Hs].
    change (String c h ++ "," ++ rest) with (String c (h ++ "," ++ rest)).
    cbn [Vision.split]. rewrite Ascii.eqb_sym, Hc, (IH _ Hs).
    rewrite append_assoc. reflexivity.
Qed.

Lemma includes_comma_app (h rest : string) :
  includes (h ++ "," ++ rest) "," = true.
Proof.
  apply includes_spec. exists h, rest. reflexivity.
Qed.

(** X16.  The Anthropic and Google clients send what follows the first
    comma of a data URL, provided the payload holds no comma itself, and
    send an image that holds no comma as it is. *)
Theorem base64Data_of_data_url (header payload : string) :
  noComma header = true -> noComma payload = true ->
  Vision.base64Data (header ++ "," ++ payload) = payload
  /\ Vision.base64Data payload = payload.
Proof.
  unfold noComma. intros Hh Hp. apply negb_true_iff in Hh, Hp.
  unfold Vision.base64Data. rewrite includes_comma_app, Hp.
  split; [|reflexivity].
  rewrite (split_at_comma header payload "" Hh), (split_no_comma payload "" Hp).
  reflexivity.
Qed.

Lemma base64Data_of_data_url_witness :
  Vision.base64Data ("data:image/png;base64" ++ "," ++ "iVBORw0KGgo=")
  = "iVBORw0KGgo=".
Proof.
  exact (proj1 (base64Data_of_data_url "data:image/png;base64" "iVBORw0KGgo="
                  eq_refl eq_refl)).
Defined.

(** X17.  A GIF data URL is declared [image/gif] to Anthropic and
    [image/jpeg] to Google; for every other image the two clients declare
    the same type. *)
Theorem media_type_of_gif_differs (imageBase64 : string) :
  (startsWith "data:image/gif" imageBase64 = true ->
   Vision.mediaType imageBase64 = "image/gif"
   /\ Vision.mimeType imageBase64 = "image/jpeg")
  /\ (startsWith "data:image/gif" imageBase64 = false ->
      Vision.mediaType imageBase64 = Vision.mimeType imageBase64).
Proof.
  split.
  - intros H. apply startsWith_spec in H as [post ->]. split; reflexivity.
  - intros H. unfold Vision.mediaType, Vision.mimeType. rewrite H. reflexivity.
Qed.

(** ** How a failed vision request surfaces *)

Lemma resolveVisionModel_truthy (cfg : SearchConfig) :
  truthyString (resolveVisionModel cfg) = true.
Proof.
  unfold resolveVisionModel, orElse.
  destruct (aiModel cfg) as [m|].
  - destruct (truthyString m) eqn:T; [exact T|].
    destruct (String.eqb _ "openai"); [reflexivity|].
    destruct (String.eqb _ "anthropic"); reflexivity.
  - destruct (String.eqb _ "openai"); [reflexivity|].
    destruct (String.eqb _ "anthropic"); reflexivity.
Qed.

Lemma orElse_truthy (s d : string) : truthyString s = true -> orElse (Some s) d = s.
Proof. intros H. simpl. rewrite H. reflexivity. Qed.

Section VisionOutcome.

Variable toFixed : float -> nat -> string.
Variable openaiEmbeddings :
  list Call -> string -> list string -> SdkError + list (option EmbeddingVector).
Variable googleEmbedContent :
  list Call -> string -> nat -> string -> SdkError + option EmbeddingVector.
Variable analyzeImage :
  AIProviderClient -> string -> string -> option string -> string -> Result string.

(** A search whose first vision call throws. *)
Lemma performSearch_first_call_throws input fetched w key client msg :
  let cfg := mergeConfig (config input) in
  resolveEmbeddingKey input cfg = Some key ->
  createAIProviderClient
    {| AiProvider.provider := visionProvider cfg;
       AiProvider.apiKey := visionApiKey input;
       AiProvider.visionModel := Some (resolveVisionModel cfg);
       AiProvider.embeddingModel := None |} = inr client ->
  analyzeImage client (imageBase64 input) analysisPrompt None
               (resolveVisionModel cfg) = inl msg ->
  performSearch toFixed openaiEmbeddings googleEmbedContent analyzeImage
                input fetched w
  = (w, inl (rethrowVision (visionProvider cfg) true msg)).
Proof.
  intros cfg Hkey Hclient Hvision. unfold performSearch. fold cfg.
  destruct (resolveEmbedding cfg) as [ep em].
  rewrite Hkey, Hclient, Hvision. reflexivity.
Qed.

End VisionOutcome.

Lemma includes_after_vision_prefix (m : string) :
  (includes ("OpenAI API error: " ++ m) "Invalid" = includes m "Invalid"
   /\ includes ("OpenAI API error: " ++ m) "API key" = includes m "API key"
   /\ includes ("OpenAI API error: " ++ m) "rate limit"
      = includes m "rate limit"
   /\ includes ("OpenAI API error: " ++ m) "image" = includes m "image")
  /\ (includes ("Anthropic API error: " ++ m) "Invalid" = includes m "Invalid"
      /\ includes ("Anthropic API error: " ++ m) "API key"
         = includes m "API key"
      /\ includes ("Anthropic API error: " ++ m) "rate limit"
         = includes m "rate limit"
      /\ includes ("Anthropic API error: " ++ m) "image" = includes m "image")
  /\ (includes ("Google API error: " ++ m) "Invalid" = includes m "Invalid"
      /\ includes ("Google API error: " ++ m) "API key" = includes m "API key"
      /\ includes ("Google API error: " ++ m) "rate limit"
         = includes m "rate limit"
      /\ includes ("Google API error: " ++ m) "image" = includes m "image").
Proof. repeat split; vm_compute; reflexivity. Qed.

Lemma rethrowVision_catches (provider : string) (imageCheck : bool)
      (e : SdkError) :
  rethrowVision provider imageCheck (Vision.openaiCatch e)
  = (if statusIs e 401 || messageIncludes e "Invalid API key"
     then invalidKeyMessage provider
     else if statusIs e 429 || messageIncludes e "rate limit"
     then rateLimitMessage provider
     else passedOn imageCheck provider "OpenAI API error: " e)
  /\ rethrowVision provider imageCheck (Vision.anthropicCatch e)
     = (if statusIs e 401 || messageIncludes e "invalid_api_key"
        then invalidKeyMessage provider
        else if statusIs e 429 || messageIncludes e "rate_limit"
        then rateLimitMessage provider
        else passedOn imageCheck provider "Anthropic API error: " e)
  /\ rethrowVision provider imageCheck (Vision.googleCatch e)
     = (if messageIncludes e "API_KEY_INVALID" || messageIncludes e "401"
        then invalidKeyMessage provider
        else if messageIncludes e "429"
                || messageIncludes e "RESOURCE_EXHAUSTED"
        then rateLimitMessage provider
        else passedOn imageCheck provider "Google API error: " e).
Proof.
  destruct (includes_after_vision_prefix (orElse (message e) "Unknown error"))
    as ((O1 & O2 & O3 & O4) & (A1 & A2 & A3 & A4) & (G1 & G2 & G3 & G4)).
  unfold Vision.openaiCatch, Vision.anthropicCatch, Vision.googleCatch, passedOn.
  split; [|split].
  - destruct (statusIs e 401 || messageIncludes e "Invalid API key");
      [destruct imageCheck; reflexivity|].
    destruct (statusIs e 429 || messageIncludes e "rate limit");
      [destruct imageCheck; reflexivity|].
    unfold rethrowVision. rewrite O1, O2, O3, O4. reflexivity.
  - destruct (statusIs e 401 || messageIncludes e "invalid_api_key");
      [destruct imageCheck; reflexivity|].
    destruct (statusIs e 429 || messageIncludes e "rate_limit");
      [destruct imageCheck; reflexivity|].
    unfold rethrowVision. rewrite A1, A2, A3, A4. reflexivity.
  - destruct (messageIncludes e "API_KEY_INVALID" || messageIncludes e "401");
      [destruct imageCheck; reflexivity|].
    destruct (messageIncludes e "429" || messageIncludes e "RESOURCE_EXHAUSTED");
      [destruct imageCheck; reflexivity|].
    unfold rethrowVision. rewrite G1, G2, G3, G4. reflexivity.
Qed.

Lemma openai_client (cfg : SearchConfig) (key : string) :
  visionProvider cfg = "openai" ->
  createAIProviderClient
    {| AiProvider.provider := visionProvider cfg;
       AiProvider.apiKey := key;
       AiProvider.visionModel := Some (resolveVisionModel cfg);
       AiProvider.embeddingModel := None |}
  = inr {| backend := OpenAI;
           clientConfig :=
             {| AiProvider.provider := "openai";
                AiProvider.apiKey := key;
                AiProvider.visionModel := Some (resolveVisionModel cfg);
                AiProvider.embeddingModel := None |} |}.
Proof. intros ->. reflexivity. Qed.

Lemma analyzeImage_openai_first
      (openaiChat : Vision.ChatRequest -> SdkError + option string)
      (anthropicMessages :
         Vision.MessagesRequest -> SdkError + list Vision.ContentBlock)
      (googleGenerate : Vision.GenerateRequest -> SdkError + string)
      (input : PerformSearchInput) (key : string) :
  let cfg := mergeConfig (config input) in
  Vision.analyzeImage openaiChat anthropicMessages googleGenerate
    {| backend := OpenAI;
       clientConfig :=
         {| AiProvider.provider := "openai";
            AiProvider.apiKey := key;
            AiProvider.visionModel := Some (resolveVisionModel cfg);
            AiProvider.embeddingModel := None |} |}
    (imageBase64 input) analysisPrompt None (resolveVisionModel cfg)
  = match openaiChat (analysisRequest input) with
    | inl e => inl (Vision.openaiCatch e)
    | inr content => inr (orElse content "")
    end.
Proof.
  intros cfg. unfold Vision.analyzeImage, analysisRequest. fold cfg.
  cbn [backend clientConfig AiProvider.visionModel app].
  rewrite (orElse_truthy _ _ (resolveVisionModel_truthy cfg)). reflexivity.
Qed.

(** X18.  When the OpenAI chat endpoint fails on the first vision call,
    the search fails without an embedding request: with the invalid-key
    message for status 401 or an [Invalid API key] text, with the
    rate-limit message for status 429 or a [rate limit] text, and
    otherwise with what the message makes of it: invalid key, rate limit
    or invalid image when it says so, else [OpenAI API error: ] followed
    by the message. *)
Theorem vision_failure_surfaces
        (toFixed : float -> nat -> string)
        (openaiEmbeddings :
           list Call -> string -> list string
           -> SdkError + list (option EmbeddingVector))
        (googleEmbedContent :
           list Call -> string -> nat -> string
           -> SdkError + option EmbeddingVector)
        (openaiChat : Vision.ChatRequest -> SdkError + option string)
        (anthropicMessages :
           Vision.MessagesRequest -> SdkError + list Vision.ContentBlock)
        (googleGenerate : Vision.GenerateRequest -> SdkError + string)
        (input : PerformSearchInput) (fetched : list Product) (w : World)
        (key : string) (e : SdkError) :
  let cfg := mergeConfig (config input) in
  visionProvider cfg = "openai" ->
  resolveEmbeddingKey input cfg = Some key ->
  openaiChat (analysisRequest input) = inl e ->
  performSearch toFixed openaiEmbeddings googleEmbedContent
                (Vision.analyzeImage openaiChat anthropicMessages
                                     googleGenerate)
                input fetched w
  = (w, inl (if statusIs e 401 || messageIncludes e "Invalid API key"
             then invalidKeyMessage "openai"
             else if statusIs e 429 || messageIncludes e "rate limit"
             then rateLimitMessage "openai"
             else passedOn true "openai" "OpenAI API error: " e)).
Proof.
  intros cfg Hp Hkey He. subst cfg.
  rewrite (performSearch_first_call_throws toFixed openaiEmbeddings
             googleEmbedContent _ input fetched w key _
             (Vision.openaiCatch e) Hkey (openai_client _ _ Hp)).
  - rewrite Hp.
    rewrite (proj1 (rethrowVision_catches "openai" true e)). reflexivity.
  - rewrite analyzeImage_openai_first, He. reflexivity.
Qed.

Lemma vision_failure_surfaces_witness :
  performSearch Sample.toFixed Sample.openai Sample.google
                (Vision.analyzeImage SampleVision.rejecting SampleVision.noBlocks
                                     SampleVision.noText)
                (Sample.request Sample.userConfig None) Sample.catalog
                Sample.emptyWorld
  = (Sample.emptyWorld,
     inl "Invalid openai API key. Please check your API key and try again.").
Proof.
  exact (vision_failure_surfaces Sample.toFixed Sample.openai Sample.google
           SampleVision.rejecting SampleVision.noBlocks SampleVision.noText
           (Sample.request Sample.userConfig None) Sample.catalog
           Sample.emptyWorld "sk-sample"
           {| status := Some 401%Z; message := Some "Incorrect key provided" |}
           eq_refl eq_refl eq_refl).
Defined.

(** X26.  When the OpenAI chat endpoint answers without content, the
    search treats the image as no furniture: it succeeds with no results,
    an empty rejection reason and no embedding request. *)
Theorem answer_without_text_is_rejected
        (toFixed : float -> nat -> string)
        (openaiEmbeddings :
           list Call -> string -> list string
           -> SdkError + list (option EmbeddingVector))
        (googleEmbedContent :
           list Call -> string -> nat -> string
           -> SdkError + option EmbeddingVector)
        (openaiChat : Vision.ChatRequest -> SdkError + option string)
        (anthropicMessages :
           Vision.MessagesRequest -> SdkError + list Vision.ContentBlock)
        (googleGenerate : Vision.GenerateRequest -> SdkError + string)
        (input : PerformSearchInput) (fetched : list Product) (w : World)
        (key : string) (content : option string) :
  let cfg := mergeConfig (config input) in
  visionProvider cfg = "openai" ->
  resolveEmbeddingKey input cfg = Some key ->
  openaiChat (analysisRequest input) = inr content ->
  truthyOpt content = false ->
  exists out,
    performSearch toFixed openaiEmbeddings googleEmbedContent
                  (Vision.analyzeImage openaiChat anthropicMessages
                                       googleGenerate)
                  input fetched w = (w, inr out)
    /\ results out = [] /\ isFurniture out = false
    /\ rejectionReason out = Some ""
    /\ totalProducts out = 0%nat /\ considered out = 0%nat.
Proof.
  intros cfg Hp Hkey Hc Hfalsy. subst cfg.
  assert (orElse content "" = "") as E.
  { destruct content as [[|c s]|]; [reflexivity | discriminate | reflexivity]. }
  unfold performSearch.
  destruct (resolveEmbedding (mergeConfig (config input))) as [ep em].
  rewrite Hkey, (openai_client _ _ Hp), analyzeImage_openai_first, Hc, E.
  eexists. split; [reflexivity|]. repeat split.
Qed.

Lemma answer_without_text_is_rejected_witness :
  exists out,
    performSearch Sample.toFixed Sample.openai Sample.google
                  (Vision.analyzeImage SampleVision.silent SampleVision.noBlocks
                                       SampleVision.noText)
                  (Sample.request Sample.userConfig None) Sample.catalog
                  Sample.emptyWorld
    = (Sample.emptyWorld, inr out)
    /\ results out = [] /\ rejectionReason out = Some "".
Proof.
  destruct (answer_without_text_is_rejected
              Sample.toFixed Sample.openai Sample.google
              SampleVision.silent SampleVision.noBlocks SampleVision.noText
              (Sample.request Sample.userConfig None) Sample.catalog
              Sample.emptyWorld "sk-sample" None
              eq_refl eq_refl eq_refl eq_refl)
    as (out & E & R & _ & J & _).
  exists out. exact (conj E (conj R J)).
Defined.

(** ** The route: validated integers *)

Section IntegerNumbers.

Local Open Scope Z_scope.

Lemma aligned_scaled (s : bool) (m : positive) (e k : Z) :
  emin64 <= k -> k <= e ->
  aligned s m e k * 2 ^ (k - emin64) = scaled (S754_finite s m e).
Proof.
  intros Hk He. unfold scaled.
  replace (e - emin64) with ((e - k) + (k - emin64)) by lia.
  rewrite Z.pow_add_r by lia.
  destruct s; rewrite ?aligned_pos, ?aligned_neg by lia; simpl cond_Zopp; lia.
Qed.

Lemma SFleb_scaled (x y : spec_float) :
  valid_binary x = true -> valid_binary y = true ->
  finiteNumber x = true -> finiteNumber y = true ->
  SFleb x y = true -> scaled x <= scaled y.
Proof.
  intros Vx Vy Fx Fy. unfold SFleb.
  destruct x as [sx | sx | | sx mx ex], y as [sy | sy | | sy my ey];
    try discriminate; try (intros _; simpl; lia).
  - simpl SFcompare. destruct sy; [discriminate|]. intros _.
    simpl scaled. simpl cond_Zopp.
    assert (0 < 2 ^ (ey - emin64))
      by (apply Z.pow_pos_nonneg;
          [lia | apply bounded_inv in Vy; lia]).
    lia.
  - simpl SFcompare. destruct sx; [|discriminate]. intros _.
    simpl scaled. simpl cond_Zopp.
    assert (0 < 2 ^ (ex - emin64))
      by (apply Z.pow_pos_nonneg;
          [lia | apply bounded_inv in Vx; lia]).
    lia.
  - simpl valid_binary in Vx, Vy.
    rewrite (SFcompare_finite sx sy mx my ex ey Vx Vy).
    pose proof (bounded_inv _ _ Vx) as (Lx & _).
    pose proof (bounded_inv _ _ Vy) as (Ly & _).
    set (k := Z.min ex ey).
    rewrite <- (aligned_scaled sx mx ex k) by lia.
    rewrite <- (aligned_scaled sy my ey k) by lia.
    assert (0 < 2 ^ (k - emin64)) by (apply Z.pow_pos_nonneg; lia).
    destruct (Z.compare_spec (aligned sx mx ex k) (aligned sy my ey k));
      intros E; try discriminate; nia.
Qed.

Lemma integerOf_scaled (x : float) :
  Route.isInteger x = true ->
  scaled (Prim2SF x) = Route.integerOf x * 2 ^ 1074.
Proof.
  unfold Route.isInteger, Route.integerOf. pose proof (Prim2SF_valid x) as V.
  destruct (Prim2SF x) as [s | s | | s m e]; try discriminate;
    [reflexivity|].
  simpl valid_binary in V. apply bounded_inv in V as (L & _).
  unfold emin64, SpecFloat.emin, prec, emax in L. simpl in L.
  intros H. unfold scaled.
  replace (e - emin64) with (e + 1074) by (unfold emin64; reflexivity).
  assert (forall a c, cond_Zopp s a * c = cond_Zopp s (a * c)) as C
    by (intros a c; destruct s; simpl; lia).
  rewrite C. f_equal.
  destruct (Z.leb_spec 0 e) as [Pe | Ne].
  - rewrite Z.pow_add_r by lia. lia.
  - simpl orb in H. apply Z.eqb_eq in H.
    assert (0 < 2 ^ (- e)) as P by (apply Z.pow_pos_nonneg; lia).
    pose proof (Z.div_mod (Z.pos m) (2 ^ (- e)) ltac:(lia)) as D.
    rewrite H, Z.add_0_r in D.
    replace 1074 with ((- e) + (e + 1074)) at 2 by lia.
    rewrite (Z.pow_add_r 2 (- e) (e + 1074)) by lia.
    rewrite D at 1. lia.
Qed.

Lemma integer_between (x lo hi : float) (a b : Z) :
  scaled (Prim2SF lo) = a * 2 ^ 1074 ->
  scaled (Prim2SF hi) = b * 2 ^ 1074 ->
  finiteNumber (Prim2SF lo) = true -> finiteNumber (Prim2SF hi) = true ->
  Route.isInteger x = true ->
  (lo <=? x)%float = true -> (x <=? hi)%float = true ->
  a <= Route.integerOf x <= b.
Proof.
  intros Ha Hb Flo Fhi Hi Hlo Hhi.
  assert (finiteNumber (Prim2SF x) = true) as Fx.
  { unfold Route.isInteger in Hi. destruct (Prim2SF x); try discriminate;
      reflexivity. }
  rewrite leb_spec in Hlo, Hhi.
  apply SFleb_scaled in Hlo; try apply Prim2SF_valid; try assumption.
  apply SFleb_scaled in Hhi; try apply Prim2SF_valid; try assumption.
  rewrite (integerOf_scaled x Hi) in Hlo, Hhi. rewrite Ha in Hlo.
  rewrite Hb in Hhi.
  assert (0 < 2 ^ 1074) by (apply Z.pow_pos_nonneg; lia).
  nia.
Qed.

End IntegerNumbers.

(** ** The route: what the schema lets through *)

Section Schema.

Variable infinityIsNumber : bool.

Local Open Scope Z_scope.

Lemma zIntRange_between (lo hi : float) (a b : Z) (value : Route.Json) (z : Z) :
  scaled (Prim2SF lo) = a * 2 ^ 1074 ->
  scaled (Prim2SF hi) = b * 2 ^ 1074 ->
  finiteNumber (Prim2SF lo) = true -> finiteNumber (Prim2SF hi) = true ->
  Route.zIntRange infinityIsNumber lo hi value = Some z -> a <= z <= b.
Proof.
  intros Ha Hb Flo Fhi. unfold Route.zIntRange.
  destruct (Route.zNumber infinityIsNumber value) as [x|]; [|discriminate].
  destruct (Route.isInteger x) eqn:I; [|discriminate].
  destruct (lo <=? x)%float eqn:L; [|discriminate].
  destruct (x <=? hi)%float eqn:U; [|discriminate].
  intros [= <-]. exact (integer_between x lo hi a b Ha Hb Flo Fhi I L U).
Qed.

Lemma optional_Some {A} (schema : Route.Json -> option A) (value : option Route.Json)
      (r : option A) (x : A) :
  Route.optional schema value = Some r -> r = Some x ->
  exists v, value = Some v /\ schema v = Some x.
Proof.
  unfold Route.optional. destruct value as [v|]; [|intros [= <-]; discriminate].
  destruct (schema v) as [y|] eqn:S; [|discriminate]. simpl.
  intros [= <-] [= ->]. exists v. split; [reflexivity | exact S].
Qed.

(** What the schema lets through of the two integer fields. *)
Lemma configSchema_integers (value : Route.Json) (cfg : PartialConfig) :
  Route.configSchema infinityIsNumber value = Some cfg ->
  (forall k, userTopK cfg = Some k -> 1 <= k <= 50)
  /\ (forall k, userMaxCandidates cfg = Some k -> 10 <= k <= 500).
Proof.
  unfold Route.configSchema. destruct value as [| | | | |members];
    try discriminate.
  cbv zeta. unfold mbind, option_bind.
  repeat match goal with
         | |- context [Route.optional ?s ?v] =>
             let E := fresh "E" in
             destruct (Route.optional s v) eqn:E; [|discriminate]
         end.
  intros [= <-]. simpl userTopK. simpl userMaxCandidates. split; intros k ->.
  - destruct (optional_Some _ _ _ _ E0 eq_refl) as (v & _ & Hv).
    apply (zIntRange_between 1 50 1 50 v k); try exact Hv;
      vm_compute; reflexivity.
  - destruct (optional_Some _ _ _ _ E eq_refl) as (v & _ & Hv).
    apply (zIntRange_between 10 500 10 500 v k); try exact Hv;
      vm_compute; reflexivity.
Qed.

Lemma configSchema_provider (value : Route.Json) (cfg : PartialConfig) :
  Route.configSchema infinityIsNumber value = Some cfg ->
  exists members,
    value = Route.JObject members
    /\ match Route.member "aiProvider" members with
       | None => userAiProvider cfg = None
       | Some (Route.JString s) => userAiProvider cfg = Some s
       | Some _ => False
       end.
Proof.
  unfold Route.configSchema. destruct value as [| | | | |members];
    try discriminate.
  cbv zeta. unfold mbind, option_bind.
  repeat match goal with
         | |- context [Route.optional ?s ?v] =>
             let E := fresh "E" in
             destruct (Route.optional s v) eqn:E; [|discriminate]
         end.
  intros [= <-]. exists members. split; [reflexivity|]. simpl userAiProvider.
  unfold Route.optional in E8.
  destruct (Route.member "aiProvider" members) as [[| | |s| |]|];
    simpl in E8; try discriminate; injection E8 as <-; reflexivity.
Qed.

Local Close Scope Z_scope.

(** The provider the handler reads off the raw body is the one the
    search reads off the validated body. *)
Lemma provider_agrees (value : Route.Json) (parsed : Route.ParsedBody) :
  Route.safeParse infinityIsNumber value = Some parsed ->
  Route.providerOf value
  = inr (Route.JString
           (visionProvider (mergeConfig (Route.parsedConfig parsed)))).
Proof.
  unfold Route.safeParse. destruct value as [| | | | |members];
    try discriminate.
  unfold mbind, option_bind.
  destruct (Route.required _ _) as [image|]; [|discriminate].
  destruct (Route.optional Route.zString _) as [q|]; [|discriminate].
  destruct (Route.optional (Route.configSchema infinityIsNumber) _)
    as [c|] eqn:C; [|discriminate].
  intros [= <-]. simpl Route.parsedConfig.
  unfold Route.providerOf, Route.property. unfold Route.optional in C.
  destruct (Route.member "config" members) as [cv|].
  - destruct (Route.configSchema infinityIsNumber cv) as [cfg|] eqn:S;
      [|discriminate].
    injection C as <-.
    apply configSchema_provider in S as (cm & -> & P).
    unfold Route.optionalProperty.
    destruct (Route.member "aiProvider" cm) as [[| | |s| |]|];
      try contradiction; unfold visionProvider, mergeConfig; simpl aiProvider;
      rewrite P; [|reflexivity].
    simpl. destruct (truthyString s); reflexivity.
  - injection C as <-. reflexivity.
Qed.

End Schema.

(** ** The route: the handler *)

Section Handler.

Variable infinityIsNumber : bool.
Variable numberToString : float -> string.
Variable toFixed : float -> nat -> string.
Variable openaiEmbeddings :
  list Call -> string -> list string -> SdkError + list (option EmbeddingVector).
Variable googleEmbedContent :
  list Call -> string -> nat -> string -> SdkError + option EmbeddingVector.
Variable analyzeImage :
  AIProviderClient -> string -> string -> option string -> string -> Result string.

Let post := Route.post infinityIsNumber numberToString toFixed openaiEmbeddings
                       googleEmbedContent analyzeImage.
Let search := performSearch toFixed openaiEmbeddings googleEmbedContent
                            analyzeImage.

Lemma keysOf_supported (req : Route.Request) (provider : Route.Json) :
  truthyOpt (fst (Route.keysOf req provider)) = true ->
  Route.isProvider provider "openai" = true
  \/ Route.isProvider provider "anthropic" = true
  \/ Route.isProvider provider "google" = true.
Proof.
  unfold Route.keysOf.
  destruct (Route.isProvider provider "openai"); [tauto|].
  destruct (Route.isProvider provider "anthropic"); [tauto|].
  destruct (Route.isProvider provider "google"); [tauto|].
  discriminate.
Qed.

Lemma supported_client (p key : string) (model : option string) :
  p = "openai" \/ p = "anthropic" \/ p = "google" ->
  exists client,
    createAIProviderClient
      {| AiProvider.provider := p; AiProvider.apiKey := key;
         AiProvider.visionModel := model;
         AiProvider.embeddingModel := None |} = inr client.
Proof. intros [-> | [-> | ->]]; eexists; reflexivity. Qed.

(** The handler answers 400 without touching anything, or runs a search
    that has its keys and a supported vision provider. *)
Lemma post_cases (req : Route.Request) (fetched : list Product)
      (w w' : World) (resp : Route.Response) :
  post req fetched w = (w', resp) ->
  (w' = w /\ exists message, resp = Route.Failure 400 message)
  \/ (w' = w
      /\ exists typeError,
          resp = Route.Failure 500 typeError
          /\ (Route.providerOf (Route.body req) = inl typeError
              \/ exists provider,
                  Route.providerOf (Route.body req) = inr provider
                  /\ Route.toText numberToString provider = inl typeError))
  \/ exists parsed visionKey embeddingKey client r,
      let input :=
        {| visionApiKey := visionKey;
           embeddingApiKey := Some embeddingKey;
           imageBase64 := Route.parsedImage parsed;
           queryText := Route.parsedQueryText parsed;
           config := Route.parsedConfig parsed |} in
      let cfg := mergeConfig (config input) in
      Route.safeParse infinityIsNumber (Route.body req) = Some parsed
      /\ truthyString visionKey = true
      /\ truthyString embeddingKey = true
      /\ resolveEmbeddingKey input cfg = Some embeddingKey
      /\ createAIProviderClient
           {| AiProvider.provider := visionProvider cfg;
              AiProvider.apiKey := visionKey;
              AiProvider.visionModel := Some (resolveVisionModel cfg);
              AiProvider.embeddingModel := None |} = inr client
      /\ search input fetched w = (w', r)
      /\ resp = match r with
                | inr out => Route.Success out
                | inl message => Route.Failure 500 message
                end.
Proof.
  unfold post, Route.post.
  destruct (Route.providerOf (Route.body req)) as [typeError | provider] eqn:P.
  { intros [= <- <-]. right. left. split; [reflexivity|].
    exists typeError. split; [reflexivity | left; reflexivity]. }
  destruct (Route.keysOf req provider) as [vk ek] eqn:K.
  destruct (truthyOpt vk) eqn:Tv; simpl negb; cbv iota.
  2:{ unfold Route.missingKey.
      destruct (Route.toText numberToString provider) as [typeError | name]
        eqn:T; intros [= <- <-].
      - right. left. split; [reflexivity|]. exists typeError.
        split; [reflexivity|]. right. exists provider.
        split; [reflexivity | exact T].
      - left. split; [reflexivity | eexists; reflexivity]. }
  destruct (Route.isProvider provider "anthropic" && negb (truthyOpt ek));
    [intros [= <- <-]; left; split; [reflexivity | eexists; reflexivity]|].
  destruct (Route.safeParse infinityIsNumber (Route.body req))
    as [parsed|] eqn:S;
    [|intros [= <- <-]; left; split; [reflexivity | eexists; reflexivity]].
  set (ek' := if negb (truthyOpt ek)
                 && negb (Route.isProvider provider "anthropic")
              then vk else ek).
  destruct (truthyOpt ek') eqn:Te; simpl negb; cbv iota;
    [|intros [= <- <-]; left; split; [reflexivity | eexists; reflexivity]].
  destruct vk as [visionKey|]; [|discriminate].
  destruct ek' as [embeddingKey|] eqn:Ek; [|discriminate].
  simpl in Tv, Te. unfold Route.searchInput. simpl defaultTo.
  fold search.
  destruct (search _ fetched w) as [w1 r] eqn:R.
  assert (Route.isProvider provider "openai" = true
          \/ Route.isProvider provider "anthropic" = true
          \/ Route.isProvider provider "google" = true) as Sup
    by (apply (keysOf_supported req); rewrite K; exact Tv).
  rewrite (provider_agrees infinityIsNumber _ _ S) in P. injection P as <-.
  simpl Route.isProvider in Sup. rewrite !String.eqb_eq in Sup.
  destruct (supported_client _ visionKey
              (Some (resolveVisionModel
                       (mergeConfig (Route.parsedConfig parsed)))) Sup)
    as [client C].
  intros H.
  assert (w1 = w' /\ resp = match r with
                            | inr out => Route.Success out
                            | inl message => Route.Failure 500 message
                            end) as [-> ->]
    by (destruct r; injection H as <- <-; split; reflexivity).
  right. right.
  exists parsed, visionKey, embeddingKey, client, r. cbv zeta.
  simpl config. repeat split; try assumption.
  unfold resolveEmbeddingKey. simpl embeddingApiKey. simpl truthyOpt.
  rewrite Te. reflexivity.
Qed.

End Handler.

Lemma safeParse_config (infinityIsNumber : bool) (value : Route.Json)
      (parsed : Route.ParsedBody) (cfg : PartialConfig) :
  Route.safeParse infinityIsNumber value = Some parsed ->
  Route.parsedConfig parsed = Some cfg ->
  exists v, Route.configSchema infinityIsNumber v = Some cfg.
Proof.
  unfold Route.safeParse. destruct value as [| | | | |members];
    try discriminate.
  unfold mbind, option_bind.
  destruct (Route.required _ _) as [image|]; [|discriminate].
  destruct (Route.optional Route.zString _) as [q|]; [|discriminate].
  destruct (Route.optional (Route.configSchema infinityIsNumber) _)
    as [c|] eqn:C; [|discriminate].
  intros [= <-]. simpl. intros ->.
  destruct (optional_Some _ _ _ _ C eq_refl) as (v & _ & Hv).
  exists v. exact Hv.
Qed.

Lemma validated_bounds (infinityIsNumber : bool) (value : Route.Json)
      (parsed : Route.ParsedBody) :
  Route.safeParse infinityIsNumber value = Some parsed ->
  let cfg := mergeConfig (Route.parsedConfig parsed) in
  (1 <= topK cfg <= 50)%Z /\ (10 <= maxCandidates cfg <= 500)%Z.
Proof.
  intros S. destruct (Route.parsedConfig parsed) as [c|] eqn:C;
    [|cbv zeta; simpl; lia].
  destruct (safeParse_config _ _ _ _ S C) as [v Hv].
  apply configSchema_integers in Hv as [T M]. cbv zeta. simpl.
  destruct (userTopK c) as [k|], (userMaxCandidates c) as [m|]; simpl;
    try pose proof (T _ eq_refl); try pose proof (M _ eq_refl); lia.
Qed.

(** X20.  A response the route answers with success holds at most 50
    results drawn from at most 500 candidates: the body passed the
    schema, which keeps [topK] within 1..50 and [maxCandidates] within
    10..500 (defaults included), and the search respects both. *)
Theorem route_bounds_the_response
        (infinityIsNumber : bool) (numberToString : float -> string)
        (toFixed : float -> nat -> string)
        (openaiEmbeddings :
           list Call -> string -> list string
           -> SdkError + list (option EmbeddingVector))
        (googleEmbedContent :
           list Call -> string -> nat -> string
           -> SdkError + option EmbeddingVector)
        (analyzeImage :
           AIProviderClient -> string -> string -> option string -> string
           -> Result string)
        (req : Route.Request) (fetched : list Product) (w w' : World)
        (out : SearchOutput) :
  Route.post infinityIsNumber numberToString toFixed openaiEmbeddings
             googleEmbedContent analyzeImage req fetched w
  = (w', Route.Success out) ->
  (length (results out) <= 50)%nat
  /\ (considered out <= 500)%nat
  /\ exists parsed,
      Route.safeParse infinityIsNumber (Route.body req) = Some parsed
      /\ let cfg := mergeConfig (Route.parsedConfig parsed) in
         (1 <= topK cfg <= 50)%Z
         /\ (10 <= maxCandidates cfg <= 500)%Z
         /\ (Z.of_nat (length (results out)) <= topK cfg)%Z
         /\ (Z.of_nat (considered out) <= maxCandidates cfg)%Z.
Proof.
  intros H. apply post_cases in H.
  destruct H as [(_ & m & E) | [(_ & te & E & _) | H]]; try discriminate.
  destruct H as (parsed & vk & ek & client & r & S & _ & _ & _ & _ & R & E).
  cbv zeta in *. simpl config in *.
  destruct r as [m|out']; [discriminate|]. injection E as <-.
  pose proof (validated_bounds _ _ _ S) as [T M]. cbv zeta in T, M.
  apply performSearch_inr in R. cbv zeta in R. simpl config in R.
  assert ((Z.of_nat (length (results out))
           <= topK (mergeConfig (Route.parsedConfig parsed)))%Z
          /\ (Z.of_nat (considered out)
              <= maxCandidates (mergeConfig (Route.parsedConfig parsed)))%Z)
    as [A B].
  { destruct R as [(_ & -> & ->) | (_ & -> & _ & an & cq & qe & pe & scored & _ & ->)].
    - simpl. lia.
    - split; [apply rank_length; lia|].
      unfold candidatesOf. rewrite slice0_firstn by lia.
      rewrite length_firstn. lia. }
  split; [lia|]. split; [lia|]. exists parsed. repeat split; try lia.
  exact S.
Qed.

Lemma answered_success (r : World * Route.Response) :
  SampleRoute.answered r = true -> exists w' out, r = (w', Route.Success out).
Proof.
  destruct r as [w' [out | code m]]; [|discriminate].
  intros _. exists w', out. reflexivity.
Qed.

Lemma route_bounds_the_response_witness :
  exists w' out,
    Route.post true SampleRoute.numberToString Sample.toFixed Sample.openai
               Sample.google Sample.vision
               {| Route.headers := SampleRoute.openaiHeaders;
                  Route.body := SampleRoute.searchBody (Route.JString "openai") |}
               Sample.catalog Sample.emptyWorld
    = (w', Route.Success out)
    /\ (length (results out) <= 50)%nat.
Proof.
  destruct (answered_success
              (Route.post true SampleRoute.numberToString Sample.toFixed
                 Sample.openai Sample.google Sample.vision
                 {| Route.headers := SampleRoute.openaiHeaders;
                    Route.body := SampleRoute.searchBody (Route.JString "openai") |}
                 Sample.catalog Sample.emptyWorld))
    as (w' & out & E); [vm_compute; reflexivity|].
  exists w', out. split; [exact E|].
  exact (proj1 (route_bounds_the_response _ _ _ _ _ _ _ _ _ _ _ E)).
Defined.

Example route_sample :
  match snd (SampleRoute.post {| Route.headers := SampleRoute.openaiHeaders;
                             Route.body := SampleRoute.searchBody
                                             (Route.JString "openai") |}) with
  | Route.Success out => map (fun r => _id (product r)) (results out)
  | Route.Failure _ _ => []
  end = ["p3"; "p1"; "p2"].
Proof. vm_compute. reflexivity. Qed.

Lemma providerOf_container (value : Route.Json) :
  jsonContainer value = true ->
  exists provider, Route.providerOf value = inr provider.
Proof.
  destruct value; try discriminate; intros _; unfold Route.providerOf;
    simpl; eauto.
Qed.

(** The one error of [toText]. *)
Lemma toText_error (numberToString : float -> string) :
  forall (value : Route.Json) (typeError : string),
    Route.toText numberToString value = inl typeError ->
    typeError = "Cannot convert object to primitive value".
Proof.
  fix IH 1. intros [| b | x | s | items | members] typeError; simpl;
    try discriminate.
  - revert typeError.
    induction items as [|item rest IHrest]; intros typeError;
      [discriminate|].
    cbn [mapResult].
    assert (forall part : string,
               match
                 match mapResult
                         (fun item => match item with
                                      | Route.JNull => inr EmptyString
                                      | _ => Route.toText numberToString item
                                      end) rest with
                 | inl e => inl e
                 | inr ys => inr (part :: ys)
                 end
               with
               | inl e => @inl string string e
               | inr parts => inr (join "," parts)
               end = inl typeError ->
               typeError = "Cannot convert object to primitive value") as Rest.
    { intros part. destruct (mapResult _ rest) as [e | parts] eqn:R;
        [|discriminate].
      intros [= <-]. apply IHrest. reflexivity. }
    pose proof (IH item) as Item.
    destruct item as [| b | x | s | items' | members']; cbv iota beta;
      try apply Rest.
    + destruct (Route.toText numberToString (Route.JArray items'))
        as [e | part] eqn:T; [|apply Rest].
      intros [= <-]. exact (Item _ eq_refl).
    + destruct (Route.toText numberToString (Route.JObject members'))
        as [e | part] eqn:T; [|apply Rest].
      intros [= <-]. exact (Item _ eq_refl).
  - destruct (Route.member "toString" members); [|discriminate].
    intros [= <-]. reflexivity.
Qed.

(** X21.  Behind [express.json], which hands on objects and arrays only,
    the route answers in one of three ways.  It refuses with status 400
    and leaves the cache and the call log alone; or the provider the body
    names cannot be printed into the refusal, and the error handler
    answers 500 with the [TypeError]'s message, again without a search;
    or the body passed the schema and a search ran with a non-empty
    vision key, a non-empty embedding key that the search resolves to
    itself, and a vision provider the factory knows: its output is
    returned as it is, and its failure is answered with status 500. *)
Theorem route_runs_configured_searches
        (infinityIsNumber : bool) (numberToString : float -> string)
        (toFixed : float -> nat -> string)
        (openaiEmbeddings :
           list Call -> string -> list string
           -> SdkError + list (option EmbeddingVector))
        (googleEmbedContent :
           list Call -> string -> nat -> string
           -> SdkError + option EmbeddingVector)
        (analyzeImage :
           AIProviderClient -> string -> string -> option string -> string
           -> Result string)
        (req : Route.Request) (fetched : list Product) (w w' : World)
        (resp : Route.Response) :
  jsonContainer (Route.body req) = true ->
  Route.post infinityIsNumber numberToString toFixed openaiEmbeddings
             googleEmbedContent analyzeImage req fetched w = (w', resp) ->
  (w' = w /\ exists message, resp = Route.Failure 400 message)
  \/ (w' = w
      /\ resp = Route.Failure 500 "Cannot convert object to primitive value"
      /\ exists provider,
          Route.providerOf (Route.body req) = inr provider
          /\ Route.toText numberToString provider
             = inl "Cannot convert object to primitive value")
  \/ exists parsed visionKey embeddingKey client r,
      let input :=
        {| visionApiKey := visionKey;
           embeddingApiKey := Some embeddingKey;
           imageBase64 := Route.parsedImage parsed;
           queryText := Route.parsedQueryText parsed;
           config := Route.parsedConfig parsed |} in
      let cfg := mergeConfig (config input) in
      Route.safeParse infinityIsNumber (Route.body req) = Some parsed
      /\ truthyString visionKey = true
      /\ truthyString embeddingKey = true
      /\ resolveEmbeddingKey input cfg = Some embeddingKey
      /\ createAIProviderClient
           {| AiProvider.provider := visionProvider cfg;
              AiProvider.apiKey := visionKey;
              AiProvider.visionModel := Some (resolveVisionModel cfg);
              AiProvider.embeddingModel := None |} = inr client
      /\ performSearch toFixed openaiEmbeddings googleEmbedContent
                       analyzeImage input fetched w = (w', r)
      /\ match r with
         | inr out => resp = Route.Success out
         | inl _ => exists message, resp = Route.Failure 500 message
         end.
Proof.
  intros Hbody H. apply post_cases in H.
  destruct H as [H | [(Hw & typeError & Hr & Hp) | H]].
  - left. exact H.
  - right. left. split; [exact Hw|].
    destruct Hp as [Hp | (provider & Hp & Ht)].
    + destruct (providerOf_container _ Hbody) as [provider Hq]. congruence.
    + pose proof (toText_error _ _ _ Ht) as ->.
      split; [exact Hr|]. exists provider. split; assumption.
  - right. right.
    destruct H as (parsed & vk & ek & client & r & S & Tv & Te & K & C & R & E).
    exists parsed, vk, ek, client, r. cbv zeta in *.
    repeat split; try assumption.
    destruct r as [message | out]; [exists message|]; exact E.
Qed.

Lemma route_runs_configured_searches_witness :
  exists w' out parsed,
    Route.post true SampleRoute.numberToString Sample.toFixed Sample.openai
               Sample.google Sample.vision SampleRoute.openaiRequest
               Sample.catalog Sample.emptyWorld
    = (w', Route.Success out)
    /\ Route.safeParse true (Route.body SampleRoute.openaiRequest)
       = Some parsed.
Proof.
  destruct (answered_success
              (Route.post true SampleRoute.numberToString Sample.toFixed
                 Sample.openai Sample.google Sample.vision
                 SampleRoute.openaiRequest Sample.catalog Sample.emptyWorld))
    as (w' & out & E); [vm_compute; reflexivity|].
  destruct (route_runs_configured_searches
              true SampleRoute.numberToString Sample.toFixed Sample.openai
              Sample.google Sample.vision SampleRoute.openaiRequest
              Sample.catalog Sample.emptyWorld w' (Route.Success out)
              eq_refl E)
    as [(_ & m & F) | [(_ & F & _) | (parsed & _ & _ & _ & _ & S & _)]];
    [discriminate | discriminate |].
  exists w', out, parsed. split; [exact E | exact S].
Defined.

(** X19.  The route checks the keys before it validates the body.  For a
    provider other than [openai], [anthropic] and [google], and for a
    supported provider whose own key header is missing or empty, it
    answers 400 [Missing <provider> API key...]; for [anthropic] with its
    own key but neither [x-embedding-api-key] nor [x-openai-api-key], it
    answers 400 with the Anthropic embeddings message.  Nothing is
    searched in these cases. *)
Theorem route_checks_keys_first
        (infinityIsNumber : bool) (numberToString : float -> string)
        (toFixed : float -> nat -> string)
        (openaiEmbeddings :
           list Call -> string -> list string
           -> SdkError + list (option EmbeddingVector))
        (googleEmbedContent :
           list Call -> string -> nat -> string
           -> SdkError + option EmbeddingVector)
        (analyzeImage :
           AIProviderClient -> string -> string -> option string -> string
           -> Result string)
        (req : Route.Request) (fetched : list Product) (w : World)
        (provider : string) :
  Route.providerOf (Route.body req) = inr (Route.JString provider) ->
  let post :=
    Route.post infinityIsNumber numberToString toFixed openaiEmbeddings
               googleEmbedContent analyzeImage req fetched w in
  let missing :=
    Route.Failure 400 ("Missing " ++ provider
                       ++ " API key. Please provide x-" ++ provider
                       ++ "-api-key header.") in
  (provider <> "openai" -> provider <> "anthropic" -> provider <> "google" ->
   post = (w, missing))
  /\ ((provider = "openai" \/ provider = "anthropic" \/ provider = "google") ->
      truthyOpt (Route.header req ("x-" ++ provider ++ "-api-key")) = false ->
      post = (w, missing))
  /\ (provider = "anthropic" ->
      truthyOpt (Route.header req "x-anthropic-api-key") = true ->
      truthyOpt (Route.header req "x-embedding-api-key") = false ->
      truthyOpt (Route.header req "x-openai-api-key") = false ->
      post = (w, Route.Failure 400
                   "Anthropic doesn't support embeddings. Please provide x-openai-api-key or x-embedding-api-key for embeddings.")).
Proof.
  intros P post missing. subst post missing. unfold Route.post. rewrite P.
  unfold Route.missingKey. simpl Route.toText. cbv iota. split; [|split].
  - intros A B C. unfold Route.keysOf. simpl Route.isProvider.
    destruct (String.eqb_spec provider "openai"); [contradiction|].
    destruct (String.eqb_spec provider "anthropic"); [contradiction|].
    destruct (String.eqb_spec provider "google"); [contradiction|].
    reflexivity.
  - intros [-> | [-> | ->]] H; unfold Route.keysOf; simpl Route.isProvider;
      cbv iota; change ("x-" ++ "openai" ++ "-api-key") with "x-openai-api-key" in *;
      change ("x-" ++ "anthropic" ++ "-api-key") with "x-anthropic-api-key" in *;
      change ("x-" ++ "google" ++ "-api-key") with "x-google-api-key" in *;
      rewrite H; reflexivity.
  - intros -> Hv He Ho. unfold Route.keysOf. simpl Route.isProvider. cbv iota.
    rewrite Hv. unfold Route.orOption. rewrite He, Ho. reflexivity.
Qed.

Lemma route_checks_keys_first_witness :
  Route.post true SampleRoute.numberToString Sample.toFixed Sample.openai
             Sample.google Sample.vision
             {| Route.headers := SampleRoute.openaiHeaders;
                Route.body := SampleRoute.searchBody (Route.JString "mistral") |}
             Sample.catalog Sample.emptyWorld
  = (Sample.emptyWorld,
     Route.Failure
       400 "Missing mistral API key. Please provide x-mistral-api-key header.").
Proof.
  exact (proj1 (route_checks_keys_first true SampleRoute.numberToString
                  Sample.toFixed Sample.openai Sample.google Sample.vision
                  {| Route.headers := SampleRoute.openaiHeaders;
                     Route.body := SampleRoute.searchBody (Route.JString "mistral") |}
                  Sample.catalog Sample.emptyWorld "mistral" eq_refl)
               ltac:(discriminate) ltac:(discriminate) ltac:(discriminate)).
Defined.

(** ** The lexical score *)

Section SmallIntegers.

Local Open Scope Z_scope.

Lemma digits_iter_xO (p k : positive) :
  digits2_pos (Pos.iter xO p k) = (digits2_pos p + k)%positive.
Proof.
  induction k as [|k IH] using Pos.peano_ind.
  - simpl. lia.
  - rewrite Pos.iter_succ. simpl digits2_pos. rewrite IH. lia.
Qed.

(** A mantissa of full width needs no rounding. *)
Lemma binary_round_aux_exact (s : bool) (m : positive) (e : Z) :
  Z.pos (digits2_pos m) = 53 -> emin64 <= e <= emax - prec ->
  binary_round_aux prec emax s (Z.pos m) e loc_Exact = S754_finite s m e.
Proof.
  intros D [L U]. unfold emin64, SpecFloat.emin, prec, emax in *.
  assert (shr_fexp 53 1024 (Z.pos m) e loc_Exact
          = ({| shr_m := Z.pos m; shr_r := false; shr_s := false |}, e)) as S.
  { unfold shr_fexp, shr, fexp, SpecFloat.emin. simpl Zdigits2. rewrite D.
    replace (Z.max (53 + e - 53) (3 - 1024 - 53) - e) with 0 by lia.
    reflexivity. }
  unfold binary_round_aux. unfold prec, emax. rewrite S.
  simpl shr_m. simpl loc_of_shr_record. simpl round_nearest_even. rewrite S.
  simpl shr_m. destruct (Z.leb_spec e (1024 - 53)); [reflexivity | lia].
Qed.

Lemma bounded_full (m : positive) (e : Z) :
  Z.pos (digits2_pos m) = 53 -> emin64 <= e <= emax - prec ->
  bounded prec emax m e = true.
Proof.
  intros D [L U]. unfold bounded, canonical_mantissa, fexp, emin64,
    SpecFloat.emin, prec, emax in *.
  rewrite D. apply andb_true_iff. split; [apply Z.eqb_eq | apply Z.leb_le]; lia.
Qed.

(** A positive integer below [2^53] is a number, exactly. *)
Lemma numberOfZ_small (n : Z) :
  0 < n < 2 ^ 53 ->
  exists m e, Prim2SF (numberOfZ n) = S754_finite false m e.
Proof.
  intros [Pn Un]. destruct n as [|p|p]; try lia.
  unfold numberOfZ, binary_normalize, binary_round.
  pose proof (digits_bounds p) as [Dlo Dhi].
  assert (Z.pos (digits2_pos p) <= 53) as Dp.
  { destruct (Z.le_gt_cases (Z.pos (digits2_pos p)) 53) as [H|H]; [exact H|].
    assert (2 ^ 53 <= 2 ^ (Z.pos (digits2_pos p) - 1))
      by (apply Z.pow_le_mono_r; lia).
    lia. }
  set (d := Z.pos (digits2_pos p)) in *.
  assert (fexp prec emax (d + 0) = d - 53) as F
    by (unfold fexp, SpecFloat.emin, prec, emax; lia).
  rewrite F. unfold shl_align.
  destruct (d - 53 - 0) as [|k|k] eqn:K; try lia.
  - rewrite binary_round_aux_exact
      by (unfold emin64, SpecFloat.emin, prec, emax; fold d; lia).
    rewrite Prim2SF_SF2Prim; [eauto|].
    apply bounded_full; unfold emin64, SpecFloat.emin, prec, emax; fold d; lia.
  - assert (Z.pos (digits2_pos (Pos.iter xO p k)) = 53) as D
      by (rewrite digits_iter_xO; fold d; lia).
    rewrite binary_round_aux_exact
      by (unfold emin64, SpecFloat.emin, prec, emax; lia).
    rewrite Prim2SF_SF2Prim; [eauto|].
    apply bounded_full; unfold emin64, SpecFloat.emin, prec, emax; lia.
Qed.

End SmallIntegers.

Lemma Prim2SF_one : Prim2SF 1 = S754_finite false 4503599627370496 (-52).
Proof. vm_compute. reflexivity. Qed.

(** A finite number other than zero divided by itself is one. *)
Lemma div_self (x : float) (s : bool) (m : positive) (e : Z) :
  Prim2SF x = S754_finite s m e -> (x / x)%float = 1%float.
Proof.
  intros H. rewrite <- (SF2Prim_Prim2SF (x / x)), <- (SF2Prim_Prim2SF 1).
  f_equal. rewrite div_spec, H, Prim2SF_one.
  unfold SF64div, SFdiv, SFdiv_core_binary.
  replace (Z.min (fexp prec emax (Zdigits2 (Z.pos m) + e
                                  - (Zdigits2 (Z.pos m) + e))) (e - e))%Z
    with (-53)%Z
    by (rewrite !Z.sub_diag; reflexivity).
  replace (e - e - -53)%Z with 53%Z by lia.
  rewrite Z.shiftl_mul_pow2 by lia.
  pose proof (Z.div_eucl_eq (Z.pos m * 2 ^ 53) (Z.pos m) ltac:(lia)) as Q.
  pose proof (Z.mod_pos_bound (Z.pos m * 2 ^ 53) (Z.pos m) ltac:(lia)) as B.
  unfold Z.modulo in B.
  destruct (Z.div_eucl (Z.pos m * 2 ^ 53) (Z.pos m)) as [q r].
  assert (q = 2 ^ 53)%Z as ->.
  { transitivity (Z.pos m * 2 ^ 53 / Z.pos m)%Z.
    - apply Z.div_unique with r; lia.
    - rewrite Z.mul_comm. apply Z.div_mul. lia. }
  assert (r = 0)%Z as -> by lia.
  assert (new_location (Z.pos m) 0 = loc_Exact) as ->
    by (unfold new_location, new_location_even, new_location_odd;
        destruct (Z.even (Z.pos m)); reflexivity).
  rewrite xorb_nilpotent. vm_compute. reflexivity.
Qed.

(** Zero divided by a number other than zero, be it infinite, is zero. *)
Lemma div_zero_l (y : float) (m : positive) (e : Z) :
  Prim2SF y = S754_finite false m e -> (0 / y)%float = 0%float.
Proof.
  intros H. rewrite <- (SF2Prim_Prim2SF (0 / y)), <- (SF2Prim_Prim2SF 0).
  f_equal. rewrite div_spec, H. reflexivity.
Qed.

Lemma hasToken_In (tokens : list string) (t : string) :
  hasToken tokens t = true <-> In t tokens.
Proof.
  unfold hasToken. rewrite existsb_exists. split.
  - intros (x & Hx & E). apply String.eqb_eq in E. subst. exact Hx.
  - intros H. exists t. split; [exact H | apply String.eqb_refl].
Qed.

Lemma filter_all {A} (f : A -> bool) (l : list A) :
  Forall (fun x => f x = true) l -> List.filter f l = l.
Proof.
  induction 1 as [|x l Hx _ IH]; [reflexivity|]. simpl. rewrite Hx, IH.
  reflexivity.
Qed.

Lemma filter_none {A} (f : A -> bool) (l : list A) :
  Forall (fun x => f x = false) l -> List.filter f l = [].
Proof.
  induction 1 as [|x l Hx _ IH]; [reflexivity|]. simpl. rewrite Hx. exact IH.
Qed.

(** X8.  For ASCII texts, the lexical score is 0 when the query or the
    text has no token and when no token of the query occurs in the text,
    and it is exactly 1 when every token of a query with tokens occurs in
    the text (for a query of fewer than 2^53 tokens). *)
Theorem lexical_score_extremes (query text : string) :
  asciiText query = true -> asciiText text = true ->
  (Z.of_nat (length (tokenize query)) < 2 ^ 53)%Z ->
  (tokenize query = [] \/ tokenize text = [] ->
   computeLexicalScore query text = 0%float)
  /\ (tokenize query <> [] ->
      Forall (fun t => In t (tokenize text)) (tokenize query) ->
      computeLexicalScore query text = 1%float)
  /\ (Forall (fun t => ~ In t (tokenize text)) (tokenize query) ->
      computeLexicalScore query text = 0%float).
Proof.
  intros _ _. unfold computeLexicalScore. cbv zeta.
  generalize (tokenize query) as q, (tokenize text) as t. intros q t Hlen.
  assert (forall l : list string, l <> [] -> (length l =? 0)%nat = false)
    as Hnz by (intros [|] H; [congruence | reflexivity]).
  assert (q <> [] ->
          exists m e,
            Prim2SF (numberOfZ (Z.of_nat (length q))) = S754_finite false m e)
    as Fin.
  { intros Hq. apply numberOfZ_small. split; [|exact Hlen].
    destruct q; [congruence|]. simpl length. lia. }
  split; [|split].
  - intros [-> | ->]; [reflexivity|]. simpl. rewrite orb_true_r. reflexivity.
  - intros Hq Hall. destruct (Fin Hq) as (m & e & F).
    assert (t <> []) as Ht.
    { destruct q as [|x q]; [congruence|]. inversion Hall as [|? ? Hx _].
      intros E. rewrite E in Hx. exact Hx. }
    rewrite (Hnz q Hq), (Hnz t Ht). simpl orb. cbv iota. rewrite filter_all.
    + exact (div_self _ _ _ _ F).
    + revert Hall. apply List.Forall_impl. intros a. apply hasToken_In.
  - intros Hnone. destruct q as [|x q]; [reflexivity|].
    destruct (Fin ltac:(discriminate)) as (m & e & F).
    destruct ((length (x :: q) =? 0)%nat || (length t =? 0)%nat);
      [reflexivity|].
    rewrite filter_none.
    + exact (div_zero_l _ _ _ F).
    + revert Hnone. apply List.Forall_impl. intros a Ha.
      destruct (hasToken t a) eqn:E; [|reflexivity].
      apply hasToken_In in E. contradiction.
Qed.

Lemma lexical_score_extremes_witness :
  computeLexicalScore "Oak bench!" "solid OAK garden bench, 120 cm" = 1%float.
Proof.
  refine (proj1 (proj2 (lexical_score_extremes
                          "Oak bench!" "solid OAK garden bench, 120 cm"
                          eq_refl eq_refl _)) _ _).
  - vm_compute. reflexivity.
  - vm_compute. discriminate.
  - vm_compute. repeat constructor; tauto.
Defined.

(** ** Ranking: ties, completeness, distinct products *)

Lemma tied_not_below (v : float) (x y : ScoredProduct) :
  (score x <? score y)%float = true -> tied v x = true -> tied v y = false.
Proof.
  unfold tied. intros L Hx. apply andb_true_iff in Hx as [X1 X2].
  destruct (v <=? score y)%float eqn:Y1; [|reflexivity].
  destruct (score y <=? v)%float eqn:Y2; [|reflexivity].
  pose proof (leb_trans _ _ _ Y2 X1) as T.
  rewrite (ltb_not_leb _ _ L) in T. discriminate.
Qed.

Lemma insertSorted_tied (v : float) (x : ScoredProduct)
      (l : list ScoredProduct) :
  List.filter (tied v) (insertSorted x l) = List.filter (tied v) (x :: l).
Proof.
  induction l as [|y l IH]; [reflexivity|].
  rewrite insertSorted_ltb.
  destruct (score x <? score y)%float eqn:L; [|reflexivity].
  cbn [List.filter] in *. rewrite IH.
  destruct (tied v x) eqn:Tx; [|reflexivity].
  rewrite (tied_not_below v x y L Tx). reflexivity.
Qed.

Lemma sort_tied (v : float) (l : list ScoredProduct) :
  List.filter (tied v) (sort l) = List.filter (tied v) l.
Proof.
  induction l as [|x l IH]; [reflexivity|].
  simpl sort. rewrite insertSorted_tied. cbn [List.filter]. rewrite IH.
  reflexivity.
Qed.

Lemma filter_firstn {A} (f : A -> bool) (n : nat) (l : list A) :
  exists k, List.filter f (firstn n l) = firstn k (List.filter f l).
Proof.
  revert n. induction l as [|x l IH]; intros n.
  - exists 0%nat. rewrite List.firstn_nil. reflexivity.
  - destruct n as [|n]; [exists 0%nat; reflexivity|].
    destruct (IH n) as [k Hk]. simpl. destruct (f x).
    + exists (S k). simpl. rewrite Hk. reflexivity.
    + exists k. exact Hk.
Qed.

(** X22.  The sort of the ranking is stable: the candidates that tie at
    any one score stand in the sorted list in the order they have in the
    catalog, and the results that tie at that score are the first of
    them. *)
Theorem ranking_keeps_catalog_order_among_ties
        (cfg : SearchConfig) (scored : list ScoredProduct) (v : float) :
  List.filter (tied v) (sort (passing cfg scored))
  = List.filter (tied v) (passing cfg scored)
  /\ exists k,
      List.filter (tied v) (rank cfg scored)
      = firstn k (List.filter (tied v) (passing cfg scored)).
Proof.
  split; [apply sort_tied|]. unfold rank. fold (passing cfg scored).
  destruct (slice0_prefix (sort (passing cfg scored)) (topK cfg)) as [n ->].
  destruct (filter_firstn (tied v) n (sort (passing cfg scored))) as [k ->].
  exists k. rewrite sort_tied. reflexivity.
Qed.

Lemma slice0_all {A} (l : list A) (k : Z) :
  (Z.of_nat (length l) <= k)%Z -> slice0 l k = l.
Proof.
  intros H. unfold slice0. cbv zeta.
  destruct (Z.ltb_spec k 0); [lia|].
  rewrite Z.min_r by lia. rewrite Nat2Z.id. apply List.firstn_all.
Qed.

(** X23.  When no more than [topK] scored candidates reach the minimum
    score, the ranking returns all of them: it is a permutation of the
    candidates that pass the threshold. *)
Theorem ranking_drops_only_beyond_topK
        (cfg : SearchConfig) (scored : list ScoredProduct) :
  (Z.of_nat (length (passing cfg scored)) <= topK cfg)%Z ->
  Permutation (rank cfg scored) (passing cfg scored)
  /\ forall s, In s scored -> (minScore cfg <=? score s)%float = true ->
               In s (rank cfg scored).
Proof.
  intros H. assert (rank cfg scored = sort (passing cfg scored)) as E.
  { unfold rank. fold (passing cfg scored). apply slice0_all.
    rewrite sort_length. exact H. }
  rewrite E. split; [apply sort_perm|].
  intros s Hin Hs. apply (Permutation_in _ (Permutation_sym (sort_perm _))).
  apply List.filter_In. split; assumption.
Qed.

Lemma ranking_drops_only_beyond_topK_witness :
  Permutation (rank (mergeConfig None) SampleRanking.scoredTrio)
              (passing (mergeConfig None) SampleRanking.scoredTrio).
Proof.
  exact (proj1 (ranking_drops_only_beyond_topK
                  (mergeConfig None) SampleRanking.scoredTrio
                  ltac:(vm_compute; discriminate))).
Defined.

Lemma NoDup_firstn {A} (n : nat) (l : list A) :
  List.NoDup l -> List.NoDup (firstn n l).
Proof.
  revert n. induction l as [|x l IH]; intros n H.
  - rewrite List.firstn_nil. constructor.
  - destruct n as [|n]; [constructor|]. simpl. inversion H as [|? ? Hx Hl].
    constructor; [|apply IH; exact Hl].
    intros Hin. apply Hx. apply (firstn_incl n l x Hin).
Qed.

Lemma NoDup_map_filter {A B} (g : A -> B) (f : A -> bool) (l : list A) :
  List.NoDup (map g l) -> List.NoDup (map g (List.filter f l)).
Proof.
  induction l as [|x l IH]; intros H; [constructor|].
  simpl in *. inversion H as [|? ? Hx Hl]. destruct (f x).
  - simpl. constructor; [|apply IH; exact Hl].
    intros Hin. apply Hx. apply List.in_map_iff in Hin as (y & E & Hy).
    apply List.filter_In in Hy as [Hy _]. rewrite <- E.
    apply List.in_map. exact Hy.
  - apply IH. exact Hl.
Qed.

Lemma map_firstn_NoDup {A B} (g : A -> B) (n : nat) (l : list A) :
  List.NoDup (map g l) -> List.NoDup (map g (firstn n l)).
Proof.
  intros H. rewrite <- List.firstn_map. apply NoDup_firstn. exact H.
Qed.

Lemma priceRangeFilter_NoDup (cfg : SearchConfig) (fetched : list Product) :
  List.NoDup (map _id fetched) ->
  List.NoDup (map _id (priceRangeFilter cfg fetched)).
Proof.
  unfold priceRangeFilter.
  destruct (priceRangeEnabled cfg) as [[|]|], (priceRangeMin cfg),
    (priceRangeMax cfg); try tauto.
  apply NoDup_map_filter.
Qed.

Lemma rank_NoDup (cfg : SearchConfig) (scored : list ScoredProduct) :
  List.NoDup (map (fun r => _id (product r)) scored) ->
  List.NoDup (map (fun r => _id (product r)) (rank cfg scored)).
Proof.
  intros H. unfold rank.
  destruct (slice0_prefix
              (sort (List.filter (fun s => (minScore cfg <=? score s)%float)
                                 scored)) (topK cfg)) as [n ->].
  apply map_firstn_NoDup.
  apply (Permutation_NoDup
           (l := map (fun r => _id (product r))
                     (List.filter (fun s => (minScore cfg <=? score s)%float)
                                  scored))).
  - apply Permutation_map, Permutation_sym, sort_perm.
  - apply NoDup_map_filter. exact H.
Qed.

(** X24.  When the fetched products have distinct identifiers, so have
    the results of a successful search: no product is returned twice. *)
Theorem results_have_distinct_products
        (toFixed : float -> nat -> string)
        (openaiEmbeddings :
           list Call -> string -> list string
           -> SdkError + list (option EmbeddingVector))
        (googleEmbedContent :
           list Call -> string -> nat -> string
           -> SdkError + option EmbeddingVector)
        (analyzeImage :
           AIProviderClient -> string -> string -> option string -> string
           -> Result string)
        (input : PerformSearchInput) (fetched : list Product)
        (w w' : World) (out : SearchOutput) :
  List.NoDup (map _id fetched) ->
  performSearch toFixed openaiEmbeddings googleEmbedContent analyzeImage
                input fetched w = (w', inr out) ->
  List.NoDup (map (fun r => _id (product r)) (results out)).
Proof.
  intros N H. apply performSearch_inr in H. cbv zeta in H.
  destruct H as [(_ & -> & _) | (_ & _ & _ & an & cq & qe & pe & scored & M & ->)];
    [constructor|].
  apply rank_NoDup. apply scored_products in M.
  rewrite <- (List.map_map product _id), M. unfold candidatesOf.
  destruct (slice0_prefix
              (priceRangeFilter (mergeConfig (config input)) fetched)
              (maxCandidates (mergeConfig (config input)))) as [n ->].
  apply map_firstn_NoDup, priceRangeFilter_NoDup. exact N.
Qed.

Lemma results_have_distinct_products_witness :
  exists w' out,
    performSearch Sample.toFixed Sample.openai Sample.google Sample.vision
                  (Sample.request Sample.userConfig None) Sample.catalog
                  Sample.emptyWorld = (w', inr out)
    /\ List.NoDup (map (fun r => _id (product r)) (results out)).
Proof.
  destruct (ranked_inr
              (performSearch Sample.toFixed Sample.openai Sample.google
                 Sample.vision (Sample.request Sample.userConfig None)
                 Sample.catalog Sample.emptyWorld))
    as (w' & out & E & _); [vm_compute; reflexivity|].
  exists w', out. split; [exact E|].
  refine (results_have_distinct_products _ _ _ _ _ _ _ _ _ _ E).
  vm_compute. repeat constructor; simpl; intuition discriminate.
Defined.

(** ** Cosine similarity is symmetric *)

Lemma SFmul_comm (x y : spec_float) :
  SFmul prec emax x y = SFmul prec emax y x.
Proof.
  destruct x as [sx | sx | | sx mx ex], y as [sy | sy | | sy my ey];
    simpl; try rewrite (xorb_comm sx sy); try reflexivity.
  rewrite (Pos.mul_comm mx my), (Z.add_comm ex ey). reflexivity.
Qed.

Lemma mul_comm (x y : float) : (x * y)%float = (y * x)%float.
Proof.
  rewrite <- (SF2Prim_Prim2SF (x * y)), <- (SF2Prim_Prim2SF (y * x)).
  rewrite !mul_spec. unfold SF64mul. rewrite SFmul_comm. reflexivity.
Qed.

Lemma cosineLoop_swap (a b : EmbeddingVector) (dot normA normB : float) :
  cosineLoop b a dot normB normA
  = let '(d, nA, nB) := cosineLoop a b dot normA normB in (d, nB, nA).
Proof.
  revert b dot normA normB. induction a as [|va a IH]; intros b dot nA nB.
  - destruct b; reflexivity.
  - destruct b as [|vb b]; [reflexivity|]. simpl.
    rewrite (mul_comm vb va). apply IH.
Qed.

(** X25.  [cosineSimilarity] gives the same number, bit for bit, when its
    arguments are exchanged, whatever their lengths and entries. *)
Theorem cosineSimilarity_symmetric (a b : EmbeddingVector) :
  cosineSimilarity a b = cosineSimilarity b a.
Proof.
  unfold cosineSimilarity. rewrite (Nat.min_comm (length b) (length a)).
  destruct (Nat.min (length a) (length b) =? 0)%nat; [reflexivity|].
  rewrite (cosineLoop_swap a b 0 0 0).
  destruct (cosineLoop a b 0 0 0) as [[d nA] nB].
  rewrite (orb_comm (negb (truthy nB))), (mul_comm (sqrt nB)). reflexivity.
Qed.

(** ** The search history of the client *)

Lemma removelast_firstn_pred {A} (l : list A) :
  removelast l = firstn (pred (length l)) l.
Proof.
  induction l as [|x l IH]; [reflexivity|].
  destruct l as [|y l]; [reflexivity|].
  change (removelast (x :: y :: l)) with (x :: removelast (y :: l)).
  rewrite IH. reflexivity.
Qed.

(** X28.  The history never holds more than ten searches, whatever is
    added and cleared.  An addition puts the new search first and keeps
    the older ones in order; it drops a search, the oldest, only when ten
    are held. *)
Theorem history_keeps_the_last_ten
        (actions : list Frontend.HistoryAction) (uuid : string) (now : float)
        (item : Frontend.NewHistoryItem) :
  let history := fold_left Frontend.step actions [] in
  let added := Frontend.addHistory uuid now item history in
  (length history <= 10)%nat
  /\ option_map Frontend.id (List.head added) = Some uuid
  /\ List.tail added = (if (length history <? 10)%nat then history
                        else removelast history).
Proof.
  cbv zeta.
  assert (forall start,
             (length start <= 10)%nat ->
             (length (fold_left Frontend.step actions start) <= 10)%nat) as G.
  { induction actions as [|a actions IH]; intros start H; [exact H|].
    simpl. apply IH. destruct a as [u n i|]; simpl; [|lia].
    rewrite slice0_firstn by lia. rewrite length_firstn. lia. }
  specialize (G [] ltac:(simpl; lia)).
  set (history := fold_left Frontend.step actions []) in *.
  split; [exact G|]. split; [reflexivity|].
  unfold Frontend.addHistory. simpl List.tail. rewrite slice0_firstn by lia.
  destruct (Nat.ltb_spec (length history) 10) as [L|L].
  - apply List.firstn_all2. lia.
  - rewrite removelast_firstn_pred. f_equal. lia.
Qed.

(** ** The keys the client sends *)

Section ClientHeaders.

Variable infinityIsNumber : bool.
Variable numberToString : float -> string.
Variable toFixed : float -> nat -> string.
Variable openaiEmbeddings :
  list Call -> string -> list string -> SdkError + list (option EmbeddingVector).
Variable googleEmbedContent :
  list Call -> string -> nat -> string -> SdkError + option EmbeddingVector.
Variable analyzeImage :
  AIProviderClient -> string -> string -> option string -> string -> Result string.

(** A request that passes the key checks is refused as invalid or
    searched. *)
Lemma post_with_keys (req : Route.Request) (fetched : list Product)
      (w : World) (provider : string) :
  Route.providerOf (Route.body req) = inr (Route.JString provider) ->
  truthyOpt (fst (Route.keysOf req (Route.JString provider))) = true ->
  truthyOpt (snd (Route.keysOf req (Route.JString provider))) = true ->
  Route.post infinityIsNumber numberToString toFixed openaiEmbeddings
             googleEmbedContent analyzeImage req fetched w
  = match Route.safeParse infinityIsNumber (Route.body req) with
    | None => (w, Route.Failure 400 "Invalid request")
    | Some parsed =>
        match performSearch toFixed openaiEmbeddings googleEmbedContent
                analyzeImage
                (Route.searchInput
                   parsed
                   (fst (Route.keysOf req (Route.JString provider)))
                   (snd (Route.keysOf req (Route.JString provider))))
                fetched w with
        | (w', inr out) => (w', Route.Success out)
        | (w', inl message) => (w', Route.Failure 500 message)
        end
    end.
Proof.
  intros P V E. unfold Route.post. rewrite P.
  destruct (Route.keysOf req (Route.JString provider)) as [vk ek].
  simpl fst in *. simpl snd in *. rewrite V, E. simpl negb.
  rewrite andb_false_r. cbv iota. simpl andb. cbv iota.
  destruct (Route.safeParse infinityIsNumber (Route.body req)); [|reflexivity].
  rewrite E. simpl negb. cbv iota.
  destruct (performSearch _ _ _ _ _ _ _) as [w' [m|out]]; reflexivity.
Qed.

End ClientHeaders.

Ltac lookups :=
  repeat first [ rewrite lookup_insert_eq
               | rewrite lookup_insert_ne by discriminate
               | rewrite lookup_singleton_ne by discriminate
               | rewrite lookup_singleton_eq ].

Lemma searchHeaders_keys (aiProvider : string) (apiKeys : Frontend.ApiKeys)
      (body : Route.Json) :
  let provider := orElse (Some aiProvider) "openai" in
  let req := {| Route.headers := Frontend.searchHeaders aiProvider apiKeys;
                Route.body := body |} in
  let own :=
    if String.eqb provider "openai" then Frontend.openai apiKeys
    else if String.eqb provider "anthropic" then Frontend.anthropic apiKeys
    else Frontend.google apiKeys in
  provider = "openai" \/ provider = "anthropic" \/ provider = "google" ->
  truthyOpt own = true ->
  (provider = "anthropic" ->
   truthyOpt (Frontend.embedding apiKeys) = true
   \/ truthyOpt (Frontend.openai apiKeys) = true) ->
  Route.keysOf req (Route.JString provider)
  = (own,
     if truthyOpt (Frontend.embedding apiKeys) then Frontend.embedding apiKeys
     else if String.eqb provider "anthropic" then Frontend.openai apiKeys
     else own).
Proof.
  cbv zeta. set (provider := orElse (Some aiProvider) "openai").
  unfold Frontend.searchHeaders. fold provider.
  intros Sup Hown Hanth.
  unfold Route.keysOf, Route.isProvider, Route.header, Route.orOption.
  simpl Route.headers.
  destruct Sup as [E | [E | E]]; rewrite E in *; simpl String.eqb in *;
    cbv iota in *;
    try specialize (Hanth eq_refl);
    destruct (Frontend.openai apiKeys) as [o|],
             (Frontend.anthropic apiKeys) as [a|],
             (Frontend.google apiKeys) as [g|],
             (Frontend.embedding apiKeys) as [e|];
    simpl truthyOpt in *; simpl defaultTo; try discriminate;
    try (destruct Hanth; discriminate);
    repeat match goal with
           | |- context [truthyString ?x] =>
               let T := fresh "T" in destruct (truthyString x) eqn:T
           end;
    simpl andb; cbv iota; try discriminate;
    try (destruct Hanth; discriminate);
    lookups; simpl truthyOpt; rewrite ?T, ?T0, ?T1, ?T2; reflexivity.
Qed.

(** X27.  With the key of the vision provider saved in the client (and,
    for [anthropic], an embedding or OpenAI key beside it), a request
    carrying the headers [searchApi.search] builds passes the key checks
    of the route: the answer is [Invalid request] or the outcome of a
    search that got the provider's key as vision key and, as embedding
    key, the saved embedding key, else the OpenAI key for [anthropic],
    else the provider's key.  With only the Anthropic key saved, the
    route refuses the request for want of an embedding key. *)
Theorem client_keys_pass_the_route
        (infinityIsNumber : bool) (numberToString : float -> string)
        (toFixed : float -> nat -> string)
        (openaiEmbeddings :
           list Call -> string -> list string
           -> SdkError + list (option EmbeddingVector))
        (googleEmbedContent :
           list Call -> string -> nat -> string
           -> SdkError + option EmbeddingVector)
        (analyzeImage :
           AIProviderClient -> string -> string -> option string -> string
           -> Result string)
        (aiProvider : string) (apiKeys : Frontend.ApiKeys)
        (body : Route.Json) (fetched : list Product) (w : World) :
  let provider := orElse (Some aiProvider) "openai" in
  let req := {| Route.headers := Frontend.searchHeaders aiProvider apiKeys;
                Route.body := body |} in
  let own :=
    if String.eqb provider "openai" then Frontend.openai apiKeys
    else if String.eqb provider "anthropic" then Frontend.anthropic apiKeys
    else Frontend.google apiKeys in
  let embeddingKey :=
    if truthyOpt (Frontend.embedding apiKeys) then Frontend.embedding apiKeys
    else if String.eqb provider "anthropic" then Frontend.openai apiKeys
    else own in
  let post :=
    Route.post infinityIsNumber numberToString toFixed openaiEmbeddings
               googleEmbedContent analyzeImage req fetched w in
  Route.providerOf body = inr (Route.JString provider) ->
  provider = "openai" \/ provider = "anthropic" \/ provider = "google" ->
  truthyOpt own = true ->
  (truthyOpt embeddingKey = true ->
   post
   = match Route.safeParse infinityIsNumber body with
     | None => (w, Route.Failure 400 "Invalid request")
     | Some parsed =>
         match performSearch toFixed openaiEmbeddings googleEmbedContent
                 analyzeImage (Route.searchInput parsed own embeddingKey)
                 fetched w with
         | (w', inr out) => (w', Route.Success out)
         | (w', inl message) => (w', Route.Failure 500 message)
         end
     end)
  /\ (truthyOpt embeddingKey = false ->
      provider = "anthropic"
      /\ post
         = (w, Route.Failure 400
                 "Anthropic doesn't support embeddings. Please provide x-openai-api-key or x-embedding-api-key for embeddings.")).
Proof.
  intros provider req own embeddingKey post P Sup Hown.
  assert (truthyOpt embeddingKey = true \/
          (provider = "anthropic"
           /\ truthyOpt (Frontend.embedding apiKeys) = false
           /\ truthyOpt (Frontend.openai apiKeys) = false)) as Cases.
  { subst embeddingKey own.
    destruct (truthyOpt (Frontend.embedding apiKeys)) eqn:Te; [left; exact Te|].
    destruct Sup as [E | [E | E]]; rewrite E in *; simpl String.eqb in *;
      cbv iota in *; try (left; exact Hown).
    destruct (truthyOpt (Frontend.openai apiKeys)) eqn:To; [left; reflexivity|].
    right. repeat split. }
  split.
  - intros Te.
    assert (provider = "anthropic" ->
            truthyOpt (Frontend.embedding apiKeys) = true
            \/ truthyOpt (Frontend.openai apiKeys) = true) as Hanth.
    { intros E. subst embeddingKey. rewrite E in Te. simpl String.eqb in Te.
      destruct (truthyOpt (Frontend.embedding apiKeys)); [left; reflexivity|].
      right. exact Te. }
    pose proof (searchHeaders_keys aiProvider apiKeys body Sup Hown Hanth) as K.
    cbv zeta in K. fold provider own embeddingKey in K. fold req in K.
    subst post.
    rewrite (post_with_keys infinityIsNumber numberToString toFixed
               openaiEmbeddings googleEmbedContent analyzeImage req fetched w
               provider P);
      rewrite K; simpl fst; simpl snd; try assumption. reflexivity.
  - intros Te. destruct Cases as [C | (E & Hemb & Hopen)];
      [rewrite C in Te; discriminate|].
    split; [exact E|]. subst post. unfold Route.post. simpl Route.body.
    rewrite P, E. unfold Route.keysOf, Route.isProvider. simpl String.eqb.
    cbv iota. subst own. rewrite E in Hown. simpl String.eqb in Hown.
    cbv iota in Hown.
    assert (Route.headers req
            = <["x-anthropic-api-key" :=
                  defaultTo "" (Frontend.anthropic apiKeys)]>
                {[ "Content-Type" := "application/json" ]}) as Hh.
    { subst req. simpl Route.headers. unfold Frontend.searchHeaders.
      fold provider. rewrite E. simpl String.eqb. cbv iota.
      rewrite Hown, Hemb, Hopen. reflexivity. }
    unfold Route.header, Route.orOption. rewrite Hh.
    rewrite lookup_insert_eq.
    rewrite !lookup_insert_ne by discriminate.
    rewrite !lookup_singleton_ne by discriminate.
    destruct (Frontend.anthropic apiKeys) as [k|]; [|discriminate].
    simpl defaultTo. simpl in Hown. simpl truthyOpt. rewrite Hown. reflexivity.
Qed.

Lemma client_keys_pass_the_route_witness :
  SampleRoute.answered (SampleRoute.post SampleClient.clientRequest) = true.
Proof.
  unfold SampleRoute.post, SampleClient.clientRequest.
  rewrite (proj1 (client_keys_pass_the_route
                    true SampleRoute.numberToString Sample.toFixed Sample.openai
                    Sample.google Sample.vision "openai" SampleClient.openaiOnly
                    (SampleRoute.searchBody (Route.JString "openai"))
                    Sample.catalog Sample.emptyWorld
                    eq_refl (or_introl eq_refl) eq_refl) eq_refl).
  vm_compute. reflexivity.
Defined.
